(** * The manipulation lattice of sbpl_arm_planner (manip_lattice.cpp)

    A shallow embedding of [sbpl::manip::ManipLattice] and the properties
    its specification states about it.

    Conventions of the embedding.
    - A C++ [double] is a real number ([R]); rounding is not modelled, so
      every statement about angles is a statement about the exact
      arithmetic the source code writes down.
    - A C++ [int] is an integer ([Z]); overflow is not modelled.  The
      conversion [(int)x] truncates towards zero.
      [std::numeric_limits<int>::max()] is [INT_MAX].
    - A [std::vector] is a list.  A [ManipLatticeState*] is the index of the
      entry in [m_states]: entries are allocated by [createHashEntry] only,
      pushed onto [m_states] at once and never freed before the destructor.
    - A failed [assert], and an access the language leaves undefined (an
      index past the end of a vector, [back()] of an empty vector), ends
      the run: the function yields [Abort].
    - The collaborators of the lattice (robot model, forward kinematics,
      collision checker, occupancy grid, action space, planning parameters)
      are the fields of the class [Collaborators]; the lattice never
      changes them.
    - Logging, visualisation, the stop watches, the notification of the
      observers by [RobotPlanningSpace::setStart] and [setGoal], and the
      near-goal latch of [isGoal] (read by a log message only) are left
      out. *)

From Stdlib Require Import Reals Lra Lia ZArith.
From stdpp Require Import base option list gmap.

Open Scope R_scope.

(** ** Outcomes of a run *)

Inductive outcome (A : Type) : Type :=
  | Ret (a : A)
  | Abort.
Arguments Ret {A} a.
Arguments Abort {A}.

#[export] Instance outcome_ret : MRet outcome := fun A a => Ret a.
#[export] Instance outcome_bind : MBind outcome := fun A B f m =>
  match m with
  | Ret a => f a
  | Abort => Abort
  end.

(** ** Numbers *)

Definition INT_MAX : Z := 2147483647.

(** [(int)x] for a double [x]: the fractional part is discarded. *)
Definition double_to_int (x : R) : Z :=
  if Rle_dec 0 x then Int_part x else (- Int_part (- x))%Z.

Definition Rleb (a b : R) : bool := if Rle_dec a b then true else false.
Definition Rltb (a b : R) : bool := if Rlt_dec a b then true else false.

(** Modelled from the spec: sbpl_arm_planner/angles.h is not among the
    sources.  [normalize_angle_positive] is the spec's [normalize_positive],
    the representative of an angle in [[0, 2π)]; [normalize_angle] is its
    [normalize], the representative in [(-π, π]]. *)
Definition normalize_angle_positive (a : R) : R :=
  a - 2 * PI * IZR (Int_part (a / (2 * PI))).

Definition normalize_angle (a : R) : R :=
  let p := normalize_angle_positive a in
  if Rlt_dec PI p then p - 2 * PI else p.

(** ** Data model *)

Definition RobotState : Type := list R.
Definition Action : Type := list RobotState.

(** [ManipLatticeState]; the scratch heuristic value, written by
    [GetGoalHeuristic] only, is left out. *)
Record ManipLatticeState : Type := {
  stateID : Z;
  coord : list Z;
  state : RobotState;
  dist : R;
  xyz : Z * Z * Z;
}.

Definition set_coord (c : list Z) (e : ManipLatticeState) : ManipLatticeState :=
  {| stateID := stateID e; coord := c; state := state e; dist := dist e;
     xyz := xyz e |}.

Inductive GoalType : Type :=
  | XYZ_GOAL
  | XYZ_RPY_GOAL
  | JOINT_STATE_GOAL
  | OTHER_GOAL_TYPE (v : Z).

(** [GoalConstraint]; the arrays [double[3]] and [int[3]] are triples. *)
Record GoalConstraint : Type := {
  type : GoalType;
  pose : list R;
  xyz_offset : R * R * R;
  xyz_tolerance : R * R * R;
  rpy_tolerance : R * R * R;
  tgt_off_pose : list R;
  goal_xyz : Z * Z * Z;
  angles : list R;
  angle_tolerances : list R;
}.

(** The lattice.  [m_state_to_id] is the hash map from entries to state
    IDs whose hash and equality read the coordinate of the entry: a finite
    map from coordinates to the pair of the key entry and the stored ID. *)
Record ManipLattice : Type := {
  m_goal : GoalConstraint;
  m_goal_entry : option nat;
  m_start_entry : option nat;
  m_state_to_id : gmap (list Z) (nat * Z);
  m_states : list ManipLatticeState;
  m_expanded_states : list Z;
}.

Definition set_m_goal (g : GoalConstraint) (L : ManipLattice) : ManipLattice :=
  {| m_goal := g; m_goal_entry := m_goal_entry L;
     m_start_entry := m_start_entry L; m_state_to_id := m_state_to_id L;
     m_states := m_states L; m_expanded_states := m_expanded_states L |}.

Definition set_m_goal_entry (p : option nat) (L : ManipLattice) : ManipLattice :=
  {| m_goal := m_goal L; m_goal_entry := p;
     m_start_entry := m_start_entry L; m_state_to_id := m_state_to_id L;
     m_states := m_states L; m_expanded_states := m_expanded_states L |}.

Definition set_m_start_entry (p : option nat) (L : ManipLattice) : ManipLattice :=
  {| m_goal := m_goal L; m_goal_entry := m_goal_entry L;
     m_start_entry := p; m_state_to_id := m_state_to_id L;
     m_states := m_states L; m_expanded_states := m_expanded_states L |}.

Definition set_m_states (l : list ManipLatticeState) (L : ManipLattice) : ManipLattice :=
  {| m_goal := m_goal L; m_goal_entry := m_goal_entry L;
     m_start_entry := m_start_entry L; m_state_to_id := m_state_to_id L;
     m_states := l; m_expanded_states := m_expanded_states L |}.

Definition set_m_state_to_id (m : gmap (list Z) (nat * Z)) (L : ManipLattice) : ManipLattice :=
  {| m_goal := m_goal L; m_goal_entry := m_goal_entry L;
     m_start_entry := m_start_entry L; m_state_to_id := m;
     m_states := m_states L; m_expanded_states := m_expanded_states L |}.

Definition set_m_expanded_states (l : list Z) (L : ManipLattice) : ManipLattice :=
  {| m_goal := m_goal L; m_goal_entry := m_goal_entry L;
     m_start_entry := m_start_entry L; m_state_to_id := m_state_to_id L;
     m_states := m_states L; m_expanded_states := l |}.

(** The collaborators.  [fk_iface] is the forward kinematics extension of
    the robot model ([None] when [getExtension] yields [nullptr]) and
    [actionSpace] the action space ([None] when there is none); both answer
    [None] when the call returns [false].  A pose that
    [computePlanningLinkFK] computes is the six numbers x, y, z, roll,
    pitch, yaw, which is what [computePlanningFrameFK] asserts of it.  The two collision queries return
    the validity and the distance they report.  [goal_type_of_int] is the
    cast [(GoalType)i] and [initial_goal] the value-initialised
    [GoalConstraint], both fixed by a header that is not among the
    sources. *)
Class Collaborators : Type := {
  num_joints_ : nat;
  coord_delta_ : list R;
  coord_vals_ : list Z;
  cost_multiplier_ : Z;
  minPosLimit : nat → R;
  maxPosLimit : nat → R;
  hasPosLimit : nat → bool;
  checkJointLimits : RobotState → bool;
  fk_iface : option (RobotState → option (R * R * R * R * R * R));
  isStateValid : RobotState → bool * R;
  isStateToStateValid : RobotState → RobotState → bool * R;
  worldToGrid : R → R → R → Z * Z * Z;
  actionSpace : option (RobotState → option (list Action));
  goal_type_of_int : Z → GoalType;
  initial_goal : GoalConstraint;
}.

(** ** The operations of the lattice *)

Section Model.
Context `{Collaborators}.

(** The limit vectors filled by the constructor. *)
Definition m_min_limits : list R := minPosLimit <$> seq 0 num_joints_.
Definition m_max_limits : list R := maxPosLimit <$> seq 0 num_joints_.
Definition m_continuous : list bool :=
  (fun jidx => negb (hasPosLimit jidx)) <$> seq 0 num_joints_.

(** [l[i]] of a vector of doubles. *)
Definition at_ (l : list R) (i : nat) : outcome R :=
  match l !! i with
  | Some x => Ret x
  | None => Abort
  end.

(** [p->...] for an entry pointer [p]. *)
Definition entry_at (L : ManipLattice) (p : nat) : outcome ManipLatticeState :=
  match m_states L !! p with
  | Some e => Ret e
  | None => Abort
  end.

(** [m_goal_entry->stateID]. *)
Definition goal_entry_stateID (L : ManipLattice) : outcome Z :=
  match m_goal_entry L with
  | Some p => e ← entry_at L p; Ret (stateID e)
  | None => Abort
  end.

(** *** Coordinate encoding *)

(** The per-joint vectors are read at the positions of the coordinate,
    which has [num_joints_] cells in every lattice state. *)
Definition coordToAngles_joint (i : nat) (c : Z) : R :=
  if nth i m_continuous false
  then IZR c * nth i coord_delta_ 0
  else nth i m_min_limits 0 + IZR c * nth i coord_delta_ 0.

Definition coordToAngles (coord : list Z) : list R :=
  imap coordToAngles_joint coord.

Definition anglesToCoord_joint (i : nat) (a : R) : Z :=
  if nth i m_continuous false
  then
    let pos_angle := normalize_angle_positive a in
    let c :=
      double_to_int
        ((pos_angle + nth i coord_delta_ 0 * 0.5) / nth i coord_delta_ 0) in
    if (c =? nth i coord_vals_ 0)%Z then 0%Z else c
  else
    double_to_int
      ((a - nth i m_min_limits 0) / nth i coord_delta_ 0 + 0.5).

(** The output vector is allocated with [num_joints_] cells by every
    caller, so the assertion is one on the length of [angle]; every cell
    of the output is written. *)
Definition anglesToCoord (angle : list R) : outcome (list Z) :=
  if decide (length angle = num_joints_)
  then Ret (imap anglesToCoord_joint angle)
  else Abort.

(** *** The state table *)

Definition getHashEntry (L : ManipLattice) (coord : list Z) : option nat :=
  fst <$> m_state_to_id L !! coord.

(** [m_state_to_id[entry] = id]: an entry of equal coordinate that is
    already a key stays the key. *)
Definition hash_assign (m : gmap (list Z) (nat * Z)) (p : nat)
    (c : list Z) (id : Z) : gmap (list Z) (nat * Z) :=
  match m !! c with
  | Some (q, _) => <[c := (q, id)]> m
  | None => <[c := (p, id)]> m
  end.

Definition createHashEntry (L : ManipLattice) (coord : list Z)
    (state : RobotState) (dist : R) (endeff : Z * Z * Z) : ManipLattice * nat :=
  let p := length (m_states L) in
  let entry :=
    {| stateID := Z.of_nat (length (m_states L)); coord := coord;
       state := state; dist := dist; xyz := endeff |} in
  (set_m_state_to_id (hash_assign (m_state_to_id L) p coord (stateID entry))
     (set_m_states (m_states L ++ [entry]) L), p).

Definition getOrCreateState (L : ManipLattice) (coord : list Z)
    (state : RobotState) (dist : R) (endeff : Z * Z * Z) : ManipLattice * nat :=
  match getHashEntry L coord with
  | Some entry => (L, entry)
  | None => createHashEntry L coord state dist endeff
  end.

(** The constructor: the reserved goal entry is created by
    [createHashEntry] on the all-zero coordinate. *)
Definition ManipLattice_new : ManipLattice :=
  let L0 :=
    {| m_goal := initial_goal; m_goal_entry := None; m_start_entry := None;
       m_state_to_id := ∅; m_states := []; m_expanded_states := [] |} in
  let '(L1, p) :=
    createHashEntry L0 (replicate num_joints_ 0%Z) [] 0 (0%Z, 0%Z, 0%Z) in
  set_m_goal_entry (Some p) L1.

Definition getGoalStateID (L : ManipLattice) : outcome Z :=
  match m_goal_entry L with
  | Some p => e ← entry_at L p; Ret (stateID e)
  | None => Ret (-1)%Z
  end.

Definition getStartStateID (L : ManipLattice) : outcome Z :=
  match m_start_entry L with
  | Some p => e ← entry_at L p; Ret (stateID e)
  | None => Ret (-1)%Z
  end.

Definition StateID2Angles (L : ManipLattice) (stateID_ : Z)
    : outcome (option RobotState) :=
  if decide (stateID_ < 0 ∨ Z.of_nat (length (m_states L)) ≤ stateID_)%Z
  then Ret None
  else
    g ← goal_entry_stateID L;
    if (stateID_ =? g)%Z then Ret None
    else e ← entry_at L (Z.to_nat stateID_); Ret (Some (state e)).

(** *** Planning frame forward kinematics with the tip offset *)

Definition rotX (a : R) (v : R * R * R) : R * R * R :=
  let '(x, y, z) := v in (x, cos a * y - sin a * z, sin a * y + cos a * z).
Definition rotY (a : R) (v : R * R * R) : R * R * R :=
  let '(x, y, z) := v in (cos a * x + sin a * z, y, - sin a * x + cos a * z).
Definition rotZ (a : R) (v : R * R * R) : R * R * R :=
  let '(x, y, z) := v in (cos a * x - sin a * y, sin a * x + cos a * y, z).

(** The translation of
    [Translation(x,y,z) * Rz(yaw) * Ry(pitch) * Rx(roll) * Translation(off)]. *)
Definition tipoff_translation (x y z roll pitch yaw : R) (off : R * R * R)
    : R * R * R :=
  let '(ox, oy, oz) := rotZ yaw (rotY pitch (rotX roll off)) in
  (x + ox, y + oy, z + oz).

Definition computePlanningFrameFK (L : ManipLattice) (state : RobotState)
    : outcome (option (list R)) :=
  if decide (length state = num_joints_) then
    match fk_iface with
    | None => Ret None
    | Some computePlanningLinkFK =>
      match computePlanningLinkFK state with
      | None => Ret None
      | Some (x, y, z, roll, pitch, yaw) =>
        let '(vx, vy, vz) :=
          tipoff_translation x y z roll pitch yaw (xyz_offset (m_goal L)) in
        Ret (Some [vx; vy; vz; roll; pitch; yaw])
      end
    end
  else Abort.

Definition getTargetOffsetPose (L : ManipLattice) (tip_pose : list R)
    : outcome (list R) :=
  x ← at_ tip_pose 0; y ← at_ tip_pose 1; z ← at_ tip_pose 2;
  roll ← at_ tip_pose 3; pitch ← at_ tip_pose 4; yaw ← at_ tip_pose 5;
  let '(vx, vy, vz) :=
    tipoff_translation x y z roll pitch yaw (xyz_offset (m_goal L)) in
  Ret [vx; vy; vz; roll; pitch; yaw].

Definition cost (HashEntry1 HashEntry2 : nat) (bState2IsGoal : bool) : Z :=
  cost_multiplier_.

(** *** The goal test *)

Definition quat : Type := R * R * R * R.

(** [Eigen::Quaterniond(Eigen::AngleAxisd(a, axis))] for the unit axes. *)
Definition quat_UnitX (a : R) : quat := (cos (0.5 * a), sin (0.5 * a), 0, 0).
Definition quat_UnitY (a : R) : quat := (cos (0.5 * a), 0, sin (0.5 * a), 0).
Definition quat_UnitZ (a : R) : quat := (cos (0.5 * a), 0, 0, sin (0.5 * a)).

Definition quat_mul (p q : quat) : quat :=
  let '(pw, px, py, pz) := p in
  let '(qw, qx, qy, qz) := q in
  (pw * qw - px * qx - py * qy - pz * qz,
   pw * qx + px * qw + py * qz - pz * qy,
   pw * qy - px * qz + py * qw + pz * qx,
   pw * qz + px * qy - py * qx + pz * qw).

Definition quat_dot (p q : quat) : R :=
  let '(pw, px, py, pz) := p in
  let '(qw, qx, qy, qz) := q in
  pw * qw + px * qx + py * qy + pz * qz.

(** [AngleAxisd(yaw, UnitZ) * AngleAxisd(pitch, UnitY) * AngleAxisd(roll, UnitX)]. *)
Definition quat_of_rpy (roll pitch yaw : R) : quat :=
  quat_mul (quat_mul (quat_UnitZ yaw) (quat_UnitY pitch)) (quat_UnitX roll).

(** The loop of the [JOINT_STATE_GOAL] case, over the indices of
    [m_goal.angles]. *)
Fixpoint isGoal_joints (state angles angle_tolerances : list R) : outcome bool :=
  match angles with
  | [] => Ret true
  | a :: angles' =>
    match state, angle_tolerances with
    | s :: state', t :: tols' =>
      if Rltb t (Rabs (s - a)) then Ret false
      else isGoal_joints state' angles' tols'
    | _, _ => Abort
    end
  end.

(** The test on the position, shared by the two pose cases. *)
Definition within_xyz_tolerance (g : GoalConstraint) (pose : list R) : outcome bool :=
  p0 ← at_ pose 0; t0 ← at_ (tgt_off_pose g) 0;
  p1 ← at_ pose 1; t1 ← at_ (tgt_off_pose g) 1;
  p2 ← at_ pose 2; t2 ← at_ (tgt_off_pose g) 2;
  let '(tolx, toly, tolz) := xyz_tolerance g in
  Ret (Rleb (Rabs (p0 - t0)) tolx && Rleb (Rabs (p1 - t1)) toly
        && Rleb (Rabs (p2 - t2)) tolz).

(** The angle [theta] of the [XYZ_RPY_GOAL] case. *)
Definition rotation_error (g : GoalConstraint) (pose : list R) : outcome R :=
  gy ← at_ (tgt_off_pose g) 5; gp ← at_ (tgt_off_pose g) 4;
  gr ← at_ (tgt_off_pose g) 3;
  y ← at_ pose 5; p ← at_ pose 4; r ← at_ pose 3;
  let qg := quat_of_rpy gr gp gy in
  let q := quat_of_rpy r p y in
  Ret (normalize_angle (2.0 * acos (quat_dot q qg))).

Definition isGoal (L : ManipLattice) (state : RobotState) (pose : list R)
    : outcome bool :=
  let g := m_goal L in
  match type g with
  | JOINT_STATE_GOAL => isGoal_joints state (angles g) (angle_tolerances g)
  | XYZ_RPY_GOAL =>
    near ← within_xyz_tolerance g pose;
    if (near : bool) then
      theta ← rotation_error g pose;
      Ret (Rltb theta (rpy_tolerance g).1.1)
    else Ret false
  | XYZ_GOAL => within_xyz_tolerance g pose
  | OTHER_GOAL_TYPE _ => Ret false
  end.

(** *** Validation of an action *)

(** The loop over the pairs of adjacent waypoints; [dist] is the distance
    last reported. *)
Fixpoint checkAction_waypoints (prev_istate : RobotState)
    (rest : list RobotState) (dist : R) : bool * R :=
  match rest with
  | [] => (true, dist)
  | curr_istate :: rest' =>
    let '(valid, d) := isStateToStateValid prev_istate curr_istate in
    if valid then checkAction_waypoints curr_istate rest' d
    else (false, d)
  end.

Definition checkAction (state : RobotState) (action : Action) : outcome (bool * R) :=
  if negb (forallb checkJointLimits action) then Ret (false, 0)
  else
    match action with
    | [] => Abort
    | first :: rest =>
      let '(valid, d) := isStateToStateValid state first in
      if negb valid then Ret (false, d)
      else Ret (checkAction_waypoints first rest d)
    end.

(** [action.back()]. *)
Definition action_back (action : Action) : outcome RobotState :=
  match list.last action with
  | Some w => Ret w
  | None => Abort
  end.

(** [m_states[id]] for a state ID. *)
Definition state_by_id (L : ManipLattice) (id : Z) : outcome ManipLatticeState :=
  if decide (0 ≤ id)%Z then entry_at L (Z.to_nat id) else Abort.

(** [m_grid->worldToGrid(pose[0], pose[1], pose[2], ...)]. *)
Definition pose_to_grid (pose : list R) : outcome (Z * Z * Z) :=
  x ← at_ pose 0; y ← at_ pose 1; z ← at_ pose 2;
  Ret (worldToGrid x y z).

(** *** Successors *)

(** The loop of [GetSuccs] over the actions.  [parent_state] is
    [parent_entry->state], which no statement of the loop changes. *)
Fixpoint GetSuccs_actions (parent_entry : nat) (parent_state : RobotState)
    (actions : list Action) (L : ManipLattice) (succs costs : list Z)
    : outcome (ManipLattice * list Z * list Z) :=
  match actions with
  | [] => Ret (L, succs, costs)
  | action :: rest =>
    '(valid, dist) ← checkAction parent_state action;
    if (valid : bool) then
      back ← action_back action;
      succ_coord ← anglesToCoord back;
      fk ← computePlanningFrameFK L back;
      match fk with
      | None => GetSuccs_actions parent_entry parent_state rest L succs costs
      | Some tgt_off_pose =>
        endeff ← pose_to_grid tgt_off_pose;
        let '(L1, succ_entry) :=
          getOrCreateState L succ_coord back dist endeff in
        is_goal_succ ← isGoal L1 back tgt_off_pose;
        goal_id ← goal_entry_stateID L1;
        succ ← entry_at L1 succ_entry;
        let id := if (is_goal_succ : bool) then goal_id else stateID succ in
        GetSuccs_actions parent_entry parent_state rest L1
          (succs ++ [id])
          (costs ++ [cost parent_entry succ_entry is_goal_succ])
      end
    else GetSuccs_actions parent_entry parent_state rest L succs costs
  end.

Definition GetSuccs (L : ManipLattice) (state_id : Z)
    : outcome (ManipLattice * list Z * list Z) :=
  if decide (0 ≤ state_id < Z.of_nat (length (m_states L)))%Z then
    match actionSpace with
    | None => Ret (L, [], [])
    | Some apply =>
      goal_id ← goal_entry_stateID L;
      if (state_id =? goal_id)%Z then Ret (L, [], [])
      else
        parent_entry ← state_by_id L state_id;
        if decide (num_joints_ ≤ length (coord parent_entry))%nat then
          match apply (state parent_entry) with
          | None => Ret (L, [], [])
          | Some actions =>
            '(L1, succs, costs) ←
              GetSuccs_actions (Z.to_nat state_id) (state parent_entry)
                actions L [] [];
            Ret (set_m_expanded_states (m_expanded_states L1 ++ [state_id]) L1,
                 succs, costs)
          end
        else Abort
    end
  else Abort.

(** The loop of [GetLazySuccs]. *)
Fixpoint GetLazySuccs_actions (state_entry : nat) (actions : list Action)
    (L : ManipLattice) (SuccIDV CostV : list Z) (isTrueCost : list bool)
    : outcome (ManipLattice * list Z * list Z * list bool) :=
  match actions with
  | [] => Ret (L, SuccIDV, CostV, isTrueCost)
  | action :: rest =>
    back ← action_back action;
    succ_coord ← anglesToCoord back;
    fk ← computePlanningFrameFK L back;
    match fk with
    | None => GetLazySuccs_actions state_entry rest L SuccIDV CostV isTrueCost
    | Some tgt_off_pose =>
      endeff ← pose_to_grid tgt_off_pose;
      succ_is_goal_state ← isGoal L back tgt_off_pose;
      let '(L1, succ_entry) := getOrCreateState L succ_coord back 0.0 endeff in
      goal_id ← goal_entry_stateID L1;
      succ ← entry_at L1 succ_entry;
      let id := if (succ_is_goal_state : bool) then goal_id else stateID succ in
      GetLazySuccs_actions state_entry rest L1
        (SuccIDV ++ [id])
        (CostV ++ [cost state_entry succ_entry succ_is_goal_state])
        (isTrueCost ++ [false])
    end
  end.

Definition GetLazySuccs (L : ManipLattice) (SourceStateID : Z)
    : outcome (ManipLattice * list Z * list Z * list bool) :=
  if decide (0 ≤ SourceStateID < Z.of_nat (length (m_states L)))%Z then
    match actionSpace with
    | None => Ret (L, [], [], [])
    | Some apply =>
      goal_id ← goal_entry_stateID L;
      if (SourceStateID =? goal_id)%Z then Ret (L, [], [], [])
      else
        state_entry ← state_by_id L SourceStateID;
        if decide (num_joints_ ≤ length (coord state_entry))%nat then
          match apply (state state_entry) with
          | None => Ret (L, [], [], [])
          | Some actions =>
            '(L1, SuccIDV, CostV, isTrueCost) ←
              GetLazySuccs_actions (Z.to_nat SourceStateID) actions L [] [] [];
            Ret (set_m_expanded_states
                   (m_expanded_states L1 ++ [SourceStateID]) L1,
                 SuccIDV, CostV, isTrueCost)
          end
        else Abort
    end
  else Abort.

(** *** The true cost of an edge *)

(** The loop of [GetTrueCost]; it returns [best_cost]. *)
Fixpoint GetTrueCost_actions (L : ManipLattice) (parent_entry : nat)
    (parent_angles : RobotState) (child_entry : nat)
    (child_coord : list Z) (goal_edge : bool) (actions : list Action)
    (best_cost : Z) : outcome Z :=
  match actions with
  | [] => Ret best_cost
  | action :: rest =>
    let continue_ :=
      GetTrueCost_actions L parent_entry parent_angles child_entry
        child_coord goal_edge rest in
    back ← action_back action;
    succ_coord ← anglesToCoord back;
    fk ← computePlanningFrameFK L back;
    match fk with
    | None => continue_ best_cost
    | Some tgt_off_pose =>
      leads_to_child ←
        (if goal_edge then isGoal L back tgt_off_pose
         else Ret (bool_decide (succ_coord = child_coord)));
      if (leads_to_child : bool) then
        '(valid, dist) ← checkAction parent_angles action;
        if (valid : bool) then
          match (if goal_edge then getHashEntry L succ_coord
                 else Some child_entry) with
          | None => Abort
          | Some succ_entry =>
            is_goal ← isGoal L back tgt_off_pose;
            let edge_cost := cost parent_entry succ_entry is_goal in
            continue_ (if (edge_cost <? best_cost)%Z then edge_cost
                       else best_cost)
          end
        else continue_ best_cost
      else continue_ best_cost
    end
  end.

Definition GetTrueCost (L : ManipLattice) (parentID childID : Z) : outcome Z :=
  if decide ((0 ≤ parentID < Z.of_nat (length (m_states L)))%Z
             ∧ (0 ≤ childID < Z.of_nat (length (m_states L)))%Z) then
    parent_entry ← state_by_id L parentID;
    child_entry ← state_by_id L childID;
    if decide ((num_joints_ ≤ length (coord parent_entry))%nat
               ∧ (num_joints_ ≤ length (coord child_entry))%nat) then
      match actionSpace with
      | None => Ret (-1)%Z
      | Some apply =>
        match apply (state parent_entry) with
        | None => Ret (-1)%Z
        | Some actions =>
          let goal_edge :=
            bool_decide (Some (Z.to_nat childID) = m_goal_entry L) in
          best_cost ←
            GetTrueCost_actions L (Z.to_nat parentID) (state parent_entry)
              (Z.to_nat childID) (coord child_entry) goal_edge actions INT_MAX;
          if (best_cost =? INT_MAX)%Z then Ret (-1)%Z else Ret best_cost
        end
      end
    else Abort
  else Abort.

(** *** Start and goal *)

Definition setStart (L : ManipLattice) (state : RobotState)
    : outcome (bool * ManipLattice) :=
  if decide (length state < num_joints_)%nat then Ret (false, L)
  else
    fk ← computePlanningFrameFK L state;
    match fk with
    | None => Ret (false, L)
    | Some pose =>
      if negb (checkJointLimits state) then Ret (false, L)
      else
        let '(valid, dist) := isStateValid state in
        if negb valid then Ret (false, L)
        else
          start_coord ← anglesToCoord state;
          endeff ← pose_to_grid pose;
          let '(L1, start_entry) :=
            getOrCreateState L start_coord state dist endeff in
          Ret (true, set_m_start_entry (Some start_entry) L1)
    end.

(** [m_goal_entry->coord[i] = 0] for [i < num_joints_]. *)
Definition zero_goal_coord (L : ManipLattice) : outcome ManipLattice :=
  match m_goal_entry L with
  | None => Abort
  | Some p =>
    e ← entry_at L p;
    if decide (num_joints_ ≤ length (coord e))%nat then
      Ret (set_m_states
             (<[p := set_coord (replicate num_joints_ 0%Z
                                  ++ drop num_joints_ (coord e)) e]>
                (m_states L)) L)
    else Abort
  end.

Definition setGoalPosition (L : ManipLattice)
    (goals offsets tolerances : list (list R)) : outcome (bool * ManipLattice) :=
  if decide (goals = []) then Ret (false, L)
  else if negb (forallb (fun goal => length goal =? 7)%nat goals)
  then Ret (false, L)
  else if negb (length offsets =? length goals)%nat then Ret (false, L)
  else if negb (forallb (fun offset => length offset =? 3)%nat offsets)
  then Ret (false, L)
  else if negb (length tolerances =? length goals)%nat then Ret (false, L)
  else if negb (forallb (fun tol => length tol =? 6)%nat tolerances)
  then Ret (false, L)
  else
    match goals, offsets, tolerances with
    | goal0 :: _, [o0; o1; o2] :: _, [t0; t1; t2; t3; t4; t5] :: _ =>
      flag ← at_ goal0 6;
      let g1 :=
        {| type := goal_type_of_int (double_to_int flag);
           pose := goal0;
           xyz_offset := (o0, o1, o2);
           xyz_tolerance := (t0, t1, t2);
           rpy_tolerance := (t3, t4, t5);
           tgt_off_pose := tgt_off_pose (m_goal L);
           goal_xyz := goal_xyz (m_goal L);
           angles := angles (m_goal L);
           angle_tolerances := angle_tolerances (m_goal L) |} in
      let L1 := set_m_goal g1 L in
      tgt ← getTargetOffsetPose L1 (pose g1);
      cell ← pose_to_grid tgt;
      let g2 :=
        {| type := type g1; pose := pose g1; xyz_offset := xyz_offset g1;
           xyz_tolerance := xyz_tolerance g1;
           rpy_tolerance := rpy_tolerance g1;
           tgt_off_pose := tgt; goal_xyz := cell;
           angles := angles g1; angle_tolerances := angle_tolerances g1 |} in
      L2 ← zero_goal_coord (set_m_goal g2 L1);
      Ret (true, L2)
    | _, _, _ => Abort
    end.

Definition setGoalConfiguration (L : ManipLattice)
    (goal goal_tolerances : list R) : outcome (bool * ManipLattice) :=
  fk ← computePlanningFrameFK L goal;
  match fk with
  | None => Ret (false, L)
  | Some pose_ =>
    let goals_6dof := [pose_] in
    let offsets_6dof := [replicate 3 0.0] in
    let tolerances_6dof := [replicate 6 0.05] in
    '(ok, L1) ← setGoalPosition L goals_6dof offsets_6dof tolerances_6dof;
    if negb ok then Ret (false, L1)
    else
      let g := m_goal L1 in
      Ret (true,
           set_m_goal
             {| type := JOINT_STATE_GOAL; pose := pose g;
                xyz_offset := xyz_offset g;
                xyz_tolerance := xyz_tolerance g;
                rpy_tolerance := rpy_tolerance g;
                tgt_off_pose := tgt_off_pose g; goal_xyz := goal_xyz g;
                angles := goal; angle_tolerances := goal_tolerances |} L1)
  end.

Definition setGoal (L : ManipLattice) (goal : GoalConstraint)
    : outcome (bool * ManipLattice) :=
  match type goal with
  | XYZ_GOAL | XYZ_RPY_GOAL =>
    let '(tx, ty, tz) := xyz_tolerance goal in
    let '(tr, tp, tw) := rpy_tolerance goal in
    setGoalPosition L [pose goal] [tgt_off_pose goal] [[tx; ty; tz; tr; tp; tw]]
  | JOINT_STATE_GOAL =>
    setGoalConfiguration L (angles goal) (angle_tolerances goal)
  | OTHER_GOAL_TYPE _ => Ret (false, L)
  end.

(** *** Path extraction *)

(** The loop over the actions that looks for the goal state of the
    cheapest valid action; it returns [best_goal_state]. *)
Fixpoint extractPath_actions (L : ManipLattice) (prev_entry : nat)
    (prev_state : RobotState) (actions : list Action)
    (best_goal_state : option nat) (best_cost : Z) : outcome (option nat) :=
  match actions with
  | [] => Ret best_goal_state
  | action :: rest =>
    let continue_ := extractPath_actions L prev_entry prev_state rest in
    back ← action_back action;
    fk ← computePlanningFrameFK L back;
    match fk with
    | None => continue_ best_goal_state best_cost
    | Some tgt_off_pose =>
      goal ← isGoal L back tgt_off_pose;
      if (goal : bool) then
        '(valid, dist) ← checkAction prev_state action;
        if (valid : bool) then
          succ_coord ← anglesToCoord back;
          match getHashEntry L succ_coord with
          | None => Abort
          | Some succ_entry =>
            let edge_cost := cost prev_entry succ_entry true in
            if (edge_cost <? best_cost)%Z
            then continue_ (Some succ_entry) edge_cost
            else continue_ best_goal_state best_cost
          end
        else continue_ best_goal_state best_cost
      else continue_ best_goal_state best_cost
    end
  end.

(** The loop over [idpath[1..]]; [None] is the early [return false]. *)
Fixpoint extractPath_rest (L : ManipLattice)
    (apply : RobotState → option (list Action)) (prev_id : Z)
    (ids : list Z) (opath : list RobotState)
    : outcome (option (list RobotState)) :=
  match ids with
  | [] => Ret (Some opath)
  | curr_id :: rest =>
    goal_id ← getGoalStateID L;
    if (prev_id =? goal_id)%Z then Ret None
    else if (curr_id =? goal_id)%Z then
      prev_entry ← state_by_id L prev_id;
      match apply (state prev_entry) with
      | None => Ret None
      | Some actions =>
        best ←
          extractPath_actions L (Z.to_nat prev_id) (state prev_entry)
            actions None INT_MAX;
        match best with
        | None => Ret None
        | Some best_goal_state =>
          e ← entry_at L best_goal_state;
          extractPath_rest L apply curr_id rest (opath ++ [state e])
        end
      end
    else
      a ← StateID2Angles L curr_id;
      match a with
      | None => Ret None
      | Some curr_state =>
        extractPath_rest L apply curr_id rest (opath ++ [curr_state])
      end
  end.

(** [extractPath] returns its boolean and the final content of the
    output parameter [path]. *)
Definition extractPath (L : ManipLattice) (idpath : list Z)
    (path : list RobotState) : outcome (bool * list RobotState) :=
  match idpath with
  | [] => Abort
  | [state_id] =>
    goal_id ← getGoalStateID L;
    id ← (if (state_id =? goal_id)%Z then getStartStateID L else Ret state_id);
    a ← StateID2Angles L id;
    match a with
    | None => Ret (false, path)
    | Some _ => Ret (true, path)
    end
  | id0 :: rest =>
    goal_id ← getGoalStateID L;
    if (id0 =? goal_id)%Z then Ret (false, path)
    else
      a ← StateID2Angles L id0;
      match a with
      | None => Ret (false, path)
      | Some angles0 =>
        match actionSpace with
        | None => Ret (false, path)
        | Some apply =>
          r ← extractPath_rest L apply id0 rest [angles0];
          match r with
          | None => Ret (false, path)
          | Some opath => Ret (true, opath)
          end
        end
      end
  end.

End Model.

(** ** Reachable lattices *)

(** One call of the public interface on a lattice.  [GetTrueCost] and
    [extractPath] write no member of the lattice. *)
Inductive step `{Collaborators} : ManipLattice → ManipLattice → Prop :=
  | step_setStart L q b L' :
      setStart L q = Ret (b, L') → step L L'
  | step_setGoal L goal b L' :
      setGoal L goal = Ret (b, L') → step L L'
  | step_setGoalPosition L goals offsets tolerances b L' :
      setGoalPosition L goals offsets tolerances = Ret (b, L') → step L L'
  | step_setGoalConfiguration L goal tolerances b L' :
      setGoalConfiguration L goal tolerances = Ret (b, L') → step L L'
  | step_GetSuccs L id L' succs costs :
      GetSuccs L id = Ret (L', succs, costs) → step L L'
  | step_GetLazySuccs L id L' succs costs flags :
      GetLazySuccs L id = Ret (L', succs, costs, flags) → step L L'
  | step_GetTrueCost L parentID childID c :
      GetTrueCost L parentID childID = Ret c → step L L
  | step_extractPath L idpath path r :
      extractPath L idpath path = Ret r → step L L.

Definition reachable `{Collaborators} (L : ManipLattice) : Prop :=
  rtc step ManipLattice_new L.

(** The invariant of the state table. *)
Record wf `{Collaborators} (L : ManipLattice) : Prop := {
  wf_goal_entry : m_goal_entry L = Some 0%nat;
  wf_goal_coord :
    ∃ e, m_states L !! 0%nat = Some e ∧ coord e = replicate num_joints_ 0%Z;
  wf_states : ∀ p e, m_states L !! p = Some e →
    stateID e = Z.of_nat p ∧ length (coord e) = num_joints_
    ∧ m_state_to_id L !! coord e = Some (p, Z.of_nat p);
  wf_table : ∀ c p id, m_state_to_id L !! c = Some (p, id) →
    ∃ e, m_states L !! p = Some e ∧ coord e = c;
  wf_start : ∀ p, m_start_entry L = Some p → (p < length (m_states L))%nat;
}.

(** ** Notions used by the statements *)

(** The distance the specification allows between a joint value [q] and
    the value [a] decoded from its coordinate: half the resolution of the
    joint, up to a multiple of [2π] for a continuous joint. *)
Definition within_half_bin `{Collaborators} (i : nat) (q a : R) : Prop :=
  if nth i m_continuous false
  then ∃ k : Z, Rabs (a - q - IZR k * (2 * PI)) <= nth i coord_delta_ 0 / 2
  else Rabs (a - q) <= nth i coord_delta_ 0 / 2.

(** [L'] extends [L]: same goal, the entries of [L] kept in place and
    the bindings of the table kept. *)
Definition extends (L L' : ManipLattice) : Prop :=
  m_goal L' = m_goal L
  ∧ m_goal_entry L' = m_goal_entry L
  ∧ (∃ l, m_states L' = m_states L ++ l)
  ∧ (∀ c v, m_state_to_id L !! c = Some v → m_state_to_id L' !! c = Some v).

(** Every entry of [L] is an entry of [L'] with the same ID,
    configuration and distance. *)
Definition keeps_entries (L L' : ManipLattice) : Prop :=
  ∀ p e, m_states L !! p = Some e →
    ∃ e', m_states L' !! p = Some e' ∧ stateID e' = stateID e
          ∧ state e' = state e ∧ dist e' = dist e.

(** What an output edge [id] of an expansion is: the successor of an
    action of the source that passed [checkAction] and whose destination
    has a planning frame pose; it is the ID of the goal entry when the
    destination meets the goal, the ID of the entry of the coordinate of
    the destination otherwise. *)
Definition succ_edge `{Collaborators} (L L' : ManipLattice)
    (parent_state : RobotState) (actions : list Action) (id : Z) : Prop :=
  ∃ action dist back c pose is_goal goal_id p e,
    action ∈ actions
    ∧ checkAction parent_state action = Ret (true, dist)
    ∧ action_back action = Ret back
    ∧ anglesToCoord back = Ret c
    ∧ computePlanningFrameFK L back = Ret (Some pose)
    ∧ isGoal L back pose = Ret is_goal
    ∧ getGoalStateID L' = Ret goal_id
    ∧ getHashEntry L' c = Some p
    ∧ m_states L' !! p = Some e
    ∧ coord e = c
    ∧ if (is_goal : bool)
      then id = goal_id
           ∧ (c ≠ replicate num_joints_ 0%Z → stateID e ≠ goal_id)
      else id = stateID e.

(** The rotation error in the words of the specification:
    [normalize(2·acos(|q·q_goal|))], with the absolute value of the dot
    product of the two quaternions. *)
Definition rotation_error_spec (g : GoalConstraint) (pose : list R) : outcome R :=
  gy ← at_ (tgt_off_pose g) 5; gp ← at_ (tgt_off_pose g) 4;
  gr ← at_ (tgt_off_pose g) 3;
  y ← at_ pose 5; p ← at_ pose 4; r ← at_ pose 3;
  Ret (normalize_angle
         (2 * acos (Rabs (quat_dot (quat_of_rpy r p y) (quat_of_rpy gr gp gy))))).

(** The actions enumerated from a configuration: none when the action
    space is absent or fails. *)
Definition enumerated_actions `{Collaborators} (q : RobotState) : list Action :=
  match actionSpace with
  | Some apply => default [] (apply q)
  | None => []
  end.

(** An action from [parent_angles] that counts for an edge, in the words
    of the specification: its last waypoint meets the goal when the child
    is the goal entry ([goal_edge]) and has the coordinate of the child
    otherwise, and the action passes [checkAction]. *)
Definition qualifies_spec `{Collaborators} (L : ManipLattice)
    (parent_angles : RobotState) (goal_edge : bool) (child_coord : list Z)
    (action : Action) : Prop :=
  ∃ back dist,
    action_back action = Ret back
    ∧ (if goal_edge
       then ∃ tip, computePlanningFrameFK L back = Ret (Some tip)
                   ∧ isGoal L back tip = Ret true
       else anglesToCoord back = Ret child_coord)
    ∧ checkAction parent_angles action = Ret (true, dist).

(** An action that counts for an edge in the code: the planning frame
    pose of its last waypoint is computed whatever the child is. *)
Definition qualifies `{Collaborators} (L : ManipLattice)
    (parent_angles : RobotState) (goal_edge : bool) (child_coord : list Z)
    (action : Action) : Prop :=
  ∃ back tip dist,
    action_back action = Ret back
    ∧ computePlanningFrameFK L back = Ret (Some tip)
    ∧ (if goal_edge then isGoal L back tip = Ret true
       else anglesToCoord back = Ret child_coord)
    ∧ checkAction parent_angles action = Ret (true, dist).

(** [v] is the least cost of an action of [actions] that satisfies [Q],
    and [-1] when there is none. *)
Definition least_cost_or_minus_one (Q : Action → Prop)
    (actions : list Action) (edge_cost : Action → Z) (v : Z) : Prop :=
  (∃ a, a ∈ actions ∧ Q a ∧ v = edge_cost a
        ∧ ∀ a', a' ∈ actions → Q a' → (v ≤ edge_cost a')%Z)
  ∨ ((∀ a, a ∈ actions → ¬ Q a) ∧ v = (-1)%Z).

(** The sentence of the specification on [GetTrueCost], for a parent and a
    child of the lattice. *)
Definition GetTrueCost_as_specified `{Collaborators} (L : ManipLattice)
    (parentID childID : Z) : Prop :=
  ∀ parent child,
    state_by_id L parentID = Ret parent →
    state_by_id L childID = Ret child →
    ∃ v, GetTrueCost L parentID childID = Ret v
         ∧ least_cost_or_minus_one
             (qualifies_spec L (state parent)
                (bool_decide (Some (Z.to_nat childID) = m_goal_entry L))
                (coord child))
             (enumerated_actions (state parent))
             (λ _, cost (Z.to_nat parentID) (Z.to_nat childID)
                     (bool_decide (Some (Z.to_nat childID) = m_goal_entry L)))
             v.

(** The sentence of the specification on a goal entry in a path: the
    configuration emitted at its position is the last waypoint of an
    action of the previous state that meets the goal and passes
    [checkAction] (every such action has the least cost, the cost of an
    edge being the same for all). *)
Definition extractPath_goal_as_specified `{Collaborators} (L : ManipLattice)
    (idpath : list Z) : Prop :=
  ∀ path0 path goal_id i prev_id prev,
    extractPath L idpath path0 = Ret (true, path) →
    getGoalStateID L = Ret goal_id →
    idpath !! S i = Some goal_id →
    idpath !! i = Some prev_id →
    state_by_id L prev_id = Ret prev →
    ∃ action back,
      action ∈ enumerated_actions (state prev)
      ∧ qualifies L (state prev) true [] action
      ∧ action_back action = Ret back
      ∧ path !! S i = Some back.

(** What [extractPath] emits for a goal entry that follows the state
    [prev_id]: the configuration stored in the entry [e] of the coordinate
    of the last waypoint of the first action of [prev_id] that meets the
    goal and passes [checkAction]. *)
Definition goal_successor `{Collaborators} (L : ManipLattice) (prev_id : Z)
    (e : ManipLatticeState) : Prop :=
  ∃ prev before action after back c p,
    state_by_id L prev_id = Ret prev
    ∧ enumerated_actions (state prev) = before ++ action :: after
    ∧ (∀ a, a ∈ before → ¬ qualifies L (state prev) true [] a)
    ∧ qualifies L (state prev) true [] action
    ∧ action_back action = Ret back
    ∧ anglesToCoord back = Ret c
    ∧ getHashEntry L c = Some p
    ∧ m_states L !! p = Some e.

(** The inputs on which [setStart] answers [false], as the
    specification lists them. *)
Definition setStart_refuses `{Collaborators} (q : RobotState) : Prop :=
  (length q < num_joints_)%nat
  ∨ fk_iface = None
  ∨ (∃ fk, fk_iface = Some fk ∧ fk q = None)
  ∨ checkJointLimits q = false
  ∨ (isStateValid q).1 = false.

(** What [setStart] does on the other inputs, as the specification says
    it: the coordinate and the grid cell of the tip are computed, the state
    of that coordinate is obtained or inserted with the joint values, the
    distance of the collision checker and the cell, and it becomes the
    start. *)
Definition setStart_accepts `{Collaborators} (L : ManipLattice)
    (q : RobotState) : Prop :=
  ∃ tip c cell d L1 p,
    computePlanningFrameFK L q = Ret (Some tip)
    ∧ anglesToCoord q = Ret c
    ∧ pose_to_grid tip = Ret cell
    ∧ isStateValid q = (true, d)
    ∧ getOrCreateState L c q d cell = (L1, p)
    ∧ setStart L q = Ret (true, set_m_start_entry (Some p) L1)
    ∧ getHashEntry L1 c = Some p
    ∧ (getHashEntry L c = None →
       m_states L1 = m_states L ++
         [{| stateID := Z.of_nat (length (m_states L)); coord := c;
             state := q; dist := d; xyz := cell |}]).

(** ** Further operations of the lattice *)

(** [getHashEntry(int state_id)], the entry of a state ID; [None] is
    [nullptr]. *)
Definition getHashEntry_id (L : ManipLattice) (state_id : Z)
    : option ManipLatticeState :=
  if decide (state_id < 0 ∨ Z.of_nat (length (m_states L)) ≤ state_id)%Z
  then None
  else m_states L !! Z.to_nat state_id.

Definition getGoal (L : ManipLattice) : list R := pose (m_goal L).

Definition getGoalConstraints (L : ManipLattice) : GoalConstraint := m_goal L.

Definition getGoalConfiguration (L : ManipLattice) : list R :=
  angles (m_goal L).

Definition getStartConfiguration (L : ManipLattice) : outcome RobotState :=
  match m_start_entry L with
  | Some p =>
    match m_states L !! p with
    | Some e => Ret (state e)
    | None => Abort
    end
  | None => Ret []
  end.

(** [getActionCost].  The parameter [max_mprim_offset_] and the function
    [angles::shortest_angle_dist] are fixed by headers that are not among
    the sources; the normalised copy of [from_config] that the function
    fills before it returns is read by nothing.  The quotient by
    [max_mprim_offset_] is the one of the real numbers, so the statements
    on the function take the offset different from zero. *)
Section ActionCost.
Context `{Collaborators}.
Variable max_mprim_offset_ : R.
Variable shortest_angle_dist : R → R → R.

(** The loop over the joints; it returns [max_diff]. *)
Fixpoint getActionCost_joints (from_config to_config : list R)
    (joints : list nat) (max_diff : R) : outcome R :=
  match joints with
  | [] => Ret max_diff
  | i :: rest =>
    if decide (i = 4%nat)
    then getActionCost_joints from_config to_config rest max_diff
    else
      f ← at_ from_config i;
      t ← at_ to_config i;
      let diff := shortest_angle_dist f t in
      getActionCost_joints from_config to_config rest
        (if Rlt_dec max_diff diff then diff else max_diff)
  end.

Definition getActionCost (from_config to_config : list R) (dist : Z)
    : outcome Z :=
  if decide (length from_config ≠ length to_config) then Ret (-1)%Z
  else
    max_diff ← getActionCost_joints from_config to_config (seq 0 6) 0;
    let num_prims := double_to_int (max_diff / max_mprim_offset_ + 0.5) in
    Ret (num_prims * cost_multiplier_)%Z.

End ActionCost.


(** ** Notions used by the further statements *)

(** The pairs of adjacent configurations on the way from [state] through
    the waypoints of [action]. *)
Definition action_segments (state : RobotState) (action : Action)
    : list (RobotState * RobotState) :=
  zip (state :: action) action.

(** The segment passes the collision checker. *)
Definition segment_valid `{Collaborators} (seg : RobotState * RobotState)
    : Prop :=
  (isStateToStateValid seg.1 seg.2).1 = true.




(** The format that [setGoalPosition] asks of its arguments. *)
Definition goal_format_ok (goals offsets tolerances : list (list R)) : Prop :=
  goals ≠ []
  ∧ Forall (λ goal, length goal = 7%nat) goals
  ∧ length offsets = length goals
  ∧ Forall (λ offset, length offset = 3%nat) offsets
  ∧ length tolerances = length goals
  ∧ Forall (λ tol, length tol = 6%nat) tolerances.


(** What the goal test reads of the stored goal: [isGoal] indexes
    [tgt_off_pose] at 0 to 2 for a position goal and at 0 to 5 for a pose
    goal, and the configuration and the tolerances at every index of
    [angles] for a joint goal. *)
Definition goal_test_ready `{Collaborators} (g : GoalConstraint) : Prop :=
  match type g with
  | XYZ_GOAL => (3 ≤ length (tgt_off_pose g))%nat
  | XYZ_RPY_GOAL => (6 ≤ length (tgt_off_pose g))%nat
  | JOINT_STATE_GOAL =>
    (length (angles g) ≤ num_joints_)%nat
    ∧ (length (angles g) ≤ length (angle_tolerances g))%nat
  | OTHER_GOAL_TYPE _ => True
  end.


(** ** A lattice with one joint

    One joint with the limits [-1] and [3] and the resolution [1].  The
    forward kinematics puts the tip at the joint value on the x axis and
    fails from [5/4] on; the action space offers one action of one
    waypoint: [1] from a source below [1/2], the lower limit [-1] from a
    source below [1], [13/10] from the others. *)
Module Example.

#[local] Instance collaborators : Collaborators := {|
  num_joints_ := 1;
  coord_delta_ := [1];
  coord_vals_ := [4%Z];
  cost_multiplier_ := 1000;
  minPosLimit := λ _, -1;
  maxPosLimit := λ _, 3;
  hasPosLimit := λ _, true;
  checkJointLimits := λ _, true;
  fk_iface := Some (λ q,
    match q with
    | x :: _ => if Rlt_dec x (5 / 4) then Some (x, 0, 0, 0, 0, 0) else None
    | [] => None
    end);
  isStateValid := λ _, (true, 1 / 2);
  isStateToStateValid := λ _ _, (true, 1 / 4);
  worldToGrid := λ _ _ _, (0%Z, 0%Z, 0%Z);
  actionSpace := Some (λ q,
    match q with
    | x :: _ =>
      if Rlt_dec x (1 / 2) then Some [[[1]]]
      else if Rlt_dec x 1 then Some [[[-1]]]
      else Some [[[13 / 10]]]
    | [] => None
    end);
  goal_type_of_int := λ i,
    match i with
    | 0%Z => XYZ_GOAL
    | 1%Z => XYZ_RPY_GOAL
    | 2%Z => JOINT_STATE_GOAL
    | _ => OTHER_GOAL_TYPE i
    end;
  initial_goal :=
    {| type := OTHER_GOAL_TYPE (-1); pose := []; xyz_offset := (0, 0, 0);
       xyz_tolerance := (0, 0, 0); rpy_tolerance := (0, 0, 0);
       tgt_off_pose := []; goal_xyz := (0%Z, 0%Z, 0%Z); angles := [];
       angle_tolerances := [] |};
|}.

Definition goal_entry : ManipLatticeState :=
  {| stateID := 0; coord := [0%Z]; state := []; dist := 0;
     xyz := (0%Z, 0%Z, 0%Z) |}.

(** The state of a configuration [q] created by [setStart]. *)
Definition entry (id : Z) (c : Z) (q d : R) : ManipLatticeState :=
  {| stateID := id; coord := [c]; state := [q]; dist := d;
     xyz := (0%Z, 0%Z, 0%Z) |}.

(** The lattice after [setStart [0]]. *)
Definition start_only : ManipLattice :=
  {| m_goal := initial_goal; m_goal_entry := Some 0%nat;
     m_start_entry := Some 1%nat;
     m_state_to_id :=
       <[ [1%Z] := (1%nat, 1%Z) ]> (<[ [0%Z] := (0%nat, 0%Z) ]> ∅);
     m_states := [goal_entry; entry 1 1 0 (1 / 2)];
     m_expanded_states := [] |}.

(** The lattice after [setStart [6/5]]. *)
Definition one_state : ManipLattice :=
  {| m_goal := initial_goal; m_goal_entry := Some 0%nat;
     m_start_entry := Some 1%nat;
     m_state_to_id :=
       <[ [2%Z] := (1%nat, 1%Z) ]> (<[ [0%Z] := (0%nat, 0%Z) ]> ∅);
     m_states := [goal_entry; entry 1 2 (6 / 5) (1 / 2)];
     m_expanded_states := [] |}.

(** The lattice after [setStart [6/5]] and [setStart [0]]. *)
Definition two_states : ManipLattice :=
  {| m_goal := initial_goal; m_goal_entry := Some 0%nat;
     m_start_entry := Some 2%nat;
     m_state_to_id :=
       <[ [1%Z] := (2%nat, 2%Z) ]>
         (<[ [2%Z] := (1%nat, 1%Z) ]> (<[ [0%Z] := (0%nat, 0%Z) ]> ∅));
     m_states := [goal_entry; entry 1 2 (6 / 5) (1 / 2); entry 2 1 0 (1 / 2)];
     m_expanded_states := [] |}.

(** A position goal at [x = 1] with the tolerance [1/10], as [setGoal]
    takes it: the offset of the tip travels in [tgt_off_pose]. *)
Definition position_goal : GoalConstraint :=
  {| type := XYZ_GOAL; pose := [1; 0; 0; 0; 0; 0; 0];
     xyz_offset := (0, 0, 0);
     xyz_tolerance := (1 / 10, 1 / 10, 1 / 10);
     rpy_tolerance := (1 / 10, 1 / 10, 1 / 10);
     tgt_off_pose := [0; 0; 0]; goal_xyz := (0%Z, 0%Z, 0%Z); angles := [];
     angle_tolerances := [] |}.

(** The goal that [setGoal] stores for [position_goal]. *)
Definition stored_goal : GoalConstraint :=
  {| type := XYZ_GOAL; pose := [1; 0; 0; 0; 0; 0; 0];
     xyz_offset := (0, 0, 0);
     xyz_tolerance := (1 / 10, 1 / 10, 1 / 10);
     rpy_tolerance := (1 / 10, 1 / 10, 1 / 10);
     tgt_off_pose := [1; 0; 0; 0; 0; 0]; goal_xyz := (0%Z, 0%Z, 0%Z);
     angles := []; angle_tolerances := [] |}.

(** [two_states] with the position goal set. *)
Definition with_goal : ManipLattice := set_m_goal stored_goal two_states.

(** [start_only] after [GetLazySuccs] on the start: the state of the
    destination [1] of the action is created. *)
Definition lazily_expanded : ManipLattice :=
  {| m_goal := initial_goal; m_goal_entry := Some 0%nat;
     m_start_entry := Some 1%nat;
     m_state_to_id :=
       <[ [2%Z] := (2%nat, 2%Z) ]>
         (<[ [1%Z] := (1%nat, 1%Z) ]> (<[ [0%Z] := (0%nat, 0%Z) ]> ∅));
     m_states := [goal_entry; entry 1 1 0 (1 / 2); entry 2 2 1 0.0];
     m_expanded_states := [1%Z] |}.

(** The lattice after [setStart [3/4]] and the position goal: the one
    action of the start ends at the lower limit of the joint, whose
    coordinate is the all-zero one. *)
Definition near_limit : ManipLattice :=
  {| m_goal := stored_goal; m_goal_entry := Some 0%nat;
     m_start_entry := Some 1%nat;
     m_state_to_id :=
       <[ [2%Z] := (1%nat, 1%Z) ]> (<[ [0%Z] := (0%nat, 0%Z) ]> ∅);
     m_states := [goal_entry; entry 1 2 (3 / 4) (1 / 2)];
     m_expanded_states := [] |}.

(** A joint goal at the configuration [0]. *)
Definition joint_goal : GoalConstraint :=
  {| type := JOINT_STATE_GOAL; pose := []; xyz_offset := (0, 0, 0);
     xyz_tolerance := (0, 0, 0); rpy_tolerance := (0, 0, 0);
     tgt_off_pose := []; goal_xyz := (0%Z, 0%Z, 0%Z); angles := [0];
     angle_tolerances := [1 / 100] |}.

(** A pose goal at the origin with the yaw [π], position tolerance
    [1/10] and rotation tolerance [0.05], as [setGoal] takes it and as it
    stores it. *)
Definition pose_goal : GoalConstraint :=
  {| type := XYZ_RPY_GOAL; pose := [0; 0; 0; 0; 0; PI; 1];
     xyz_offset := (0, 0, 0);
     xyz_tolerance := (1 / 10, 1 / 10, 1 / 10);
     rpy_tolerance := (0.05, 0.05, 0.05);
     tgt_off_pose := [0; 0; 0]; goal_xyz := (0%Z, 0%Z, 0%Z); angles := [];
     angle_tolerances := [] |}.

Definition stored_pose_goal : GoalConstraint :=
  {| type := XYZ_RPY_GOAL; pose := [0; 0; 0; 0; 0; PI; 1];
     xyz_offset := (0, 0, 0);
     xyz_tolerance := (1 / 10, 1 / 10, 1 / 10);
     rpy_tolerance := (0.05, 0.05, 0.05);
     tgt_off_pose := [0; 0; 0; 0; 0; PI]; goal_xyz := (0%Z, 0%Z, 0%Z);
     angles := []; angle_tolerances := [] |}.

(** The new lattice with the pose goal set. *)
Definition with_pose_goal : ManipLattice :=
  set_m_goal stored_pose_goal ManipLattice_new.

(** A tip at the origin with the yaw [-π/2], a quarter turn away from
    the goal. *)
Definition quarter_turn_pose : list R := [0; 0; 0; 0; 0; - (PI / 2)].

(** The lattice after [setStart [0]] and the position goal: the one
    action of the start ends at [1], which meets the goal, and no state of
    the coordinate of [1] has been created. *)
Definition start_with_goal : ManipLattice := set_m_goal stored_goal start_only.


End Example.

(** ** A lattice with two joints

    The first joint has the limits [-1] and [3] and the resolution [1];
    the second is continuous with the resolution [π/4] and 8 bins. *)
Module TwoJoints.

#[local] Instance collaborators : Collaborators := {|
  num_joints_ := 2;
  coord_delta_ := [1; PI / 4];
  coord_vals_ := [4%Z; 8%Z];
  cost_multiplier_ := 1000;
  minPosLimit := λ _, -1;
  maxPosLimit := λ _, 3;
  hasPosLimit := λ i, bool_decide (i = 0%nat);
  checkJointLimits := λ _, true;
  fk_iface := None;
  isStateValid := λ _, (true, 0);
  isStateToStateValid := λ _ _, (true, 0);
  worldToGrid := λ _ _ _, (0%Z, 0%Z, 0%Z);
  actionSpace := None;
  goal_type_of_int := λ i, OTHER_GOAL_TYPE i;
  initial_goal := initial_goal (Collaborators := Example.collaborators);
|}.

End TwoJoints.

(** ** A lattice whose cost multiplier is the largest [int]

    The lattice with one joint, with [INT_MAX] for the cost multiplier. *)
Module Sentinel.

#[local] Instance collaborators : Collaborators := {|
  num_joints_ := 1;
  coord_delta_ := [1];
  coord_vals_ := [4%Z];
  cost_multiplier_ := INT_MAX;
  minPosLimit := λ _, -1;
  maxPosLimit := λ _, 3;
  hasPosLimit := λ _, true;
  checkJointLimits := λ _, true;
  fk_iface := fk_iface (Collaborators := Example.collaborators);
  isStateValid := λ _, (true, 1 / 2);
  isStateToStateValid := λ _ _, (true, 1 / 4);
  worldToGrid := λ _ _ _, (0%Z, 0%Z, 0%Z);
  actionSpace := actionSpace (Collaborators := Example.collaborators);
  goal_type_of_int := goal_type_of_int (Collaborators := Example.collaborators);
  initial_goal := initial_goal (Collaborators := Example.collaborators);
|}.

End Sentinel.

(** * Properties *)

Section Properties.
Context `{Collaborators}.

Lemma outcome_bind_Ret {A B} (f : A → outcome B) (m : outcome A) (b : B) :
  m ≫= f = Ret b ↔ ∃ a, m = Ret a ∧ f a = Ret b.
Proof.
  destruct m as [a|]; simpl; split.
  - intros Hf. exists a. split; [reflexivity | exact Hf].
  - intros (a' & Ha & Hf). injection Ha as ->. exact Hf.
  - intros Hf. discriminate Hf.
  - intros (a' & Ha & _). discriminate Ha.
Qed.

Lemma Rdiv_nonneg a b : 0 <= a → 0 < b → 0 <= a / b.
Proof. intros Ha Hb. unfold Rdiv. by apply Rle_mult_inv_pos. Qed.

Lemma double_to_int_nonneg x :
  0 <= x → IZR (double_to_int x) <= x < IZR (double_to_int x) + 1.
Proof.
  intros Hx. unfold double_to_int.
  destruct (Rle_dec 0 x) as [_|Hn]; [|contradiction].
  destruct (base_Int_part x) as [H1 H2]. lra.
Qed.

Lemma double_to_int_eq x (z : Z) :
  0 <= IZR z → IZR z <= x < IZR z + 1 → double_to_int x = z.
Proof.
  intros Hz Hx. unfold double_to_int.
  destruct (Rle_dec 0 x) as [_|Hn]; [|lra].
  symmetry. apply Int_part_spec. lra.
Qed.

Lemma normalize_angle_positive_range a :
  0 <= normalize_angle_positive a < 2 * PI.
Proof.
  unfold normalize_angle_positive.
  pose proof PI_RGT_0 as Hpi.
  destruct (base_Int_part (a / (2 * PI))) as [H1 H2].
  assert (Ha : a = a / (2 * PI) * (2 * PI)) by (field; lra).
  set (k := IZR (Int_part (a / (2 * PI)))) in *.
  set (x := a / (2 * PI)) in *.
  rewrite Ha. split; nra.
Qed.

(** ** Coordinate encoding *)

Lemma m_continuous_nth i :
  (i < num_joints_)%nat → nth i m_continuous false = negb (hasPosLimit i).
Proof.
  intros Hi. unfold m_continuous.
  rewrite nth_lookup, list_lookup_fmap, lookup_seq_lt by done. reflexivity.
Qed.

Lemma m_min_limits_nth i :
  (i < num_joints_)%nat → nth i m_min_limits 0 = minPosLimit i.
Proof.
  intros Hi. unfold m_min_limits.
  rewrite nth_lookup, list_lookup_fmap, lookup_seq_lt by done. reflexivity.
Qed.

Lemma joint_roundtrip_limited i q :
  nth i m_continuous false = false →
  0 < nth i coord_delta_ 0 →
  nth i m_min_limits 0 <= q →
  Rabs (coordToAngles_joint i (anglesToCoord_joint i q) - q)
  <= nth i coord_delta_ 0 / 2.
Proof.
  intros Hc Hd Hq.
  unfold coordToAngles_joint, anglesToCoord_joint. rewrite Hc.
  set (d := nth i coord_delta_ 0) in *.
  set (lo := nth i m_min_limits 0) in *.
  assert (Hx : 0 <= (q - lo) / d + 0.5).
  { assert (0 <= (q - lo) / d) by (apply Rdiv_nonneg; lra). lra. }
  destruct (double_to_int_nonneg _ Hx) as [H1 H2].
  set (c := IZR (double_to_int ((q - lo) / d + 0.5))) in *.
  assert (Hq' : q - lo = (q - lo) / d * d) by (field; lra).
  set (x := (q - lo) / d) in *.
  apply Rabs_le. split; nra.
Qed.

Lemma joint_roundtrip_continuous i q :
  nth i m_continuous false = true →
  0 < nth i coord_delta_ 0 →
  IZR (nth i coord_vals_ 0%Z) * nth i coord_delta_ 0 = 2 * PI →
  ∃ k : Z,
    Rabs (coordToAngles_joint i (anglesToCoord_joint i q) - q
          - IZR k * (2 * PI))
    <= nth i coord_delta_ 0 / 2.
Proof.
  intros Hc Hd Hv.
  unfold coordToAngles_joint, anglesToCoord_joint. rewrite Hc.
  set (d := nth i coord_delta_ 0) in *.
  set (n := nth i coord_vals_ 0%Z) in *.
  destruct (normalize_angle_positive_range q) as [Hp0 Hp1].
  assert (Hq : q = normalize_angle_positive q
                   + 2 * PI * IZR (Int_part (q / (2 * PI)))).
  { unfold normalize_angle_positive. lra. }
  set (pos := normalize_angle_positive q) in *.
  set (k0 := Int_part (q / (2 * PI))) in *.
  assert (Hx : 0 <= (pos + d * 0.5) / d).
  { apply Rdiv_nonneg; nra. }
  destruct (double_to_int_nonneg _ Hx) as [H1 H2].
  assert (Hx' : (pos + d * 0.5) / d * d = pos + d * 0.5) by (field; lra).
  set (x := (pos + d * 0.5) / d) in *.
  destruct (Z.eqb_spec (double_to_int x) n) as [He|Hne].
  - exists (- (k0 + 1))%Z. rewrite opp_IZR, plus_IZR.
    rewrite He in H1, H2.
    apply Rabs_le. split; nra.
  - exists (- k0)%Z. rewrite opp_IZR.
    set (c := IZR (double_to_int x)) in *.
    apply Rabs_le. split; nra.
Qed.

(** The round trip over the real numbers.  With the arithmetic of the two
    functions read without rounding, decoding the coordinate of a joint
    configuration that respects the limits of its non-continuous joints
    gives back every joint value up to half the resolution of the joint,
    modulo [2π] for a continuous joint.  The resolutions are positive and
    a continuous joint has [2π / Δ] bins.  The bound is met with equality
    at the edge of a bin, where the rounding of the doubles decides on
    which side a value falls: the statement is one about the exact
    arithmetic, not about the doubles. *)
Lemma coordToAngles_anglesToCoord (q : list R) :
  length q = num_joints_ →
  (∀ i, (i < num_joints_)%nat → 0 < nth i coord_delta_ 0) →
  (∀ i, (i < num_joints_)%nat → hasPosLimit i = false →
        IZR (nth i coord_vals_ 0%Z) * nth i coord_delta_ 0 = 2 * PI) →
  (∀ i qi, q !! i = Some qi → hasPosLimit i = true →
           minPosLimit i <= qi <= maxPosLimit i) →
  ∃ c, anglesToCoord q = Ret c
       ∧ length (coordToAngles c) = num_joints_
       ∧ ∀ i qi, q !! i = Some qi →
           ∃ ai, coordToAngles c !! i = Some ai ∧ within_half_bin i qi ai.
Proof.
  intros Hlen Hdelta Hvals Hlim.
  exists (imap anglesToCoord_joint q). split; [|split].
  - unfold anglesToCoord. destruct (decide (length q = num_joints_)); done.
  - unfold coordToAngles. by rewrite !length_imap.
  - intros i qi Hqi.
    assert (Hi : (i < num_joints_)%nat).
    { rewrite <- Hlen. by eapply lookup_lt_Some. }
    exists (coordToAngles_joint i (anglesToCoord_joint i qi)). split.
    + unfold coordToAngles. rewrite !list_lookup_imap, Hqi. reflexivity.
    + unfold within_half_bin.
      destruct (nth i m_continuous false) eqn:Hc.
      * rewrite m_continuous_nth in Hc by done.
        apply joint_roundtrip_continuous; [by rewrite m_continuous_nth | auto |].
        apply Hvals; [done|]. by destruct (hasPosLimit i).
      * rewrite m_continuous_nth in Hc by done.
        apply joint_roundtrip_limited; [by rewrite m_continuous_nth | auto |].
        rewrite m_min_limits_nth by done.
        apply (Hlim i qi Hqi). by destruct (hasPosLimit i).
Qed.

(** ** The state table *)

Lemma extends_refl L : extends L L.
Proof.
  repeat split; try done. exists []. by rewrite app_nil_r.
Qed.

Lemma extends_trans L1 L2 L3 : extends L1 L2 → extends L2 L3 → extends L1 L3.
Proof.
  intros (Hg & He & [l Hl] & Ht) (Hg' & He' & [l' Hl'] & Ht').
  repeat split.
  - congruence.
  - congruence.
  - exists (l ++ l'). by rewrite Hl', Hl, app_assoc.
  - auto.
Qed.

Lemma extends_lookup L L' p e :
  extends L L' → m_states L !! p = Some e → m_states L' !! p = Some e.
Proof.
  intros (_ & _ & [l Hl] & _) Hp. rewrite Hl. by apply lookup_app_l_Some.
Qed.

Lemma extends_getHashEntry L L' c p :
  extends L L' → getHashEntry L c = Some p → getHashEntry L' c = Some p.
Proof.
  intros (_ & _ & _ & Ht). unfold getHashEntry.
  destruct (m_state_to_id L !! c) as [v|] eqn:Hc; [|done].
  intros Hp. by rewrite (Ht _ _ Hc).
Qed.

Lemma keeps_entries_refl L : keeps_entries L L.
Proof. intros p e Hp. by exists e. Qed.

Lemma keeps_entries_trans L1 L2 L3 :
  keeps_entries L1 L2 → keeps_entries L2 L3 → keeps_entries L1 L3.
Proof.
  intros H12 H23 p e Hp.
  destruct (H12 _ _ Hp) as (e2 & Hp2 & Hi2 & Hs2 & Hd2).
  destruct (H23 _ _ Hp2) as (e3 & Hp3 & Hi3 & Hs3 & Hd3).
  exists e3. repeat split; congruence.
Qed.

Lemma anglesToCoord_length q c :
  anglesToCoord q = Ret c → length c = num_joints_ ∧ length q = num_joints_.
Proof.
  unfold anglesToCoord. destruct (decide (length q = num_joints_)); [|done].
  intros [= <-]. by rewrite length_imap.
Qed.

Lemma createHashEntry_wf L c s d cell L' p :
  wf L → length c = num_joints_ → m_state_to_id L !! c = None →
  createHashEntry L c s d cell = (L', p) →
  wf L' ∧ extends L L' ∧ p = length (m_states L)
  ∧ m_states L' = m_states L ++
      [{| stateID := Z.of_nat p; coord := c; state := s; dist := d;
          xyz := cell |}]
  ∧ getHashEntry L' c = Some p
  ∧ m_start_entry L' = m_start_entry L
  ∧ m_expanded_states L' = m_expanded_states L.
Proof.
  intros Hwf Hlen Hnone. unfold createHashEntry, hash_assign.
  rewrite Hnone. intros [= <- <-].
  split; [|repeat split; simpl; try done].
  - destruct Hwf as [Hge [e0 [He0 Hc0]] Hst Htb Hs]. split; simpl.
    + done.
    + exists e0. split; [by apply lookup_app_l_Some | done].
    + intros p e Hp. apply lookup_app_Some in Hp as [Hp|[Hge' Hp]].
      * destruct (Hst _ _ Hp) as (Hid & Hl & Hm). repeat split; try done.
        rewrite lookup_insert_ne; [done|]. intros ->. congruence.
      * apply list_lookup_singleton_Some in Hp as [Hp <-]. simpl.
        assert (p = length (m_states L)) as -> by lia.
        repeat split; try done. by rewrite lookup_insert_eq.
    + intros c' p id Hc'. destruct (decide (c = c')) as [<-|Hne].
      * rewrite lookup_insert_eq in Hc'. injection Hc' as <- <-.
        eexists. split.
        { rewrite lookup_app_r by done. by rewrite Nat.sub_diag. }
        reflexivity.
      * rewrite lookup_insert_ne in Hc' by done.
        destruct (Htb _ _ _ Hc') as (e & He & Hce).
        exists e. split; [by apply lookup_app_l_Some | done].
    + intros p Hp. rewrite length_app. specialize (Hs _ Hp). simpl. lia.
  - by eexists.
  - intros c' v Hc'. rewrite lookup_insert_ne; [done|]. intros ->. congruence.
  - unfold getHashEntry. simpl. by rewrite lookup_insert_eq.
Qed.

Lemma getOrCreateState_wf L c s d cell L' p :
  wf L → length c = num_joints_ →
  getOrCreateState L c s d cell = (L', p) →
  wf L' ∧ extends L L'
  ∧ getHashEntry L' c = Some p
  ∧ (∃ e, m_states L' !! p = Some e ∧ coord e = c ∧ stateID e = Z.of_nat p)
  ∧ m_start_entry L' = m_start_entry L
  ∧ m_expanded_states L' = m_expanded_states L.
Proof.
  intros Hwf Hlen. unfold getOrCreateState.
  destruct (getHashEntry L c) as [q|] eqn:Hq.
  - intros [= <- <-]. split_and!; try done; [apply extends_refl|].
    unfold getHashEntry in Hq.
    destruct (m_state_to_id L !! c) as [[q' id]|] eqn:Hc; [|done].
    simpl in Hq. injection Hq as ->.
    destruct (wf_table L Hwf _ _ _ Hc) as (e & He & Hce).
    exists e. split_and!; try done. by apply (wf_states L Hwf).
  - intros Hcr.
    assert (Hnone : m_state_to_id L !! c = None).
    { unfold getHashEntry in Hq.
      by destruct (m_state_to_id L !! c). }
    destruct (createHashEntry_wf _ _ _ _ _ _ _ Hwf Hlen Hnone Hcr)
      as (Hwf' & Hext & -> & Hst & Hget & Hs & Hx).
    split_and!; try done.
    eexists. split; [|split].
    + rewrite Hst. rewrite lookup_app_r by done. by rewrite Nat.sub_diag.
    + done.
    + done.
Qed.

(** ** Invariants of the lattice *)

Lemma computePlanningFrameFK_goal L L' q :
  m_goal L' = m_goal L →
  computePlanningFrameFK L' q = computePlanningFrameFK L q.
Proof. intros Hg. unfold computePlanningFrameFK. by rewrite Hg. Qed.

Lemma isGoal_goal L L' q pose :
  m_goal L' = m_goal L → isGoal L' q pose = isGoal L q pose.
Proof. intros Hg. unfold isGoal. by rewrite Hg. Qed.

Lemma wf_goal_id L :
  wf L → goal_entry_stateID L = Ret 0%Z ∧ getGoalStateID L = Ret 0%Z.
Proof.
  intros Hwf. destruct (wf_goal_coord L Hwf) as (e & He & _).
  destruct (wf_states L Hwf _ _ He) as (Hid & _).
  unfold goal_entry_stateID, getGoalStateID, entry_at.
  rewrite (wf_goal_entry L Hwf), He. simpl. by rewrite Hid.
Qed.

Lemma wf_new : wf ManipLattice_new.
Proof.
  unfold ManipLattice_new, createHashEntry, hash_assign. simpl.
  rewrite lookup_empty. split; simpl.
  - done.
  - by eexists.
  - intros p e Hp. apply list_lookup_singleton_Some in Hp as [-> <-]. simpl.
    split_and!; [done | by rewrite length_replicate | by rewrite lookup_insert_eq].
  - intros c p id Hc. apply lookup_insert_Some in Hc as [[<- [= <- <-]]|[_ Hc]].
    + by eexists.
    + by rewrite lookup_empty in Hc.
  - done.
Qed.

Lemma wf_zero_coord_entry L c :
  wf L → getHashEntry L c = Some 0%nat → c = replicate num_joints_ 0%Z.
Proof.
  intros Hwf Hc. unfold getHashEntry in Hc.
  destruct (m_state_to_id L !! c) as [[p id]|] eqn:Hm; [|done].
  simpl in Hc. injection Hc as ->.
  destruct (wf_table L Hwf _ _ _ Hm) as (e' & He' & <-).
  destruct (wf_goal_coord L Hwf) as (e0 & He0 & Hc0). congruence.
Qed.

(** ** Successor generation *)

Lemma succ_edge_weaken L0 L1 L' ps action rest id :
  m_goal L1 = m_goal L0 →
  succ_edge L1 L' ps rest id → succ_edge L0 L' ps (action :: rest) id.
Proof.
  intros Hg (a & d & back & c & pose_ & ig & g & p & e & Hin & Hrest).
  exists a, d, back, c, pose_, ig, g, p, e.
  rewrite <- (computePlanningFrameFK_goal _ _ _ Hg), <- (isGoal_goal _ _ _ _ Hg).
  split; [by apply list_elem_of_further | exact Hrest].
Qed.

Lemma entry_at_Ret L p e : entry_at L p = Ret e ↔ m_states L !! p = Some e.
Proof.
  unfold entry_at. destruct (m_states L !! p); split; intros Heq;
    try discriminate Heq; congruence.
Qed.

Lemma GetSuccs_actions_spec pe ps actions :
  ∀ L succs costs L' succs' costs',
  wf L →
  GetSuccs_actions pe ps actions L succs costs = Ret (L', succs', costs') →
  wf L' ∧ extends L L'
  ∧ m_start_entry L' = m_start_entry L
  ∧ m_expanded_states L' = m_expanded_states L
  ∧ ∃ new, succs' = succs ++ new
           ∧ length costs' = (length costs + length new)%nat
           ∧ Forall (succ_edge L L' ps actions) new.
Proof.
  induction actions as [|action rest IH];
    intros L succs costs L' succs' costs' Hwf Hrun.
  - simpl in Hrun. injection Hrun as <- <- <-.
    split_and!; try done; [apply extends_refl|].
    exists []. by rewrite app_nil_r, Nat.add_0_r.
  - assert (Hskip :
      GetSuccs_actions pe ps rest L succs costs = Ret (L', succs', costs') →
      wf L' ∧ extends L L'
      ∧ m_start_entry L' = m_start_entry L
      ∧ m_expanded_states L' = m_expanded_states L
      ∧ ∃ new, succs' = succs ++ new
               ∧ length costs' = (length costs + length new)%nat
               ∧ Forall (succ_edge L L' ps (action :: rest)) new).
    { intros Hrest.
      destruct (IH _ _ _ _ _ _ Hwf Hrest) as (Hw & Hx & Hs & He & new & -> & Hl & Hall).
      split_and!; try done. exists new. split_and!; try done.
      eapply Forall_impl; [exact Hall|].
      intros id Hid. by eapply succ_edge_weaken. }
    simpl in Hrun.
    apply outcome_bind_Ret in Hrun as ([valid d] & Hchk & Hrun).
    destruct valid; [|by apply Hskip].
    apply outcome_bind_Ret in Hrun as (back & Hback & Hrun).
    apply outcome_bind_Ret in Hrun as (c & Hc & Hrun).
    apply outcome_bind_Ret in Hrun as (fk & Hfk & Hrun).
    destruct fk as [tgt|]; [|by apply Hskip].
    apply outcome_bind_Ret in Hrun as (endeff & Hcell & Hrun).
    destruct (getOrCreateState L c back d endeff) as [L1 p] eqn:Hgoc.
    apply outcome_bind_Ret in Hrun as (ig & Hig & Hrun).
    apply outcome_bind_Ret in Hrun as (g & Hg & Hrun).
    apply outcome_bind_Ret in Hrun as (succ & Hsucc & Hrun).
    destruct (anglesToCoord_length _ _ Hc) as [Hclen _].
    destruct (getOrCreateState_wf _ _ _ _ _ _ _ Hwf Hclen Hgoc)
      as (Hwf1 & Hext1 & Hget1 & (e1 & He1 & Hce1 & Hie1) & Hs1 & Hx1).
    destruct (IH _ _ _ _ _ _ Hwf1 Hrun)
      as (Hw & Hx & Hs & He & new & -> & Hl & Hall).
    split_and!; try done.
    + by eapply extends_trans.
    + congruence.
    + congruence.
    + exists ((if ig then g else stateID succ) :: new). split_and!.
      * by rewrite <- app_assoc.
      * rewrite Hl, length_app. simpl. lia.
      * apply entry_at_Ret in Hsucc. assert (succ = e1) as -> by congruence.
        destruct (wf_goal_id _ Hwf1) as [Hg1 _]. rewrite Hg1 in Hg.
        injection Hg as <-.
        destruct (wf_goal_id _ Hw) as [_ Hg'].
        destruct Hext1 as (Hgoal1 & Hrest1).
        constructor.
        -- exists action, d, back, c, tgt, ig, 0%Z, p, e1. split_and!; try done.
           ++ apply list_elem_of_here.
           ++ by rewrite <- (isGoal_goal _ _ _ _ Hgoal1).
           ++ by eapply extends_getHashEntry.
           ++ by eapply extends_lookup.
           ++ destruct ig; [|done]. split; [done|].
              intros Hnz Hid. apply Hnz. rewrite Hie1 in Hid.
              assert (p = 0%nat) as -> by lia.
              exact (wf_zero_coord_entry L1 c Hwf1 Hget1).
        -- eapply Forall_impl; [exact Hall|].
           intros id Hid. by eapply succ_edge_weaken.
Qed.

Lemma GetLazySuccs_actions_spec se actions :
  ∀ L ids costs flags L' ids' costs' flags',
  wf L →
  GetLazySuccs_actions se actions L ids costs flags
    = Ret (L', ids', costs', flags') →
  wf L' ∧ extends L L'
  ∧ m_start_entry L' = m_start_entry L
  ∧ m_expanded_states L' = m_expanded_states L.
Proof.
  induction actions as [|action rest IH];
    intros L ids costs flags L' ids' costs' flags' Hwf Hrun.
  - simpl in Hrun. injection Hrun as <- <- <- <-.
    split_and!; try done. apply extends_refl.
  - simpl in Hrun.
    apply outcome_bind_Ret in Hrun as (back & Hback & Hrun).
    apply outcome_bind_Ret in Hrun as (c & Hc & Hrun).
    apply outcome_bind_Ret in Hrun as (fk & Hfk & Hrun).
    destruct fk as [tgt|]; [|by eapply IH].
    apply outcome_bind_Ret in Hrun as (endeff & Hcell & Hrun).
    apply outcome_bind_Ret in Hrun as (ig & Hig & Hrun).
    destruct (getOrCreateState L c back 0.0 endeff) as [L1 p] eqn:Hgoc.
    apply outcome_bind_Ret in Hrun as (g & Hg & Hrun).
    apply outcome_bind_Ret in Hrun as (succ & Hsucc & Hrun).
    destruct (anglesToCoord_length _ _ Hc) as [Hclen _].
    destruct (getOrCreateState_wf _ _ _ _ _ _ _ Hwf Hclen Hgoc)
      as (Hwf1 & Hext1 & Hget1 & _ & Hs1 & Hx1).
    destruct (IH _ _ _ _ _ _ _ _ Hwf1 Hrun) as (Hw & Hx & Hs & He).
    split_and!; try done; [by eapply extends_trans | congruence | congruence].
Qed.

Lemma wf_set_m_expanded_states L l : wf L → wf (set_m_expanded_states l L).
Proof. intros [? ? ? ? ?]. by split. Qed.

Lemma wf_set_m_goal L g : wf L → wf (set_m_goal g L).
Proof. intros [? ? ? ? ?]. by split. Qed.

Lemma zero_goal_coord_wf L : wf L → zero_goal_coord L = Ret L.
Proof.
  intros Hwf. unfold zero_goal_coord.
  rewrite (wf_goal_entry L Hwf).
  destruct (wf_goal_coord L Hwf) as (e & He & Hc).
  unfold entry_at. rewrite He. simpl.
  destruct (decide (num_joints_ ≤ length (coord e))%nat) as [_|Hn].
  - assert (Hsame : set_coord (replicate num_joints_ 0%Z
                               ++ drop num_joints_ (coord e)) e = e).
    { rewrite Hc. rewrite drop_ge by (by rewrite length_replicate).
      rewrite app_nil_r, <- Hc. by destruct e. }
    rewrite Hsame, (list_insert_id _ _ _ He). by destruct L.
  - rewrite Hc, length_replicate in Hn. lia.
Qed.

Lemma setGoalPosition_wf L goals offsets tolerances b L' :
  wf L → setGoalPosition L goals offsets tolerances = Ret (b, L') →
  wf L' ∧ m_states L' = m_states L.
Proof.
  intros Hwf. unfold setGoalPosition.
  repeat (case_match; [intros [= <- <-]; done|]).
  repeat (case_match; try done).
  intros Hrun.
  apply outcome_bind_Ret in Hrun as (flag & Hflag & Hrun).
  apply outcome_bind_Ret in Hrun as (tgt & Htgt & Hrun).
  apply outcome_bind_Ret in Hrun as (cell & Hcell & Hrun).
  apply outcome_bind_Ret in Hrun as (L2 & Hz & Hrun).
  injection Hrun as <- <-.
  rewrite zero_goal_coord_wf in Hz by (by do 2 apply wf_set_m_goal).
  injection Hz as <-.
  split; [|done]. by do 2 apply wf_set_m_goal.
Qed.

Lemma setGoalConfiguration_wf L goal tolerances b L' :
  wf L → setGoalConfiguration L goal tolerances = Ret (b, L') →
  wf L' ∧ m_states L' = m_states L.
Proof.
  intros Hwf. unfold setGoalConfiguration. intros Hrun.
  apply outcome_bind_Ret in Hrun as (fk & Hfk & Hrun).
  destruct fk as [pose_|]; [|by injection Hrun as <- <-].
  apply outcome_bind_Ret in Hrun as ([ok L1] & Hpos & Hrun).
  destruct (setGoalPosition_wf _ _ _ _ _ _ Hwf Hpos) as [Hwf1 Hst1].
  destruct ok; simpl in Hrun; injection Hrun as <- <-; [|done].
  split; [by apply wf_set_m_goal | done].
Qed.

Lemma setGoal_wf L goal b L' :
  wf L → setGoal L goal = Ret (b, L') → wf L' ∧ m_states L' = m_states L.
Proof.
  intros Hwf. unfold setGoal.
  destruct (type goal).
  - destruct (xyz_tolerance goal) as [[? ?] ?], (rpy_tolerance goal) as [[? ?] ?].
    by apply setGoalPosition_wf.
  - destruct (xyz_tolerance goal) as [[? ?] ?], (rpy_tolerance goal) as [[? ?] ?].
    by apply setGoalPosition_wf.
  - by apply setGoalConfiguration_wf.
  - by intros [= <- <-].
Qed.

Lemma setStart_wf L q b L' :
  wf L → setStart L q = Ret (b, L') → wf L' ∧ extends L L'.
Proof.
  intros Hwf. unfold setStart.
  assert (Hsame : wf L ∧ extends L L) by (split; [done | apply extends_refl]).
  destruct (decide (length q < num_joints_)%nat); [by intros [= <- <-]|].
  intros Hrun.
  apply outcome_bind_Ret in Hrun as (fk & Hfk & Hrun).
  destruct fk as [pose_|]; [|by injection Hrun as <- <-].
  destruct (checkJointLimits q); simpl in Hrun; [|by injection Hrun as <- <-].
  destruct (isStateValid q) as [valid d].
  destruct valid; simpl in Hrun; [|by injection Hrun as <- <-].
  apply outcome_bind_Ret in Hrun as (c & Hc & Hrun).
  apply outcome_bind_Ret in Hrun as (cell & Hcell & Hrun).
  destruct (getOrCreateState L c q d cell) as [L1 p] eqn:Hgoc.
  injection Hrun as <- <-.
  destruct (anglesToCoord_length _ _ Hc) as [Hclen _].
  destruct (getOrCreateState_wf _ _ _ _ _ _ _ Hwf Hclen Hgoc)
    as (Hwf1 & Hext1 & Hget1 & (e & He & _) & Hs1 & Hx1).
  split; [|exact Hext1].
  destruct Hwf1 as [? ? ? ? ?]. split; try done.
  simpl. intros p' [= <-]. by eapply lookup_lt_Some.
Qed.

Lemma GetSuccs_wf L id L' succs costs :
  wf L → GetSuccs L id = Ret (L', succs, costs) → wf L' ∧ extends L L'.
Proof.
  intros Hwf. unfold GetSuccs.
  assert (Hsame : wf L ∧ extends L L) by (split; [done | apply extends_refl]).
  destruct (decide _); [|done].
  destruct actionSpace as [apply|]; [|by intros [= <- <- <-]].
  intros Hrun.
  apply outcome_bind_Ret in Hrun as (g & Hg & Hrun).
  destruct (id =? g)%Z; [by injection Hrun as <- <- <-|].
  apply outcome_bind_Ret in Hrun as (parent & Hparent & Hrun).
  destruct (decide _); [|done].
  destruct (apply (state parent)) as [actions|]; [|by injection Hrun as <- <- <-].
  apply outcome_bind_Ret in Hrun as ([[L1 s1] c1] & Hloop & Hrun).
  injection Hrun as <- <- <-.
  destruct (GetSuccs_actions_spec _ _ _ _ _ _ _ _ _ Hwf Hloop)
    as (Hwf1 & Hext1 & _).
  split; [by apply wf_set_m_expanded_states | exact Hext1].
Qed.

Lemma GetLazySuccs_wf L id L' succs costs flags :
  wf L → GetLazySuccs L id = Ret (L', succs, costs, flags) →
  wf L' ∧ extends L L'.
Proof.
  intros Hwf. unfold GetLazySuccs.
  assert (Hsame : wf L ∧ extends L L) by (split; [done | apply extends_refl]).
  destruct (decide _); [|done].
  destruct actionSpace as [apply|]; [|by intros [= <- <- <- <-]].
  intros Hrun.
  apply outcome_bind_Ret in Hrun as (g & Hg & Hrun).
  destruct (id =? g)%Z; [by injection Hrun as <- <- <- <-|].
  apply outcome_bind_Ret in Hrun as (parent & Hparent & Hrun).
  destruct (decide _); [|done].
  destruct (apply (state parent)) as [actions|];
    [|by injection Hrun as <- <- <- <-].
  apply outcome_bind_Ret in Hrun as ([[[L1 s1] c1] f1] & Hloop & Hrun).
  injection Hrun as <- <- <- <-.
  destruct (GetLazySuccs_actions_spec _ _ _ _ _ _ _ _ _ _ Hwf Hloop)
    as (Hwf1 & Hext1 & _).
  split; [by apply wf_set_m_expanded_states | exact Hext1].
Qed.

Lemma step_wf L L' : step L L' → wf L → wf L'.
Proof.
  intros Hstep Hwf. destruct Hstep as
    [L q b L' Hr | L goal b L' Hr | L g o t b L' Hr | L g t b L' Hr
    | L id L' s c Hr | L id L' s c f Hr | L p ch c Hr | L ids path r Hr].
  - by destruct (setStart_wf _ _ _ _ Hwf Hr).
  - by destruct (setGoal_wf _ _ _ _ Hwf Hr).
  - by destruct (setGoalPosition_wf _ _ _ _ _ _ Hwf Hr).
  - by destruct (setGoalConfiguration_wf _ _ _ _ _ Hwf Hr).
  - by destruct (GetSuccs_wf _ _ _ _ _ Hwf Hr).
  - by destruct (GetLazySuccs_wf _ _ _ _ _ _ Hwf Hr).
  - done.
  - done.
Qed.

Lemma reachable_wf L : reachable L → wf L.
Proof.
  unfold reachable. intros Hreach.
  eapply (rtc_ind_r (λ L, wf L) ManipLattice_new); [apply wf_new | | exact Hreach].
  intros L2 L3 _ Hstep IH. by eapply step_wf.
Qed.

(** C9.  The reserved goal entry is absorbing: expanding its state ID
    yields no successor and no cost, and leaves the lattice as it is. *)
Theorem GetSuccs_goal_absorbing L :
  reachable L →
  ∃ goal_id, getGoalStateID L = Ret goal_id
             ∧ GetSuccs L goal_id = Ret (L, [], []).
Proof.
  intros Hreach. pose proof (reachable_wf _ Hreach) as Hwf.
  destruct (wf_goal_id _ Hwf) as [Hg Hg'].
  exists 0%Z. split; [done|].
  destruct (wf_goal_coord L Hwf) as (e & He & _).
  apply lookup_lt_Some in He.
  unfold GetSuccs. destruct (decide _) as [_|Hn]; [|lia].
  destruct actionSpace; [|done]. by rewrite Hg.
Qed.

(** C8 (as the code has it).  In every reachable lattice the all-zero
    coordinate is bound in the coordinate table, and it is bound to the
    reserved goal entry: the constructor makes that entry with
    [createHashEntry], which registers it like any other state. *)
Theorem goal_entry_in_table L :
  reachable L →
  ∃ p, m_goal_entry L = Some p
       ∧ getHashEntry L (replicate num_joints_ 0%Z) = Some p.
Proof.
  intros Hreach. pose proof (reachable_wf _ Hreach) as Hwf.
  exists 0%nat. split; [apply (wf_goal_entry L Hwf)|].
  destruct (wf_goal_coord L Hwf) as (e & He & Hc).
  destruct (wf_states L Hwf _ _ He) as (_ & _ & Ht).
  unfold getHashEntry. by rewrite <- Hc, Ht.
Qed.

Lemma succ_edge_expanded L L1 ps actions l id :
  succ_edge L L1 ps actions id →
  succ_edge L (set_m_expanded_states l L1) ps actions id.
Proof. intros Hedge. exact Hedge. Qed.

(** X1.  The edges of [GetSuccs].  Every edge that [GetSuccs] reports
    comes from an action of the source configuration that passed
    [checkAction]; when the destination of the action meets the goal the
    reported ID is the ID of the reserved goal entry, which differs from
    the ID of the state of that coordinate unless the coordinate is the
    all-zero one of the goal entry itself; when the destination does not
    meet the goal the reported ID is the ID of the state of its
    coordinate. *)
Lemma GetSuccs_edges L id L' succs costs :
  reachable L →
  GetSuccs L id = Ret (L', succs, costs) →
  length costs = length succs
  ∧ ∀ k s, succs !! k = Some s →
      ∃ parent apply actions,
        state_by_id L id = Ret parent
        ∧ actionSpace = Some apply
        ∧ apply (state parent) = Some actions
        ∧ succ_edge L L' (state parent) actions s.
Proof.
  intros Hreach. pose proof (reachable_wf _ Hreach) as Hwf.
  unfold GetSuccs.
  destruct (decide _); [|done].
  destruct actionSpace as [apply|] eqn:Has; [|by intros [= <- <- <-]].
  intros Hrun.
  apply outcome_bind_Ret in Hrun as (g & Hg & Hrun).
  destruct (id =? g)%Z; [by injection Hrun as <- <- <-|].
  apply outcome_bind_Ret in Hrun as (parent & Hparent & Hrun).
  destruct (decide _); [|done].
  destruct (apply (state parent)) as [actions|] eqn:Hap;
    [|by injection Hrun as <- <- <-].
  apply outcome_bind_Ret in Hrun as ([[L1 s1] c1] & Hloop & Hrun).
  injection Hrun as <- <- <-.
  destruct (GetSuccs_actions_spec _ _ _ _ _ _ _ _ _ Hwf Hloop)
    as (_ & _ & _ & _ & new & Hnew & Hlen & Hall).
  simpl in Hnew, Hlen. subst s1. split; [done|].
  intros k s Hk. exists parent, apply, actions. split_and!; try done.
  apply succ_edge_expanded.
  rewrite Forall_forall in Hall. apply Hall.
  by eapply list_elem_of_lookup_2.
Qed.

(** ** Distances cached in the entries *)

Lemma getOrCreateState_states L c s d cell L1 p :
  getOrCreateState L c s d cell = (L1, p) →
  ∃ l, m_states L1 = m_states L ++ l ∧ Forall (λ e, dist e = d) l.
Proof.
  unfold getOrCreateState, createHashEntry.
  destruct (getHashEntry L c).
  - intros [= <- <-]. exists []. by rewrite app_nil_r.
  - intros [= <- <-]. simpl. eexists. split; [done|].
    by repeat constructor.
Qed.

Lemma GetSuccs_actions_states pe ps actions :
  ∀ L succs costs L' succs' costs',
  GetSuccs_actions pe ps actions L succs costs = Ret (L', succs', costs') →
  ∃ l, m_states L' = m_states L ++ l.
Proof.
  induction actions as [|action rest IH];
    intros L succs costs L' succs' costs' Hrun.
  - simpl in Hrun. injection Hrun as <- <- <-. exists []. by rewrite app_nil_r.
  - simpl in Hrun.
    apply outcome_bind_Ret in Hrun as ([valid d] & Hchk & Hrun).
    destruct valid; [|by eapply IH].
    apply outcome_bind_Ret in Hrun as (back & Hback & Hrun).
    apply outcome_bind_Ret in Hrun as (c & Hc & Hrun).
    apply outcome_bind_Ret in Hrun as (fk & Hfk & Hrun).
    destruct fk as [tgt|]; [|by eapply IH].
    apply outcome_bind_Ret in Hrun as (endeff & Hcell & Hrun).
    destruct (getOrCreateState L c back d endeff) as [L1 p] eqn:Hgoc.
    apply outcome_bind_Ret in Hrun as (ig & Hig & Hrun).
    apply outcome_bind_Ret in Hrun as (g & Hg & Hrun).
    apply outcome_bind_Ret in Hrun as (succ & Hsucc & Hrun).
    destruct (getOrCreateState_states _ _ _ _ _ _ _ Hgoc) as (l1 & Hl1 & _).
    destruct (IH _ _ _ _ _ _ Hrun) as (l & Hl).
    exists (l1 ++ l). by rewrite Hl, Hl1, app_assoc.
Qed.

Lemma GetLazySuccs_actions_states se actions :
  ∀ L ids costs flags L' ids' costs' flags',
  GetLazySuccs_actions se actions L ids costs flags
    = Ret (L', ids', costs', flags') →
  ∃ l, m_states L' = m_states L ++ l ∧ Forall (λ e, dist e = 0) l.
Proof.
  induction actions as [|action rest IH];
    intros L ids costs flags L' ids' costs' flags' Hrun.
  - simpl in Hrun. injection Hrun as <- <- <- <-.
    exists []. by rewrite app_nil_r.
  - simpl in Hrun.
    apply outcome_bind_Ret in Hrun as (back & Hback & Hrun).
    apply outcome_bind_Ret in Hrun as (c & Hc & Hrun).
    apply outcome_bind_Ret in Hrun as (fk & Hfk & Hrun).
    destruct fk as [tgt|]; [|by eapply IH].
    apply outcome_bind_Ret in Hrun as (endeff & Hcell & Hrun).
    apply outcome_bind_Ret in Hrun as (ig & Hig & Hrun).
    destruct (getOrCreateState L c back 0.0 endeff) as [L1 p] eqn:Hgoc.
    apply outcome_bind_Ret in Hrun as (g & Hg & Hrun).
    apply outcome_bind_Ret in Hrun as (succ & Hsucc & Hrun).
    destruct (getOrCreateState_states _ _ _ _ _ _ _ Hgoc) as (l1 & Hl1 & Hd1).
    destruct (IH _ _ _ _ _ _ _ _ Hrun) as (l & Hl & Hd).
    exists (l1 ++ l). split; [by rewrite Hl, Hl1, app_assoc|].
    apply Forall_app. split; [|done].
    eapply Forall_impl; [exact Hd1|]. intros e ->. lra.
Qed.

Lemma keeps_entries_app L L' l :
  m_states L' = m_states L ++ l → keeps_entries L L'.
Proof.
  intros Hl p e Hp. exists e. split; [|done].
  rewrite Hl. by apply lookup_app_l_Some.
Qed.

Lemma setGoalPosition_keeps L goals offsets tolerances b L' :
  setGoalPosition L goals offsets tolerances = Ret (b, L') →
  keeps_entries L L'.
Proof.
  unfold setGoalPosition.
  repeat (case_match; [intros [= <- <-]; apply keeps_entries_refl|]).
  repeat (case_match; try done).
  intros Hrun.
  apply outcome_bind_Ret in Hrun as (flag & Hflag & Hrun).
  apply outcome_bind_Ret in Hrun as (tgt & Htgt & Hrun).
  apply outcome_bind_Ret in Hrun as (cell & Hcell & Hrun).
  apply outcome_bind_Ret in Hrun as (L2 & Hz & Hrun).
  injection Hrun as <- <-.
  unfold zero_goal_coord in Hz. simpl in Hz.
  destruct (m_goal_entry L) as [g|]; [|done].
  apply outcome_bind_Ret in Hz as (e & He & Hz).
  destruct (decide (num_joints_ ≤ length (coord e))%nat); [|done].
  injection Hz as <-.
  apply entry_at_Ret in He. simpl in He.
  intros p e' Hp. simpl. destruct (decide (p = g)) as [->|Hne].
  - assert (e' = e) as -> by congruence.
    eexists. split.
    { apply list_lookup_insert_eq. by eapply lookup_lt_Some. }
    done.
  - exists e'. split; [|done].
    rewrite list_lookup_insert_ne; [done | congruence].
Qed.

Lemma setGoalConfiguration_keeps L goal tolerances b L' :
  setGoalConfiguration L goal tolerances = Ret (b, L') → keeps_entries L L'.
Proof.
  unfold setGoalConfiguration. intros Hrun.
  apply outcome_bind_Ret in Hrun as (fk & Hfk & Hrun).
  destruct fk as [pose_|];
    [|injection Hrun as <- <-; apply keeps_entries_refl].
  apply outcome_bind_Ret in Hrun as ([ok L1] & Hpos & Hrun).
  apply setGoalPosition_keeps in Hpos.
  by destruct ok; simpl in Hrun; injection Hrun as <- <-.
Qed.

Lemma step_keeps_entries L L' : step L L' → keeps_entries L L'.
Proof.
  intros Hstep. destruct Hstep as
    [L q b L' Hr | L goal b L' Hr | L g o t b L' Hr | L g t b L' Hr
    | L id L' s c Hr | L id L' s c f Hr | L p ch c Hr | L ids path r Hr].
  - unfold setStart in Hr.
    destruct (decide _); [injection Hr as <- <-; apply keeps_entries_refl|].
    apply outcome_bind_Ret in Hr as (fk & Hfk & Hr).
    destruct fk as [pose_|]; [|injection Hr as <- <-; apply keeps_entries_refl].
    destruct (checkJointLimits q); simpl in Hr;
      [|injection Hr as <- <-; apply keeps_entries_refl].
    destruct (isStateValid q) as [valid d].
    destruct valid; simpl in Hr;
      [|injection Hr as <- <-; apply keeps_entries_refl].
    apply outcome_bind_Ret in Hr as (c & Hc & Hr).
    apply outcome_bind_Ret in Hr as (cell & Hcell & Hr).
    destruct (getOrCreateState L c q d cell) as [L1 p] eqn:Hgoc.
    injection Hr as <- <-.
    destruct (getOrCreateState_states _ _ _ _ _ _ _ Hgoc) as (nl & Hl & _).
    by eapply keeps_entries_app.
  - unfold setGoal in Hr. destruct (type goal).
    + destruct (xyz_tolerance goal) as [[? ?] ?], (rpy_tolerance goal) as [[? ?] ?].
      by eapply setGoalPosition_keeps.
    + destruct (xyz_tolerance goal) as [[? ?] ?], (rpy_tolerance goal) as [[? ?] ?].
      by eapply setGoalPosition_keeps.
    + by eapply setGoalConfiguration_keeps.
    + injection Hr as <- <-. apply keeps_entries_refl.
  - by eapply setGoalPosition_keeps.
  - by eapply setGoalConfiguration_keeps.
  - unfold GetSuccs in Hr.
    destruct (decide _); [|done].
    destruct actionSpace as [apply|];
      [|injection Hr as <- <- <-; apply keeps_entries_refl].
    apply outcome_bind_Ret in Hr as (g & Hg & Hr).
    destruct (id =? g)%Z; [injection Hr as <- <- <-; apply keeps_entries_refl|].
    apply outcome_bind_Ret in Hr as (parent & Hparent & Hr).
    destruct (decide _); [|done].
    destruct (apply (state parent)) as [actions|];
      [|injection Hr as <- <- <-; apply keeps_entries_refl].
    apply outcome_bind_Ret in Hr as ([[L1 s1] c1] & Hloop & Hr).
    injection Hr as <- <- <-.
    destruct (GetSuccs_actions_states _ _ _ _ _ _ _ _ _ Hloop) as (nl & Hl).
    by eapply keeps_entries_app.
  - unfold GetLazySuccs in Hr.
    destruct (decide _); [|done].
    destruct actionSpace as [apply|];
      [|injection Hr as <- <- <- <-; apply keeps_entries_refl].
    apply outcome_bind_Ret in Hr as (g & Hg & Hr).
    destruct (id =? g)%Z;
      [injection Hr as <- <- <- <-; apply keeps_entries_refl|].
    apply outcome_bind_Ret in Hr as (parent & Hparent & Hr).
    destruct (decide _); [|done].
    destruct (apply (state parent)) as [actions|];
      [|injection Hr as <- <- <- <-; apply keeps_entries_refl].
    apply outcome_bind_Ret in Hr as ([[[L1 s1] c1] f1] & Hloop & Hr).
    injection Hr as <- <- <- <-.
    destruct (GetLazySuccs_actions_states _ _ _ _ _ _ _ _ _ _ Hloop)
      as (nl & Hl & _).
    by eapply keeps_entries_app.
  - apply keeps_entries_refl.
  - apply keeps_entries_refl.
Qed.

Lemma steps_keep_entries L L' : rtc step L L' → keeps_entries L L'.
Proof.
  induction 1 as [|L1 L2 L3 Hstep _ IH].
  - apply keeps_entries_refl.
  - eapply keeps_entries_trans; [by apply step_keeps_entries | exact IH].
Qed.

(** C10.  A state that [GetLazySuccs] creates is stored with the distance
    0.0, and no later call of the interface changes the distance of the
    entry: [step] covers every public operation, a call of [GetTrueCost]
    that validates the edge included. *)
Theorem GetLazySuccs_created_dist L id L1 succs costs flags :
  GetLazySuccs L id = Ret (L1, succs, costs, flags) →
  ∀ p e, (length (m_states L) ≤ p)%nat → m_states L1 !! p = Some e →
    dist e = 0
    ∧ ∀ L2, rtc step L1 L2 →
        ∃ e2, m_states L2 !! p = Some e2 ∧ dist e2 = 0.
Proof.
  intros Hr p e Hp He.
  assert (Hd : dist e = 0).
  { unfold GetLazySuccs in Hr.
    destruct (decide _); [|done].
    assert (Hsame : m_states L1 = m_states L → dist e = 0).
    { intros Heq. rewrite Heq in He. apply lookup_lt_Some in He. lia. }
    destruct actionSpace as [apply|];
      [|injection Hr as <- <- <- <-; by apply Hsame].
    apply outcome_bind_Ret in Hr as (g & Hg & Hr).
    destruct (id =? g)%Z; [injection Hr as <- <- <- <-; by apply Hsame|].
    apply outcome_bind_Ret in Hr as (parent & Hparent & Hr).
    destruct (decide _); [|done].
    destruct (apply (state parent)) as [actions|];
      [|injection Hr as <- <- <- <-; by apply Hsame].
    apply outcome_bind_Ret in Hr as ([[[L' s1] c1] f1] & Hloop & Hr).
    injection Hr as <- <- <- <-. simpl in He.
    destruct (GetLazySuccs_actions_states _ _ _ _ _ _ _ _ _ _ Hloop)
      as (nl & Hl & Hall).
    rewrite Hl in He. rewrite lookup_app_r in He by done.
    rewrite Forall_forall in Hall. apply Hall.
    by eapply list_elem_of_lookup_2. }
  split; [done|].
  intros L2 Hsteps.
  destruct (steps_keep_entries _ _ Hsteps _ _ He) as (e2 & He2 & _ & _ & Hd2).
  exists e2. split; [done | congruence].
Qed.

(** ** Start and goal *)

Lemma getOrCreateState_lookup L c s d cell L1 p :
  getOrCreateState L c s d cell = (L1, p) →
  getHashEntry L1 c = Some p
  ∧ (getHashEntry L c = None →
     m_states L1 = m_states L ++
       [{| stateID := Z.of_nat (length (m_states L)); coord := c;
           state := s; dist := d; xyz := cell |}]).
Proof.
  unfold getOrCreateState, createHashEntry, hash_assign, getHashEntry.
  destruct (m_state_to_id L !! c) as [[q id]|] eqn:Hc; simpl.
  - intros [= <- <-]. by rewrite Hc.
  - intros [= <- <-]. simpl. by rewrite lookup_insert_eq.
Qed.

(** [setStart] on a configuration with at most [num_joints_] positions.
    It answers [false], leaving the lattice as it is,
    when there are fewer than [num_joints_] positions, when the forward
    kinematics is absent or fails, when the joint limits are violated or
    when the collision checker rejects the configuration; otherwise it
    computes the coordinate and the grid cell of the tip, obtains or
    inserts the state of that coordinate with the joint values, the
    distance of the checker and the cell, makes it the start and answers
    [true]. *)
Lemma setStart_spec L q :
  (length q ≤ num_joints_)%nat →
  (setStart_refuses q → setStart L q = Ret (false, L))
  ∧ (¬ setStart_refuses q → setStart_accepts L q).
Proof.
  intros Hlen. unfold setStart_refuses, setStart_accepts, setStart.
  destruct (decide (length q < num_joints_)%nat) as [Hlt|Hge].
  { split; [done|]. intros Hn. exfalso. apply Hn. by left. }
  assert (Heq : length q = num_joints_) by lia.
  unfold computePlanningFrameFK, anglesToCoord.
  destruct (decide (length q = num_joints_)) as [_|]; [|done].
  destruct fk_iface as [fk|] eqn:Hfk; simpl.
  2:{ split; [done|]. intros Hn. exfalso. apply Hn. right. by left. }
  destruct (fk q) as [[[[[[x y] z] roll] pitch] yaw]|] eqn:Hq; simpl.
  2:{ split; [done|]. intros Hn. exfalso. apply Hn. right. right. left.
      by exists fk. }
  destruct (tipoff_translation x y z roll pitch yaw (xyz_offset (m_goal L)))
    as [[vx vy] vz] eqn:Htip. simpl.
  destruct (checkJointLimits q) eqn:Hlim; simpl.
  2:{ split; [done|]. intros Hn. exfalso. apply Hn. do 3 right. by left. }
  destruct (isStateValid q) as [valid d] eqn:Hvalid.
  destruct valid; simpl.
  2:{ split; [done|]. intros Hn. exfalso. apply Hn. by do 4 right. }
  destruct (getOrCreateState L (imap anglesToCoord_joint q) q d
              (worldToGrid vx vy vz)) as [L1 p] eqn:Hgoc.
  split.
  - intros [Hr|[Hr|[(fk' & Hr1 & Hr2)|[Hr|Hr]]]];
      try done; try lia. congruence.
  - intros _.
    destruct (getOrCreateState_lookup _ _ _ _ _ _ _ Hgoc) as [Hget Hnew].
    exists [vx; vy; vz; roll; pitch; yaw], (imap anglesToCoord_joint q),
      (worldToGrid vx vy vz), d, L1, p.
    split_and!; done.
Qed.

(** C4 (as the code has it).  A joint goal is never accepted: when the
    forward kinematics of the target succeeds, [setGoalConfiguration]
    hands its pose of six numbers to [setGoalPosition], which wants seven
    and answers [false]; [setGoal] answers [false] and the goal of the
    lattice stays as it was. *)
Theorem setGoal_joint_state_refused L goal tip :
  type goal = JOINT_STATE_GOAL →
  computePlanningFrameFK L (angles goal) = Ret (Some tip) →
  setGoal L goal = Ret (false, L).
Proof.
  intros Hty Hfk. unfold setGoal, setGoalConfiguration.
  rewrite Hty, Hfk. simpl.
  assert (Htip : length tip = 6%nat).
  { unfold computePlanningFrameFK in Hfk.
    destruct (decide _); [|done].
    destruct fk_iface as [fk|]; [|done].
    destruct (fk (angles goal)) as [[[[[[x y] z] roll] pitch] yaw]|]; [|done].
    destruct (tipoff_translation _ _ _ _ _ _ _) as [[vx vy] vz].
    by injection Hfk as <-. }
  unfold setGoalPosition. simpl. rewrite Htip. done.
Qed.

(** ** The goal test *)

Lemma Int_part_small r : 0 <= r < 1 → Int_part r = 0%Z.
Proof. intros Hr. symmetry. apply Int_part_spec. simpl. lra. Qed.

Lemma normalize_angle_positive_id a :
  0 <= a < 2 * PI → normalize_angle_positive a = a.
Proof.
  intros Ha. unfold normalize_angle_positive.
  pose proof PI_RGT_0 as Hpi.
  rewrite Int_part_small; [simpl; lra|].
  split.
  - apply Rdiv_nonneg; lra.
  - apply Rmult_lt_reg_r with (2 * PI); [lra|].
    replace (a / (2 * PI) * (2 * PI)) with a by (field; lra). lra.
Qed.

Lemma normalize_angle_upper a :
  PI < a < 2 * PI → normalize_angle a = a - 2 * PI.
Proof.
  intros Ha. unfold normalize_angle.
  rewrite normalize_angle_positive_id by lra.
  destruct (Rlt_dec PI a); lra.
Qed.

Lemma normalize_angle_lower a :
  0 <= a <= PI → normalize_angle a = a.
Proof.
  intros Ha. unfold normalize_angle. pose proof PI_RGT_0 as Hpi.
  rewrite normalize_angle_positive_id by lra.
  destruct (Rlt_dec PI a); lra.
Qed.

Lemma tipoff_translation_zero x y z roll pitch yaw :
  tipoff_translation x y z roll pitch yaw (0, 0, 0) = (x, y, z).
Proof.
  unfold tipoff_translation, rotZ, rotY, rotX. f_equal; [f_equal|]; ring.
Qed.

Lemma quat_dot_quarter_turn :
  quat_dot (quat_of_rpy 0 0 (- (PI / 2))) (quat_of_rpy 0 0 PI) = - / sqrt 2.
Proof.
  unfold quat_of_rpy, quat_dot, quat_mul, quat_UnitX, quat_UnitY, quat_UnitZ.
  replace (0.5 * 0) with 0 by lra.
  replace (0.5 * PI) with (PI / 2) by lra.
  replace (0.5 * - (PI / 2)) with (- (PI / 4)) by lra.
  rewrite cos_0, sin_0, cos_PI2, sin_PI2, cos_neg, sin_neg, cos_PI4, sin_PI4.
  assert (Hs : sqrt 2 ≠ 0).
  { intros Hs. apply sqrt_eq_0 in Hs; lra. }
  field. exact Hs.
Qed.

Lemma acos_opp_inv_sqrt2 : acos (- / sqrt 2) = 3 * PI / 4.
Proof. rewrite acos_opp, acos_inv_sqrt2. lra. Qed.

(** ** The true cost of an edge *)

Lemma GetTrueCost_actions_spec L pe ps ce cc ge actions :
  ∀ best v,
  GetTrueCost_actions L pe ps ce cc ge actions best = Ret v →
  ((∀ a, a ∈ actions → ¬ qualifies L ps ge cc a) ∧ v = best)
  ∨ ((∃ a, a ∈ actions ∧ qualifies L ps ge cc a)
     ∧ v = Z.min best cost_multiplier_).
Proof.
  induction actions as [|action rest IH]; intros best v Hrun.
  - simpl in Hrun. injection Hrun as <-. left. split; [|done].
    intros a Ha. by apply elem_of_nil in Ha.
  - assert (Hskip : ¬ qualifies L ps ge cc action →
      GetTrueCost_actions L pe ps ce cc ge rest best = Ret v →
      ((∀ a, a ∈ action :: rest → ¬ qualifies L ps ge cc a) ∧ v = best)
      ∨ ((∃ a, a ∈ action :: rest ∧ qualifies L ps ge cc a)
         ∧ v = Z.min best cost_multiplier_)).
    { intros Hno Hrest. destruct (IH _ _ Hrest) as [[Hnone ->]|[(a & Ha & Hq) ->]].
      - left. split; [|done]. intros a [->|Ha]%elem_of_cons; auto.
      - right. split; [|done]. exists a. split; [by apply list_elem_of_further|done]. }
    simpl in Hrun.
    apply outcome_bind_Ret in Hrun as (back & Hback & Hrun).
    apply outcome_bind_Ret in Hrun as (c & Hc & Hrun).
    apply outcome_bind_Ret in Hrun as (fk & Hfk & Hrun).
    destruct fk as [tgt|].
    2:{ apply Hskip; [|done].
        intros (back' & tip & d & Hb & Hf & _). congruence. }
    apply outcome_bind_Ret in Hrun as (leads & Hleads & Hrun).
    destruct leads.
    2:{ apply Hskip; [|done].
        intros (back' & tip & d & Hb & Hf & Hl & _).
        assert (back' = back) as -> by congruence.
        assert (tip = tgt) as -> by congruence.
        destruct ge; [congruence|].
        injection Hleads as Hl'. apply bool_decide_eq_false in Hl'.
        congruence. }
    apply outcome_bind_Ret in Hrun as ([valid d] & Hchk & Hrun).
    destruct valid.
    2:{ apply Hskip; [|done].
        intros (back' & tip & d' & _ & _ & _ & Hk). congruence. }
    destruct (if ge then getHashEntry L c else Some ce) as [succ_entry|];
      [|done].
    apply outcome_bind_Ret in Hrun as (ig & Hig & Hrun).
    unfold cost in Hrun.
    assert (Hq : qualifies L ps ge cc action).
    { exists back, tgt, d. split_and!; try done.
      destruct ge; [done|]. injection Hleads as Hl'.
      apply bool_decide_eq_true in Hl'. congruence. }
    right. split; [exists action; split; [apply list_elem_of_here|done]|].
    destruct (IH _ _ Hrun) as [[_ ->]|[_ ->]];
      destruct (Z.ltb_spec cost_multiplier_ best); lia.
Qed.

(** The value of a run of [GetTrueCost] that returns: the least edge cost
    over the actions enumerated from the configuration of the parent whose
    last waypoint has a planning frame pose, that reach the child and that
    pass [checkAction], and [-1] when there is no such action. *)
Lemma GetTrueCost_spec L parentID childID v :
  (cost_multiplier_ < INT_MAX)%Z →
  GetTrueCost L parentID childID = Ret v →
  ∃ parent child,
    state_by_id L parentID = Ret parent
    ∧ state_by_id L childID = Ret child
    ∧ least_cost_or_minus_one
        (qualifies L (state parent)
           (bool_decide (Some (Z.to_nat childID) = m_goal_entry L))
           (coord child))
        (enumerated_actions (state parent))
        (λ _, cost (Z.to_nat parentID) (Z.to_nat childID)
                (bool_decide (Some (Z.to_nat childID) = m_goal_entry L)))
        v.
Proof.
  intros Hcm. unfold GetTrueCost.
  destruct (decide _) as [Hrange|]; [|done]. intros Hrun.
  apply outcome_bind_Ret in Hrun as (parent & Hparent & Hrun).
  apply outcome_bind_Ret in Hrun as (child & Hchild & Hrun).
  exists parent, child. split_and!; try done.
  destruct (decide _) as [Hsize|]; [|done].
  unfold least_cost_or_minus_one, enumerated_actions, cost.
  destruct actionSpace as [apply|].
  2:{ injection Hrun as <-. right. split; [|done].
      intros a Ha. by apply elem_of_nil in Ha. }
  destruct (apply (state parent)) as [actions|]; simpl.
  2:{ injection Hrun as <-. right. split; [|done].
      intros a Ha. by apply elem_of_nil in Ha. }
  apply outcome_bind_Ret in Hrun as (best & Hloop & Hrun).
  destruct (GetTrueCost_actions_spec _ _ _ _ _ _ _ _ _ Hloop)
    as [[Hnone ->]|[(a0 & Ha & Hq) ->]].
  - simpl in Hrun. injection Hrun as <-. by right.
  - rewrite Z.min_r in Hrun by lia.
    destruct (Z.eqb_spec cost_multiplier_ INT_MAX); [lia|].
    injection Hrun as <-. left. exists a0. split_and!; try done.
Qed.

(** ** Path extraction *)

Lemma extractPath_actions_kept L pe ps actions :
  ∀ p0 r,
  extractPath_actions L pe ps actions (Some p0) cost_multiplier_ = Ret r →
  r = Some p0.
Proof.
  induction actions as [|action rest IH]; intros p0 r Hrun.
  - simpl in Hrun. by injection Hrun as <-.
  - simpl in Hrun.
    apply outcome_bind_Ret in Hrun as (back & Hback & Hrun).
    apply outcome_bind_Ret in Hrun as (fk & Hfk & Hrun).
    destruct fk as [tgt|]; [|by apply IH].
    apply outcome_bind_Ret in Hrun as (ig & Hig & Hrun).
    destruct ig; [|by apply IH].
    apply outcome_bind_Ret in Hrun as ([valid d] & Hchk & Hrun).
    destruct valid; [|by apply IH].
    apply outcome_bind_Ret in Hrun as (c & Hc & Hrun).
    destruct (getHashEntry L c); [|done].
    unfold cost in Hrun. rewrite Z.ltb_irrefl in Hrun. by apply IH.
Qed.

Lemma extractPath_actions_spec L pe ps actions :
  ∀ r,
  (cost_multiplier_ < INT_MAX)%Z →
  extractPath_actions L pe ps actions None INT_MAX = Ret r →
  (r = None ∧ ∀ a, a ∈ actions → ¬ qualifies L ps true [] a)
  ∨ (∃ before action after back c p,
       actions = before ++ action :: after
       ∧ (∀ a, a ∈ before → ¬ qualifies L ps true [] a)
       ∧ qualifies L ps true [] action
       ∧ action_back action = Ret back
       ∧ anglesToCoord back = Ret c
       ∧ getHashEntry L c = Some p
       ∧ r = Some p).
Proof.
  intros r Hcm. revert r.
  induction actions as [|action rest IH]; intros r Hrun.
  - simpl in Hrun. injection Hrun as <-. left. split; [done|].
    intros a Ha. by apply elem_of_nil in Ha.
  - assert (Hskip : ¬ qualifies L ps true [] action →
      extractPath_actions L pe ps rest None INT_MAX = Ret r →
      (r = None ∧ ∀ a, a ∈ action :: rest → ¬ qualifies L ps true [] a)
      ∨ (∃ before action' after back c p,
           action :: rest = before ++ action' :: after
           ∧ (∀ a, a ∈ before → ¬ qualifies L ps true [] a)
           ∧ qualifies L ps true [] action'
           ∧ action_back action' = Ret back
           ∧ anglesToCoord back = Ret c
           ∧ getHashEntry L c = Some p
           ∧ r = Some p)).
    { intros Hno Hrest.
      destruct (IH _ Hrest) as [[-> Hnone]|
        (before & a' & after & back & c & p & -> & Hb & Hrest')].
      - left. split; [done|]. intros a [->|Ha]%elem_of_cons; auto.
      - right. exists (action :: before), a', after, back, c, p.
        split_and!; try done; try tauto.
        intros a [->|Ha]%elem_of_cons; auto. }
    simpl in Hrun.
    apply outcome_bind_Ret in Hrun as (back & Hback & Hrun).
    apply outcome_bind_Ret in Hrun as (fk & Hfk & Hrun).
    destruct fk as [tgt|].
    2:{ apply Hskip; [|done].
        intros (back' & tip & d & Hb & Hf & _). congruence. }
    apply outcome_bind_Ret in Hrun as (ig & Hig & Hrun).
    destruct ig.
    2:{ apply Hskip; [|done].
        intros (back' & tip & d & Hb & Hf & Hl & _).
        assert (back' = back) as -> by congruence.
        assert (tip = tgt) as -> by congruence. congruence. }
    apply outcome_bind_Ret in Hrun as ([valid d] & Hchk & Hrun).
    destruct valid.
    2:{ apply Hskip; [|done].
        intros (back' & tip & d' & _ & _ & _ & Hk). congruence. }
    apply outcome_bind_Ret in Hrun as (c & Hc & Hrun).
    destruct (getHashEntry L c) as [p|] eqn:Hp; [|done].
    unfold cost in Hrun.
    destruct (Z.ltb_spec cost_multiplier_ INT_MAX); [|lia].
    apply extractPath_actions_kept in Hrun as ->.
    right. exists [], action, rest, back, c, p. split_and!; try done.
    + intros a Ha. by apply elem_of_nil in Ha.
    + by exists back, tgt, d.
Qed.

Lemma extractPath_rest_spec L apply goal_id :
  (cost_multiplier_ < INT_MAX)%Z →
  actionSpace = Some apply →
  getGoalStateID L = Ret goal_id →
  ∀ ids prev_id opath path,
  extractPath_rest L apply prev_id ids opath = Ret (Some path) →
  ∃ new, path = opath ++ new ∧ length new = length ids
    ∧ ∀ j, ids !! j = Some goal_id →
        ∃ prev_id' e,
          (prev_id :: ids) !! j = Some prev_id' ∧ prev_id' ≠ goal_id
          ∧ goal_successor L prev_id' e
          ∧ new !! j = Some (state e).
Proof.
  intros Hcm Has Hgoal.
  induction ids as [|curr rest IH]; intros prev_id opath path Hrun.
  - simpl in Hrun. injection Hrun as <-. exists []. rewrite app_nil_r.
    split_and!; try done.
  - simpl in Hrun. rewrite Hgoal in Hrun. simpl in Hrun.
    destruct (Z.eqb_spec prev_id goal_id) as [|Hprev]; [done|].
    destruct (Z.eqb_spec curr goal_id) as [Hcurr|Hcurr].
    + apply outcome_bind_Ret in Hrun as (prev & Hprev_entry & Hrun).
      destruct (apply (state prev)) as [actions|] eqn:Hact; [|done].
      apply outcome_bind_Ret in Hrun as (best & Hloop & Hrun).
      destruct best as [p|]; [|done].
      apply outcome_bind_Ret in Hrun as (e & He & Hrun).
      apply entry_at_Ret in He.
      destruct (IH _ _ _ Hrun) as (new & -> & Hlen & Hnew).
      exists (state e :: new). split_and!.
      * by rewrite <- app_assoc.
      * simpl. by rewrite Hlen.
      * intros [|j] Hj.
        -- exists prev_id, e. split_and!; try done.
           destruct (extractPath_actions_spec _ _ _ _ _ Hcm Hloop)
             as [[? _]|(before & a & after & back & c & p' & Hsplit & Hb
                        & Hq & Hback & Hc & Hp & Hr)]; [done|].
           injection Hr as <-.
           exists prev, before, a, after, back, c, p. split_and!; try done.
           unfold enumerated_actions. by rewrite Has, Hact.
        -- simpl in Hj. destruct (Hnew _ Hj) as (prev' & e' & Hl & Hrest).
           by exists prev', e'.
    + apply outcome_bind_Ret in Hrun as (a & Ha & Hrun).
      destruct a as [curr_state|]; [|done].
      destruct (IH _ _ _ Hrun) as (new & -> & Hlen & Hnew).
      exists (curr_state :: new). split_and!.
      * by rewrite <- app_assoc.
      * simpl. by rewrite Hlen.
      * intros [|j] Hj.
        -- simpl in Hj. congruence.
        -- simpl in Hj. destruct (Hnew _ Hj) as (prev' & e' & Hl & Hrest).
           by exists prev', e'.
Qed.

(** What [extractPath] emits for a goal ID.  In a path of at least two
    IDs that [extractPath] accepts, the configuration at the position of a
    reserved goal ID is the configuration stored in the lattice state of
    the coordinate of the last waypoint of the first action, from the state
    before it, that meets the goal and passes [checkAction], not the
    waypoint itself.  When the state before a goal ID has no such action,
    [extractPath] answers [false]. *)
Lemma extractPath_goal_entry L idpath path0 goal_id b path :
  (cost_multiplier_ < INT_MAX)%Z →
  (2 ≤ length idpath)%nat →
  getGoalStateID L = Ret goal_id →
  extractPath L idpath path0 = Ret (b, path) →
  (b = true →
   ∀ i, idpath !! S i = Some goal_id →
     ∃ prev_id e,
       idpath !! i = Some prev_id ∧ prev_id ≠ goal_id
       ∧ goal_successor L prev_id e
       ∧ path !! S i = Some (state e))
  ∧ ((∃ i prev_id prev,
        idpath !! S i = Some goal_id ∧ idpath !! i = Some prev_id
        ∧ state_by_id L prev_id = Ret prev
        ∧ ∀ a, a ∈ enumerated_actions (state prev) →
               ¬ qualifies L (state prev) true [] a) →
     b = false).
Proof.
  intros Hcm Hlen Hgoal Hrun.
  assert (Hemit : b = true →
    ∀ i, idpath !! S i = Some goal_id →
      ∃ prev_id e,
        idpath !! i = Some prev_id ∧ prev_id ≠ goal_id
        ∧ goal_successor L prev_id e
        ∧ path !! S i = Some (state e)).
  { intros ->. destruct idpath as [|id0 [|id1 rest]]; simpl in Hlen; try lia.
    unfold extractPath in Hrun. rewrite Hgoal in Hrun. simpl in Hrun.
    destruct (id0 =? goal_id)%Z; [done|].
    apply outcome_bind_Ret in Hrun as (a & Ha & Hrun).
    destruct a as [angles0|]; [|done].
    destruct actionSpace as [apply|] eqn:Has; [|done].
    apply outcome_bind_Ret in Hrun as (r & Hrest & Hrun).
    destruct r as [opath|]; [|done].
    injection Hrun as <-.
    destruct (extractPath_rest_spec _ _ _ Hcm Has Hgoal
                (id1 :: rest) id0 [angles0] opath Hrest)
      as (new & -> & _ & Hnew).
    intros i Hi. simpl in Hi.
    destruct (Hnew _ Hi) as (prev_id & e & Hprev & Hne & Hsucc & He).
    by exists prev_id, e. }
  split; [exact Hemit|].
  intros (i & prev_id & prev & Hi & Hprev & Hentry & Hnone).
  destruct b; [|done].
  destruct (Hemit eq_refl _ Hi) as (prev_id' & e & Hprev' & _ & Hsucc & _).
  destruct Hsucc as (prev' & before & a & after & back & c & p & Hentry'
                     & Hsplit & _ & Hq & _).
  assert (prev_id' = prev_id) as -> by congruence.
  assert (prev' = prev) as -> by congruence.
  exfalso. apply (Hnone a); [|done].
  rewrite Hsplit. apply elem_of_app. right. apply list_elem_of_here.
Qed.

(** * Further properties of the code *)

(** ** Coordinates *)


Lemma normalize_angle_positive_full_turns a (k : Z) :
  normalize_angle_positive (a + IZR k * (2 * PI)) = normalize_angle_positive a.
Proof.
  unfold normalize_angle_positive. pose proof PI_RGT_0 as Hpi.
  assert (Hk : Int_part ((a + IZR k * (2 * PI)) / (2 * PI))
               = (Int_part (a / (2 * PI)) + k)%Z).
  { symmetry. apply Int_part_spec. rewrite plus_IZR.
    destruct (base_Int_part (a / (2 * PI))) as [H1 H2].
    replace ((a + IZR k * (2 * PI)) / (2 * PI))
      with (a / (2 * PI) + IZR k) by (field; lra).
    lra. }
  rewrite Hk, plus_IZR. lra.
Qed.

Lemma decode_encode_joint i (c : Z) :
  (i < num_joints_)%nat →
  0 < nth i coord_delta_ 0 →
  (hasPosLimit i = false →
   IZR (nth i coord_vals_ 0%Z) * nth i coord_delta_ 0 = 2 * PI) →
  (0 ≤ c)%Z →
  (hasPosLimit i = false → (c < nth i coord_vals_ 0)%Z) →
  anglesToCoord_joint i (coordToAngles_joint i c) = c.
Proof.
  intros Hi Hd Hv Hc Hlt.
  unfold anglesToCoord_joint, coordToAngles_joint.
  rewrite m_continuous_nth by done.
  assert (Hc0 : 0 <= IZR c) by (by apply IZR_le).
  set (d := nth i coord_delta_ 0) in *.
  destruct (hasPosLimit i) eqn:Hlim; simpl.
  - apply double_to_int_eq; [done|].
    replace ((nth i m_min_limits 0 + IZR c * d - nth i m_min_limits 0) / d)
      with (IZR c) by (field; lra).
    lra.
  - specialize (Hv eq_refl). specialize (Hlt eq_refl).
    set (n := nth i coord_vals_ 0%Z) in *.
    assert (Hcn : IZR c + 1 <= IZR n).
    { rewrite <- (plus_IZR c 1). apply IZR_le. lia. }
    pose proof PI_RGT_0 as Hpi.
    rewrite normalize_angle_positive_id by nra.
    rewrite (double_to_int_eq _ c); [|done|].
    + destruct (Z.eqb_spec c n); [lia|done].
    + replace ((IZR c * d + d * 0.5) / d) with (IZR c + 0.5) by (field; lra).
      lra.
Qed.

(** X2.  Encoding the configuration decoded from a coordinate gives the
    coordinate back, when the cells of the coordinate are not negative
    and, for a continuous joint, below the number of bins. *)
Theorem anglesToCoord_coordToAngles (c : list Z) :
  length c = num_joints_ →
  (∀ i, (i < num_joints_)%nat → 0 < nth i coord_delta_ 0) →
  (∀ i, (i < num_joints_)%nat → hasPosLimit i = false →
        IZR (nth i coord_vals_ 0%Z) * nth i coord_delta_ 0 = 2 * PI) →
  (∀ i ci, c !! i = Some ci →
     (0 ≤ ci)%Z ∧ (hasPosLimit i = false → (ci < nth i coord_vals_ 0)%Z)) →
  anglesToCoord (coordToAngles c) = Ret c.
Proof.
  intros Hlen Hdelta Hvals Hrange.
  unfold anglesToCoord, coordToAngles. rewrite length_imap.
  destruct (decide (length c = num_joints_)); [|done].
  f_equal. apply list_eq. intros i.
  rewrite !list_lookup_imap.
  destruct (c !! i) as [ci|] eqn:Hci; [|done]. simpl. f_equal.
  assert (Hi : (i < num_joints_)%nat).
  { rewrite <- Hlen. by eapply lookup_lt_Some. }
  destruct (Hrange _ _ Hci) as [H0 Hlt].
  apply decode_encode_joint; auto.
Qed.


(** X4.  Turning a continuous joint by whole turns does not change the
    coordinate of a configuration. *)
Theorem anglesToCoord_full_turns (q : list R) i qi (k : Z) :
  q !! i = Some qi →
  hasPosLimit i = false →
  anglesToCoord (<[i := qi + IZR k * (2 * PI)]> q) = anglesToCoord q.
Proof.
  intros Hqi Hc. unfold anglesToCoord. rewrite length_insert.
  destruct (decide (length q = num_joints_)) as [Hlen|]; [|done].
  f_equal. apply list_eq. intros j. rewrite !list_lookup_imap.
  destruct (decide (i = j)) as [<-|Hne].
  - rewrite list_lookup_insert_eq by (by eapply lookup_lt_Some).
    rewrite Hqi. simpl. f_equal.
    assert (Hi : (i < num_joints_)%nat).
    { rewrite <- Hlen. by eapply lookup_lt_Some. }
    unfold anglesToCoord_joint. rewrite m_continuous_nth, Hc by done. simpl.
    by rewrite normalize_angle_positive_full_turns.
  - by rewrite list_lookup_insert_ne.
Qed.

(** ** The state table *)

Lemma getOrCreateState_cases L c s d cell L1 p :
  getOrCreateState L c s d cell = (L1, p) →
  (getHashEntry L c = Some p ∧ L1 = L)
  ∨ (getHashEntry L c = None ∧ p = length (m_states L)
     ∧ m_states L1 = m_states L ++
         [{| stateID := Z.of_nat (length (m_states L)); coord := c;
             state := s; dist := d; xyz := cell |}]
     ∧ m_goal L1 = m_goal L ∧ m_goal_entry L1 = m_goal_entry L
     ∧ m_start_entry L1 = m_start_entry L
     ∧ m_expanded_states L1 = m_expanded_states L).
Proof.
  unfold getOrCreateState.
  destruct (getHashEntry L c) as [q|] eqn:Hget.
  - intros [= <- <-]. by left.
  - unfold createHashEntry. intros [= <- <-]. right. by split_and!.
Qed.

Lemma getOrCreateState_encoded L c s d cell L1 p :
  anglesToCoord s = Ret c →
  getOrCreateState L c s d cell = (L1, p) →
  ∃ l, m_states L1 = m_states L ++ l
       ∧ Forall (λ e, anglesToCoord (state e) = Ret (coord e)) l.
Proof.
  intros Hc Hgoc.
  destruct (getOrCreateState_cases _ _ _ _ _ _ _ Hgoc)
    as [[_ ->]|(_ & _ & Hl & _)].
  - exists []. by rewrite app_nil_r.
  - eexists. split; [exact Hl|]. by repeat constructor.
Qed.

Lemma GetSuccs_actions_encoded pe ps actions :
  ∀ L succs costs L' succs' costs',
  GetSuccs_actions pe ps actions L succs costs = Ret (L', succs', costs') →
  ∃ l, m_states L' = m_states L ++ l
       ∧ Forall (λ e, anglesToCoord (state e) = Ret (coord e)) l.
Proof.
  induction actions as [|action rest IH];
    intros L succs costs L' succs' costs' Hrun.
  - simpl in Hrun. injection Hrun as <- <- <-. exists []. by rewrite app_nil_r.
  - simpl in Hrun.
    apply outcome_bind_Ret in Hrun as ([valid d] & Hchk & Hrun).
    destruct valid; [|by eapply IH].
    apply outcome_bind_Ret in Hrun as (back & Hback & Hrun).
    apply outcome_bind_Ret in Hrun as (c & Hc & Hrun).
    apply outcome_bind_Ret in Hrun as (fk & Hfk & Hrun).
    destruct fk as [tgt|]; [|by eapply IH].
    apply outcome_bind_Ret in Hrun as (endeff & Hcell & Hrun).
    destruct (getOrCreateState L c back d endeff) as [L1 p] eqn:Hgoc.
    apply outcome_bind_Ret in Hrun as (ig & Hig & Hrun).
    apply outcome_bind_Ret in Hrun as (g & Hg & Hrun).
    apply outcome_bind_Ret in Hrun as (succ & Hsucc & Hrun).
    destruct (getOrCreateState_encoded _ _ _ _ _ _ _ Hc Hgoc)
      as (l1 & Hl1 & Hd1).
    destruct (IH _ _ _ _ _ _ Hrun) as (l & Hl & Hd).
    exists (l1 ++ l). split; [by rewrite Hl, Hl1, app_assoc|].
    by apply Forall_app.
Qed.

Lemma GetLazySuccs_actions_encoded se actions :
  ∀ L ids costs flags L' ids' costs' flags',
  GetLazySuccs_actions se actions L ids costs flags
    = Ret (L', ids', costs', flags') →
  ∃ l, m_states L' = m_states L ++ l
       ∧ Forall (λ e, anglesToCoord (state e) = Ret (coord e)) l.
Proof.
  induction actions as [|action rest IH];
    intros L ids costs flags L' ids' costs' flags' Hrun.
  - simpl in Hrun. injection Hrun as <- <- <- <-.
    exists []. by rewrite app_nil_r.
  - simpl in Hrun.
    apply outcome_bind_Ret in Hrun as (back & Hback & Hrun).
    apply outcome_bind_Ret in Hrun as (c & Hc & Hrun).
    apply outcome_bind_Ret in Hrun as (fk & Hfk & Hrun).
    destruct fk as [tgt|]; [|by eapply IH].
    apply outcome_bind_Ret in Hrun as (endeff & Hcell & Hrun).
    apply outcome_bind_Ret in Hrun as (ig & Hig & Hrun).
    destruct (getOrCreateState L c back 0.0 endeff) as [L1 p] eqn:Hgoc.
    apply outcome_bind_Ret in Hrun as (g & Hg & Hrun).
    apply outcome_bind_Ret in Hrun as (succ & Hsucc & Hrun).
    destruct (getOrCreateState_encoded _ _ _ _ _ _ _ Hc Hgoc)
      as (l1 & Hl1 & Hd1).
    destruct (IH _ _ _ _ _ _ _ _ Hrun) as (l & Hl & Hd).
    exists (l1 ++ l). split; [by rewrite Hl, Hl1, app_assoc|].
    by apply Forall_app.
Qed.

Lemma step_encoded L L' :
  wf L → step L L' →
  ∃ l, m_states L' = m_states L ++ l
       ∧ Forall (λ e, anglesToCoord (state e) = Ret (coord e)) l.
Proof.
  intros Hwf Hstep.
  assert (Hsame : ∀ L1, m_states L1 = m_states L →
    ∃ l, m_states L1 = m_states L ++ l
         ∧ Forall (λ e, anglesToCoord (state e) = Ret (coord e)) l).
  { intros L1 ->. exists []. by rewrite app_nil_r. }
  destruct Hstep as
    [L q b L' Hr | L goal b L' Hr | L g o t b L' Hr | L g t b L' Hr
    | L id L' s c Hr | L id L' s c f Hr | L p ch c Hr | L ids path r Hr].
  - unfold setStart in Hr.
    destruct (decide _); [injection Hr as <- <-; by apply Hsame|].
    apply outcome_bind_Ret in Hr as (fk & Hfk & Hr).
    destruct fk as [pose_|]; [|injection Hr as <- <-; by apply Hsame].
    destruct (checkJointLimits q); simpl in Hr;
      [|injection Hr as <- <-; by apply Hsame].
    destruct (isStateValid q) as [valid d].
    destruct valid; simpl in Hr;
      [|injection Hr as <- <-; by apply Hsame].
    apply outcome_bind_Ret in Hr as (c & Hc & Hr).
    apply outcome_bind_Ret in Hr as (cell & Hcell & Hr).
    destruct (getOrCreateState L c q d cell) as [L1 p] eqn:Hgoc.
    injection Hr as <- <-. simpl.
    by eapply getOrCreateState_encoded.
  - apply Hsame. by eapply setGoal_wf.
  - apply Hsame. by eapply setGoalPosition_wf.
  - apply Hsame. by eapply setGoalConfiguration_wf.
  - unfold GetSuccs in Hr.
    destruct (decide _); [|done].
    destruct actionSpace as [apply|];
      [|injection Hr as <- <- <-; by apply Hsame].
    apply outcome_bind_Ret in Hr as (g & Hg & Hr).
    destruct (id =? g)%Z; [injection Hr as <- <- <-; by apply Hsame|].
    apply outcome_bind_Ret in Hr as (parent & Hparent & Hr).
    destruct (decide _); [|done].
    destruct (apply (state parent)) as [actions|];
      [|injection Hr as <- <- <-; by apply Hsame].
    apply outcome_bind_Ret in Hr as ([[L1 s1] c1] & Hloop & Hr).
    injection Hr as <- <- <-. simpl.
    by eapply GetSuccs_actions_encoded.
  - unfold GetLazySuccs in Hr.
    destruct (decide _); [|done].
    destruct actionSpace as [apply|];
      [|injection Hr as <- <- <- <-; by apply Hsame].
    apply outcome_bind_Ret in Hr as (g & Hg & Hr).
    destruct (id =? g)%Z;
      [injection Hr as <- <- <- <-; by apply Hsame|].
    apply outcome_bind_Ret in Hr as (parent & Hparent & Hr).
    destruct (decide _); [|done].
    destruct (apply (state parent)) as [actions|];
      [|injection Hr as <- <- <- <-; by apply Hsame].
    apply outcome_bind_Ret in Hr as ([[[L1 s1] c1] f1] & Hloop & Hr).
    injection Hr as <- <- <- <-. simpl.
    by eapply GetLazySuccs_actions_encoded.
  - by apply Hsame.
  - by apply Hsame.
Qed.

Lemma steps_encoded L L' :
  wf L → rtc step L L' →
  wf L'
  ∧ ∃ l, m_states L' = m_states L ++ l
         ∧ Forall (λ e, anglesToCoord (state e) = Ret (coord e)) l.
Proof.
  intros Hwf Hsteps. induction Hsteps as [L|L1 L2 L3 Hstep _ IH].
  - split; [done|]. exists []. by rewrite app_nil_r.
  - destruct (step_encoded _ _ Hwf Hstep) as (l1 & Hl1 & Hd1).
    destruct (IH (step_wf _ _ Hstep Hwf)) as (Hwf3 & l & Hl & Hd).
    split; [done|].
    exists (l1 ++ l). split; [by rewrite Hl, Hl1, app_assoc|].
    by apply Forall_app.
Qed.

Lemma reachable_states L :
  reachable L →
  ∃ l, m_states L =
         {| stateID := 0; coord := replicate num_joints_ 0%Z; state := [];
            dist := 0; xyz := (0%Z, 0%Z, 0%Z) |} :: l
       ∧ Forall (λ e, anglesToCoord (state e) = Ret (coord e)) l.
Proof.
  intros Hreach.
  destruct (steps_encoded _ _ wf_new Hreach) as (_ & l & Hl & Hd).
  exists l. by split.
Qed.

Lemma wf_coord_inj L p1 p2 e1 e2 :
  wf L → m_states L !! p1 = Some e1 → m_states L !! p2 = Some e2 →
  coord e1 = coord e2 → p1 = p2.
Proof.
  intros Hwf H1 H2 Hc.
  destruct (wf_states L Hwf _ _ H1) as (_ & _ & Ht1).
  destruct (wf_states L Hwf _ _ H2) as (_ & _ & Ht2).
  rewrite Hc in Ht1. congruence.
Qed.

(** X5.  The calls of the interface only append to the table of states:
    an entry stays at its position with its ID, coordinate, configuration,
    distance and cell, and a coordinate keeps the entry it is bound to. *)
Theorem states_append_only L L' :
  reachable L → rtc step L L' →
  (∃ l, m_states L' = m_states L ++ l)
  ∧ (∀ p e, m_states L !! p = Some e → getHashEntry_id L' (stateID e) = Some e)
  ∧ (∀ c p, getHashEntry L c = Some p → getHashEntry L' c = Some p).
Proof.
  intros Hreach Hsteps.
  pose proof (reachable_wf _ Hreach) as Hwf.
  destruct (steps_encoded _ _ Hwf Hsteps) as (Hwf' & l & Hl & _).
  assert (Hkeep : ∀ p e, m_states L !! p = Some e → m_states L' !! p = Some e).
  { intros p e Hp. rewrite Hl. by apply lookup_app_l_Some. }
  split_and!.
  - by exists l.
  - intros p e Hp.
    destruct (wf_states L Hwf _ _ Hp) as (Hid & _ & _).
    pose proof (Hkeep _ _ Hp) as Hp'.
    unfold getHashEntry_id. rewrite Hid.
    apply lookup_lt_Some in Hp' as Hlt.
    destruct (decide _) as [Hout|_]; [lia|].
    by rewrite Nat2Z.id.
  - intros c p Hget. unfold getHashEntry in *.
    destruct (m_state_to_id L !! c) as [[p0 id]|] eqn:Hc; [|done].
    simpl in Hget. injection Hget as ->.
    destruct (wf_table L Hwf _ _ _ Hc) as (e & He & Hce).
    destruct (wf_states L' Hwf' _ _ (Hkeep _ _ He)) as (_ & _ & Ht).
    by rewrite Hce in Ht; rewrite Ht.
Qed.

(** X6.  In every lattice that the interface can reach, an entry other
    than the reserved goal entry holds a configuration and the coordinate
    of that configuration, and its coordinate is not the all-zero
    coordinate. *)
Theorem entries_hold_their_coordinate L p e :
  reachable L → m_states L !! p = Some e → p ≠ 0%nat →
  anglesToCoord (state e) = Ret (coord e)
  ∧ coord e ≠ replicate num_joints_ 0%Z.
Proof.
  intros Hreach Hp Hne.
  pose proof (reachable_wf _ Hreach) as Hwf.
  destruct (reachable_states _ Hreach) as (l & Hl & Hd).
  split.
  - rewrite Hl in Hp. destruct p as [|p]; [done|]. simpl in Hp.
    rewrite Forall_lookup in Hd. by eapply Hd.
  - intros Hzero.
    destruct (wf_goal_coord L Hwf) as (e0 & H0 & Hc0).
    apply Hne. eapply (wf_coord_inj L p 0%nat e e0); eauto. congruence.
Qed.

(** X7.  The reserved goal entry never changes: in every lattice that
    the interface can reach it is the entry of ID 0, with the all-zero
    coordinate, the empty configuration, the distance 0 and the cell
    (0, 0, 0). *)
Theorem goal_entry_constant L :
  reachable L →
  m_goal_entry L = Some 0%nat
  ∧ getHashEntry_id L 0 =
      Some {| stateID := 0; coord := replicate num_joints_ 0%Z; state := [];
              dist := 0; xyz := (0%Z, 0%Z, 0%Z) |}.
Proof.
  intros Hreach.
  pose proof (reachable_wf _ Hreach) as Hwf.
  destruct (reachable_states _ Hreach) as (l & Hl & _).
  split; [by apply wf_goal_entry|].
  unfold getHashEntry_id.
  destruct (decide _) as [Hout|_].
  - rewrite Hl in Hout. simpl in Hout. lia.
  - by rewrite Hl.
Qed.

(** X8.  The two lookups of the table agree in every lattice that the
    interface can reach: a coordinate is bound to the position [p] exactly
    when the entry of the ID [p] has that coordinate, and the ID stored in
    an entry is its position. *)
Theorem table_lookups_agree L c p :
  reachable L →
  getHashEntry L c = Some p
  ↔ ∃ e, getHashEntry_id L (Z.of_nat p) = Some e ∧ coord e = c
         ∧ stateID e = Z.of_nat p.
Proof.
  intros Hreach. pose proof (reachable_wf _ Hreach) as Hwf.
  unfold getHashEntry_id. split.
  - unfold getHashEntry. intros Hget.
    destruct (m_state_to_id L !! c) as [[p0 id]|] eqn:Hc; [|done].
    simpl in Hget. injection Hget as ->.
    destruct (wf_table L Hwf _ _ _ Hc) as (e & He & Hce).
    destruct (wf_states L Hwf _ _ He) as (Hid & _ & _).
    exists e. apply lookup_lt_Some in He as Hlt.
    destruct (decide _) as [Hout|_]; [lia|].
    by rewrite Nat2Z.id.
  - intros (e & He & Hce & _).
    destruct (decide _) as [Hout|_]; [done|].
    rewrite Nat2Z.id in He.
    destruct (wf_states L Hwf _ _ He) as (_ & _ & Ht).
    unfold getHashEntry. by rewrite <- Hce, Ht.
Qed.

(** ** Validation of an action *)

Lemma forallb_Forall_true {A} (f : A → bool) (l : list A) :
  forallb f l = true ↔ Forall (λ x, f x = true) l.
Proof.
  induction l as [|x l IH]; simpl.
  - split; [constructor | done].
  - by rewrite andb_true_iff, Forall_cons, IH.
Qed.

Lemma checkAction_waypoints_spec rest :
  ∀ prev d0 b d,
  checkAction_waypoints prev rest d0 = (b, d) →
  (b = true ↔ Forall segment_valid (action_segments prev rest))
  ∧ (b = true →
     d = match list.last (action_segments prev rest) with
         | Some seg => (isStateToStateValid seg.1 seg.2).2
         | None => d0
         end).
Proof.
  induction rest as [|curr rest IH]; intros prev d0 b d Hrun.
  - simpl in Hrun. injection Hrun as <- <-. split; [|done].
    split; [constructor | done].
  - simpl in Hrun.
    destruct (isStateToStateValid prev curr) as [valid d1] eqn:Hseg.
    assert (Hcons : action_segments prev (curr :: rest)
                    = (prev, curr) :: action_segments curr rest) by done.
    destruct valid.
    + destruct (IH _ _ _ _ Hrun) as [Hb Hd]. split.
      * rewrite Hb, Hcons, Forall_cons. unfold segment_valid at 2. simpl.
        rewrite Hseg. simpl. tauto.
      * intros Htrue. rewrite (Hd Htrue). unfold action_segments.
        change (zip (prev :: curr :: rest) (curr :: rest))
          with ((prev, curr) :: zip (curr :: rest) rest).
        rewrite last_cons.
        destruct (list.last (zip (curr :: rest) rest)); [done|].
        simpl. by rewrite Hseg.
    + injection Hrun as <- <-. split; [|done].
      split; [done|]. rewrite Hcons, Forall_cons. unfold segment_valid at 1.
      simpl. rewrite Hseg. simpl. by intros [? _].
Qed.

(** X9.  [checkAction] answers for every action that has a waypoint.  It
    accepts the action exactly when every waypoint is within the joint
    limits and every segment from the source through the waypoints passes
    the collision checker, and the distance it then reports is the one of
    the last segment. *)
Theorem checkAction_accepts_iff state action :
  action ≠ [] →
  ∃ b d, checkAction state action = Ret (b, d)
    ∧ (b = true ↔
         Forall (λ w, checkJointLimits w = true) action
         ∧ Forall segment_valid (action_segments state action))
    ∧ (b = true →
       ∃ seg, list.last (action_segments state action) = Some seg
              ∧ d = (isStateToStateValid seg.1 seg.2).2).
Proof.
  intros Hne. unfold checkAction.
  destruct (forallb checkJointLimits action) eqn:Hlim; simpl.
  - assert (Hall : Forall (λ w, checkJointLimits w = true) action)
      by (by apply forallb_Forall_true).
    destruct action as [|first rest]; [done|].
    destruct (isStateToStateValid state first) as [valid d1] eqn:Hseg.
    assert (Hcons : action_segments state (first :: rest)
                    = (state, first) :: action_segments first rest) by done.
    rewrite Hcons.
    destruct valid; simpl.
    + destruct (checkAction_waypoints first rest d1) as [b d] eqn:Hrun.
      destruct (checkAction_waypoints_spec _ _ _ _ _ Hrun) as [Hb Hd].
      exists b, d. split; [done|]. split.
      * assert (Hfirst : segment_valid (state, first))
          by (unfold segment_valid; simpl; by rewrite Hseg).
        rewrite Hb, (Forall_cons segment_valid). tauto.
      * intros Htrue. rewrite (Hd Htrue), last_cons.
        destruct (list.last (action_segments first rest)) as [seg|].
        -- by exists seg.
        -- eexists. split; [done|]. simpl. by rewrite Hseg.
    + exists false, d1. split; [done|]. split; [|done].
      split; [done|]. intros [_ Hsegs].
      apply (Forall_cons segment_valid) in Hsegs as [Hs _].
      unfold segment_valid in Hs. simpl in Hs. by rewrite Hseg in Hs.
  - exists false, 0. split; [done|]. split; [|done].
    split; [done|]. intros [Hall _].
    assert (forallb checkJointLimits action = true); [|congruence].
    by apply forallb_Forall_true.
Qed.

(** ** The tip offset *)







(** ** The goal test *)

Lemma Rltb_false_iff a b : Rltb a b = false ↔ b <= a.
Proof. unfold Rltb. destruct (Rlt_dec a b); split; (done || lra). Qed.

Lemma Rleb_true_iff a b : Rleb a b = true ↔ a <= b.
Proof. unfold Rleb. destruct (Rle_dec a b); split; (done || lra). Qed.

Lemma isGoal_joints_spec angles_ :
  ∀ state_ tols,
  (length angles_ ≤ length state_)%nat →
  (length angles_ ≤ length tols)%nat →
  ∃ b, isGoal_joints state_ angles_ tols = Ret b
       ∧ (b = true ↔
          ∀ i a s t, angles_ !! i = Some a → state_ !! i = Some s →
                     tols !! i = Some t → Rabs (s - a) <= t).
Proof.
  induction angles_ as [|a angles_ IH]; intros state_ tols Hs Ht.
  - exists true. split; [by destruct state_|].
    split; [|done]. by intros _ i a s t.
  - destruct state_ as [|s state_]; [simpl in Hs; lia|].
    destruct tols as [|t tols]; [simpl in Ht; lia|].
    simpl. destruct (Rltb t (Rabs (s - a))) eqn:Hcmp.
    + exists false. split; [done|]. split; [done|]. intros Hall.
      specialize (Hall 0%nat a s t eq_refl eq_refl eq_refl).
      unfold Rltb in Hcmp. destruct (Rlt_dec t (Rabs (s - a))); [lra|done].
    + apply Rltb_false_iff in Hcmp.
      destruct (IH state_ tols) as (b & Hb & Hiff);
        [simpl in Hs; lia | simpl in Ht; lia|].
      exists b. split; [done|]. rewrite Hiff. split.
      * intros Hall [|i] a' s' t' Ha' Hs' Ht'; simpl in *.
        -- by simplify_eq.
        -- by eapply Hall.
      * intros Hall i a' s' t' Ha' Hs' Ht'. by apply (Hall (S i)).
Qed.


(** X12.  The goal test of a position goal at the stored target.  For a
    goal of the type [XYZ_GOAL] with tolerances on the position that are
    not negative, a pose at the position of the target is accepted,
    whatever its orientation: the three comparisons are [<=], so the
    tolerance zero accepts the target itself. *)
Theorem isGoal_at_target L q x y z orientation target_orientation :
  type (m_goal L) = XYZ_GOAL →
  tgt_off_pose (m_goal L) = x :: y :: z :: target_orientation →
  0 <= (xyz_tolerance (m_goal L)).1.1 →
  0 <= (xyz_tolerance (m_goal L)).1.2 →
  0 <= (xyz_tolerance (m_goal L)).2 →
  isGoal L q (x :: y :: z :: orientation) = Ret true.
Proof.
  intros Htype Htgt Hx Hy Hz. unfold isGoal. rewrite Htype.
  unfold within_xyz_tolerance. rewrite Htgt. simpl.
  destruct (xyz_tolerance (m_goal L)) as [[tx ty] tz]. simpl in *.
  replace (x - x) with 0 by ring. replace (y - y) with 0 by ring.
  replace (z - z) with 0 by ring. rewrite Rabs_R0.
  f_equal. by rewrite !andb_true_iff, !Rleb_true_iff.
Qed.

(** ** Setting the goal *)

Lemma forallb_length {A} (n : nat) (l : list (list A)) :
  forallb (λ x, length x =? n)%nat l = true
  ↔ Forall (λ x, length x = n) l.
Proof.
  rewrite forallb_Forall_true. apply Forall_iff. intros x.
  apply Nat.eqb_eq.
Qed.

Lemma setGoalPosition_refuses L goals offsets tolerances :
  ¬ goal_format_ok goals offsets tolerances →
  setGoalPosition L goals offsets tolerances = Ret (false, L).
Proof.
  intros Hbad. unfold setGoalPosition.
  destruct (decide (goals = [])) as [|Hne]; [done|].
  destruct (forallb (λ goal, length goal =? 7)%nat goals) eqn:Hg;
    simpl; [|done].
  destruct (length offsets =? length goals)%nat eqn:Hlo; simpl; [|done].
  destruct (forallb (λ offset, length offset =? 3)%nat offsets) eqn:Ho;
    simpl; [|done].
  destruct (length tolerances =? length goals)%nat eqn:Hlt; simpl; [|done].
  destruct (forallb (λ tol, length tol =? 6)%nat tolerances) eqn:Ht;
    simpl; [|done].
  exfalso. apply Hbad. unfold goal_format_ok.
  apply forallb_length in Hg. apply forallb_length in Ho.
  apply forallb_length in Ht.
  apply Nat.eqb_eq in Hlo. apply Nat.eqb_eq in Hlt.
  by split_and!.
Qed.

Lemma setGoalPosition_accepts L goals offsets tolerances :
  wf L →
  goal_format_ok goals offsets tolerances →
  ∃ x y z roll pitch yaw flag gs o0 o1 o2 os t0 t1 t2 t3 t4 t5 ts tgt,
    goals = [x; y; z; roll; pitch; yaw; flag] :: gs
    ∧ offsets = [o0; o1; o2] :: os
    ∧ tolerances = [t0; t1; t2; t3; t4; t5] :: ts
    ∧ (∃ vx vy vz,
         tipoff_translation x y z roll pitch yaw (o0, o1, o2) = (vx, vy, vz)
         ∧ tgt = [vx; vy; vz; roll; pitch; yaw])
    ∧ ∃ cell,
      pose_to_grid tgt = Ret cell
      ∧ setGoalPosition L goals offsets tolerances
        = Ret (true,
               set_m_goal
                 {| type := goal_type_of_int (double_to_int flag);
                    pose := [x; y; z; roll; pitch; yaw; flag];
                    xyz_offset := (o0, o1, o2);
                    xyz_tolerance := (t0, t1, t2);
                    rpy_tolerance := (t3, t4, t5);
                    tgt_off_pose := tgt;
                    goal_xyz := cell;
                    angles := angles (m_goal L);
                    angle_tolerances := angle_tolerances (m_goal L) |} L).
Proof.
  intros Hwf (Hne & Hg & Hlo & Ho & Hlt & Ht).
  destruct goals as [|goal0 gs]; [done|].
  destruct offsets as [|off0 os]; [done|].
  destruct tolerances as [|tol0 ts]; [done|].
  pose proof (Forall_inv Hg) as Hg0. pose proof (Forall_inv Ho) as Ho0.
  pose proof (Forall_inv Ht) as Ht0. simpl in Hg0, Ho0, Ht0.
  destruct goal0 as [|x [|y [|z [|roll [|pitch [|yaw [|flag [|? ?]]]]]]]];
    try done.
  destruct off0 as [|o0 [|o1 [|o2 [|? ?]]]]; try done.
  destruct tol0 as [|t0 [|t1 [|t2 [|t3 [|t4 [|t5 [|? ?]]]]]]]; try done.
  exists x, y, z, roll, pitch, yaw, flag, gs, o0, o1, o2, os,
    t0, t1, t2, t3, t4, t5, ts.
  unfold setGoalPosition.
  destruct (decide (_ = [])) as [|_]; [done|].
  apply forallb_length in Hg. apply forallb_length in Ho.
  apply forallb_length in Ht. rewrite Hg, Ho, Ht.
  apply Nat.eqb_eq in Hlo. apply Nat.eqb_eq in Hlt. rewrite Hlo, Hlt.
  unfold getTargetOffsetPose. cbn -[tipoff_translation zero_goal_coord].
  destruct (tipoff_translation x y z roll pitch yaw (o0, o1, o2))
    as [[vx vy] vz].
  eexists. split_and!; [done..| by exists vx, vy, vz |].
  eexists. split; [done|].
  cbn -[zero_goal_coord].
  rewrite zero_goal_coord_wf; [done|]. by do 2 apply wf_set_m_goal.
Qed.

(** X13.  On a lattice that the interface can reach, [setGoalPosition]
    answers for every input.  It accepts exactly the inputs of the asked
    format; a refused input leaves the lattice as it is, and an accepted
    one changes the goal only: the states, the table, the start and the
    goal entry stay. *)
Theorem setGoalPosition_accepts_iff L goals offsets tolerances :
  reachable L →
  ∃ b L',
    setGoalPosition L goals offsets tolerances = Ret (b, L')
    ∧ (b = true ↔ goal_format_ok goals offsets tolerances)
    ∧ (b = false → L' = L)
    ∧ m_states L' = m_states L
    ∧ m_state_to_id L' = m_state_to_id L
    ∧ m_start_entry L' = m_start_entry L
    ∧ m_goal_entry L' = m_goal_entry L.
Proof.
  intros Hreach. pose proof (reachable_wf _ Hreach) as Hwf.
  assert (Hdec : Decision (goal_format_ok goals offsets tolerances))
    by (unfold goal_format_ok; apply _).
  destruct Hdec as [Hok|Hbad].
  - destruct (setGoalPosition_accepts L _ _ _ Hwf Hok)
      as (x & y & z & roll & pitch & yaw & flag & gs & o0 & o1 & o2 & os
          & t0 & t1 & t2 & t3 & t4 & t5 & ts & tgt
          & _ & _ & _ & _ & cell & _ & Hrun).
    eexists true, _. split; [exact Hrun|]. by split_and!.
  - exists false, L. split; [by apply setGoalPosition_refuses|].
    by split_and!.
Qed.

(** X14.  [setGoalPosition] reads the first goal, the first offset and
    the first tolerance only: on an input of the asked format it does what
    it does on these three alone. *)
Theorem setGoalPosition_first_only L goal gs offset os tol ts :
  reachable L →
  goal_format_ok (goal :: gs) (offset :: os) (tol :: ts) →
  setGoalPosition L (goal :: gs) (offset :: os) (tol :: ts)
  = setGoalPosition L [goal] [offset] [tol].
Proof.
  intros Hreach Hok. pose proof (reachable_wf _ Hreach) as Hwf.
  assert (Hok1 : goal_format_ok [goal] [offset] [tol]).
  { destruct Hok as (_ & Hg & _ & Ho & _ & Ht).
    unfold goal_format_ok. split_and!; try done.
    - constructor; [by apply (Forall_inv Hg) | constructor].
    - constructor; [by apply (Forall_inv Ho) | constructor].
    - constructor; [by apply (Forall_inv Ht) | constructor]. }
  destruct (setGoalPosition_accepts L _ _ _ Hwf Hok)
    as (x & y & z & roll & pitch & yaw & flag & gs' & o0 & o1 & o2 & os'
        & t0 & t1 & t2 & t3 & t4 & t5 & ts' & tgt
        & Hg & Ho & Ht & Htgt & cell & Hcell & Hrun).
  destruct (setGoalPosition_accepts L _ _ _ Hwf Hok1)
    as (x1 & y1 & z1 & roll1 & pitch1 & yaw1 & flag1 & gs1 & o01 & o11 & o21
        & os1 & t01 & t11 & t21 & t31 & t41 & t51 & ts1 & tgt1
        & Hg1 & Ho1 & Ht1 & Htgt1 & cell1 & Hcell1 & Hrun1).
  destruct Htgt as (vx & vy & vz & Htip & ->).
  destruct Htgt1 as (vx1 & vy1 & vz1 & Htip1 & ->).
  simplify_eq.
  rewrite Htip in Htip1. injection Htip1 as <- <- <-.
  rewrite Hcell in Hcell1. injection Hcell1 as <-.
  by rewrite Hrun, Hrun1.
Qed.

Lemma computePlanningFrameFK_length L q tip :
  computePlanningFrameFK L q = Ret (Some tip) →
  length q = num_joints_ ∧ length tip = 6%nat.
Proof.
  unfold computePlanningFrameFK.
  destruct (decide (length q = num_joints_)) as [Hlen|]; [|done].
  destruct fk_iface as [fk|]; [|done].
  destruct (fk q) as [[[[[[x y] z] roll] pitch] yaw]|]; [|done].
  destruct (tipoff_translation x y z roll pitch yaw (xyz_offset (m_goal L)))
    as [[vx vy] vz].
  by intros [= <-].
Qed.

Lemma computePlanningFrameFK_defined L q :
  length q = num_joints_ → ∃ r, computePlanningFrameFK L q = Ret r.
Proof.
  intros Hlen. unfold computePlanningFrameFK.
  destruct (decide (length q = num_joints_)); [|done].
  destruct fk_iface as [fk|]; [|by eexists].
  destruct (fk q) as [[[[[[x y] z] roll] pitch] yaw]|]; [|by eexists].
  destruct (tipoff_translation x y z roll pitch yaw (xyz_offset (m_goal L)))
    as [[vx vy] vz].
  by eexists.
Qed.

Lemma setGoalConfiguration_refuses L q tols b L' :
  setGoalConfiguration L q tols = Ret (b, L') → b = false ∧ L' = L.
Proof.
  unfold setGoalConfiguration. intros Hrun.
  apply outcome_bind_Ret in Hrun as (fk & Hfk & Hrun).
  destruct fk as [tip|]; [|by injection Hrun as <- <-].
  apply computePlanningFrameFK_length in Hfk as [_ Htip].
  rewrite setGoalPosition_refuses in Hrun.
  - simpl in Hrun. by injection Hrun as <- <-.
  - intros (_ & Hg & _). apply Forall_inv in Hg. simpl in Hg. lia.
Qed.

(** X15.  [setGoalConfiguration] never accepts a goal: for every
    configuration of [num_joints_] joints it answers [false] and leaves
    the lattice as it is, whether the forward kinematics succeeds or not,
    the pose it passes on having six numbers where [setGoalPosition] asks
    for seven. *)
Theorem setGoalConfiguration_never_accepts L q tols :
  length q = num_joints_ →
  setGoalConfiguration L q tols = Ret (false, L).
Proof.
  intros Hlen.
  destruct (setGoalConfiguration L q tols) as [[b L']|] eqn:Hrun.
  - by destruct (setGoalConfiguration_refuses _ _ _ _ _ Hrun) as [-> ->].
  - unfold setGoalConfiguration in Hrun.
    destruct (computePlanningFrameFK_defined L q Hlen) as ([tip|] & Hq);
      rewrite Hq in Hrun; [|done].
    apply computePlanningFrameFK_length in Hq as [_ Htip].
    simpl in Hrun. rewrite setGoalPosition_refuses in Hrun; [done|].
    intros (_ & Hg & _). apply Forall_inv in Hg. simpl in Hg. lia.
Qed.

Lemma step_goal_angles L L' :
  wf L → step L L' →
  angles (m_goal L') = angles (m_goal L)
  ∧ angle_tolerances (m_goal L') = angle_tolerances (m_goal L).
Proof.
  intros Hwf Hstep.
  assert (Hpos : ∀ g o t b L1, setGoalPosition L g o t = Ret (b, L1) →
    angles (m_goal L1) = angles (m_goal L)
    ∧ angle_tolerances (m_goal L1) = angle_tolerances (m_goal L)).
  { intros g o t b L1 Hr.
    assert (Hdec : Decision (goal_format_ok g o t))
      by (unfold goal_format_ok; apply _).
    destruct Hdec as [Hok|Hbad].
    - destruct (setGoalPosition_accepts L _ _ _ Hwf Hok)
        as (x & y & z & roll & pitch & yaw & flag & gs & o0 & o1 & o2 & os
            & t0 & t1 & t2 & t3 & t4 & t5 & ts & tgt
            & _ & _ & _ & _ & cell & _ & Hrun).
      rewrite Hrun in Hr. by injection Hr as <- <-.
    - rewrite setGoalPosition_refuses in Hr by done. by injection Hr as <- <-. }
  destruct Hstep as
    [L q b L' Hr | L goal b L' Hr | L g o t b L' Hr | L g t b L' Hr
    | L id L' s c Hr | L id L' s c f Hr | L p ch c Hr | L ids path r Hr].
  - destruct (setStart_wf _ _ _ _ Hwf Hr) as (_ & Hg & _). by rewrite Hg.
  - unfold setGoal in Hr. destruct (type goal).
    + destruct (xyz_tolerance goal) as [[? ?] ?],
        (rpy_tolerance goal) as [[? ?] ?]. by eapply Hpos.
    + destruct (xyz_tolerance goal) as [[? ?] ?],
        (rpy_tolerance goal) as [[? ?] ?]. by eapply Hpos.
    + by destruct (setGoalConfiguration_refuses _ _ _ _ _ Hr) as [_ ->].
    + by injection Hr as <- <-.
  - by eapply Hpos.
  - by destruct (setGoalConfiguration_refuses _ _ _ _ _ Hr) as [_ ->].
  - destruct (GetSuccs_wf _ _ _ _ _ Hwf Hr) as (_ & Hg & _). by rewrite Hg.
  - destruct (GetLazySuccs_wf _ _ _ _ _ _ Hwf Hr) as (_ & Hg & _).
    by rewrite Hg.
  - done.
  - done.
Qed.

(** X16.  No sequence of calls of the interface stores goal angles: in
    every lattice that the interface can reach, the goal angles and their
    tolerances are those of the initial goal, so [getGoalConfiguration]
    returns the initial value. *)
Theorem goal_angles_never_set L :
  reachable L →
  getGoalConfiguration L = angles initial_goal
  ∧ angle_tolerances (getGoalConstraints L) = angle_tolerances initial_goal.
Proof.
  unfold getGoalConfiguration, getGoalConstraints.
  intros Hreach.
  eapply (rtc_ind_r
            (λ L, wf L ∧ angles (m_goal L) = angles initial_goal
                  ∧ angle_tolerances (m_goal L)
                    = angle_tolerances initial_goal)
            ManipLattice_new) in Hreach.
  - by destruct Hreach as (_ & ? & ?).
  - split; [apply wf_new | done].
  - intros L1 L2 _ Hstep (Hwf & Ha & Ht).
    destruct (step_goal_angles _ _ Hwf Hstep) as [Ha' Ht'].
    split; [by eapply step_wf|]. by rewrite Ha', Ht'.
Qed.

(** X17.  [setGoal] with a goal of the type [XYZ_GOAL] or [XYZ_RPY_GOAL]
    whose pose has seven numbers and whose [tgt_off_pose] has three, on a
    lattice that the interface can reach: the goal is accepted.  The type
    that is stored is the cast of the seventh number of the pose, not the
    type of the argument; the offset that is stored is read from the
    [tgt_off_pose] of the argument; the pose and the tolerances are those
    of the argument, and the stored target is the pose moved by the
    offset. *)
Theorem setGoal_pose_goal_stored L goal x y z roll pitch yaw flag o0 o1 o2 :
  reachable L →
  type goal = XYZ_GOAL ∨ type goal = XYZ_RPY_GOAL →
  pose goal = [x; y; z; roll; pitch; yaw; flag] →
  tgt_off_pose goal = [o0; o1; o2] →
  ∃ L', setGoal L goal = Ret (true, L')
    ∧ type (getGoalConstraints L') = goal_type_of_int (double_to_int flag)
    ∧ getGoal L' = pose goal
    ∧ xyz_offset (getGoalConstraints L') = (o0, o1, o2)
    ∧ xyz_tolerance (getGoalConstraints L') = xyz_tolerance goal
    ∧ rpy_tolerance (getGoalConstraints L') = rpy_tolerance goal
    ∧ getTargetOffsetPose L' [x; y; z; roll; pitch; yaw]
      = Ret (tgt_off_pose (getGoalConstraints L'))
    ∧ m_states L' = m_states L
    ∧ m_start_entry L' = m_start_entry L.
Proof.
  intros Hreach Htype Hpose Hoff.
  pose proof (reachable_wf _ Hreach) as Hwf.
  destruct (xyz_tolerance goal) as [[tx ty] tz] eqn:Hxyz.
  destruct (rpy_tolerance goal) as [[tr tp] tw] eqn:Hrpy.
  assert (Hrun : setGoal L goal
                 = setGoalPosition L [pose goal] [tgt_off_pose goal]
                     [[tx; ty; tz; tr; tp; tw]]).
  { unfold setGoal. rewrite Hxyz, Hrpy. by destruct Htype as [-> | ->]. }
  assert (Hok : goal_format_ok [pose goal] [tgt_off_pose goal]
                  [[tx; ty; tz; tr; tp; tw]]).
  { rewrite Hpose, Hoff. unfold goal_format_ok.
    split_and!; try done; by repeat constructor. }
  destruct (setGoalPosition_accepts L _ _ _ Hwf Hok)
    as (x' & y' & z' & roll' & pitch' & yaw' & flag' & gs & o0' & o1' & o2'
        & os & t0 & t1 & t2 & t3 & t4 & t5 & ts & tgt
        & Hg & Ho & Ht & (vx & vy & vz & Htip & ->) & cell & _ & Hpos).
  rewrite Hpose in Hg. rewrite Hoff in Ho. simplify_eq.
  eexists. split; [by rewrite Hrun, Hpos|].
  unfold getGoalConstraints, getGoal, getTargetOffsetPose.
  cbn -[tipoff_translation]. rewrite Htip. by split_and!.
Qed.

Lemma within_xyz_tolerance_at_target g x y z roll pitch yaw :
  tgt_off_pose g = [x; y; z; roll; pitch; yaw] →
  0 <= (xyz_tolerance g).1.1 → 0 <= (xyz_tolerance g).1.2 →
  0 <= (xyz_tolerance g).2 →
  within_xyz_tolerance g [x; y; z; roll; pitch; yaw] = Ret true.
Proof.
  intros Htgt Hx Hy Hz. unfold within_xyz_tolerance. rewrite Htgt. simpl.
  destruct (xyz_tolerance g) as [[tx ty] tz]. simpl in *.
  replace (x - x) with 0 by ring. replace (y - y) with 0 by ring.
  replace (z - z) with 0 by ring. rewrite Rabs_R0.
  f_equal. by rewrite !andb_true_iff, !Rleb_true_iff.
Qed.

(** X18.  Setting a position goal and testing it fit together.  After
    [setGoalPosition] has accepted a goal pose whose seventh number casts
    to [XYZ_GOAL], with tolerances on the position that are not negative,
    a configuration whose forward kinematics is the goal pose is a goal:
    [computePlanningFrameFK] answers with a pose that [isGoal] accepts. *)
Theorem goal_pose_is_goal L L' fk q x y z roll pitch yaw flag gs
    o0 o1 o2 os t0 t1 t2 t3 t4 t5 ts :
  reachable L →
  setGoalPosition L ([x; y; z; roll; pitch; yaw; flag] :: gs)
    ([o0; o1; o2] :: os) ([t0; t1; t2; t3; t4; t5] :: ts) = Ret (true, L') →
  0 <= t0 → 0 <= t1 → 0 <= t2 →
  goal_type_of_int (double_to_int flag) = XYZ_GOAL →
  length q = num_joints_ →
  fk_iface = Some fk →
  fk q = Some (x, y, z, roll, pitch, yaw) →
  ∃ tip, computePlanningFrameFK L' q = Ret (Some tip)
         ∧ isGoal L' q tip = Ret true.
Proof.
  intros Hreach Hset Ht0 Ht1 Ht2 Htype Hlen Hfk Hq.
  pose proof (reachable_wf _ Hreach) as Hwf.
  assert (Hdec : Decision (goal_format_ok
            ([x; y; z; roll; pitch; yaw; flag] :: gs)
            ([o0; o1; o2] :: os) ([t0; t1; t2; t3; t4; t5] :: ts)))
    by (unfold goal_format_ok; apply _).
  destruct Hdec as [Hok|Hbad];
    [|by rewrite setGoalPosition_refuses in Hset].
  destruct (setGoalPosition_accepts L _ _ _ Hwf Hok)
    as (x' & y' & z' & roll' & pitch' & yaw' & flag' & gs' & o0' & o1' & o2'
        & os' & t0' & t1' & t2' & t3' & t4' & t5' & ts' & tgt
        & Hg & Ho & Ht & (vx & vy & vz & Htip & ->) & cell & _ & Hpos).
  simplify_eq. rewrite Hpos in Hset. injection Hset as <-.
  exists [vx; vy; vz; roll'; pitch'; yaw']. split.
  - unfold computePlanningFrameFK.
    destruct (decide (length q = num_joints_)); [|done].
    rewrite Hfk, Hq. cbn -[tipoff_translation]. by rewrite Htip.
  - unfold isGoal. cbn -[within_xyz_tolerance rotation_error].
    rewrite Htype. by apply within_xyz_tolerance_at_target.
Qed.

(** ** Looking up states *)

Lemma getHashEntry_id_Some L id e :
  getHashEntry_id L id = Some e
  ↔ (0 ≤ id)%Z ∧ m_states L !! Z.to_nat id = Some e.
Proof.
  unfold getHashEntry_id. destruct (decide _) as [Hout|Hin].
  - split; [done|]. intros [Hid He]. apply lookup_lt_Some in He. lia.
  - split; [|by intros [_ ?]]. intros He. split; [lia|done].
Qed.

(** X19.  On a lattice that the interface can reach, [StateID2Angles]
    answers for every ID.  It returns a configuration exactly for the IDs
    of the table other than the ID of the goal entry; the configuration is
    the one stored in the entry, and it encodes to the coordinate of the
    entry. *)
Theorem StateID2Angles_spec L id :
  reachable L →
  ∃ r, StateID2Angles L id = Ret r
    ∧ ∀ q, r = Some q ↔
        id ≠ 0%Z ∧ ∃ e, getHashEntry_id L id = Some e ∧ state e = q
                        ∧ anglesToCoord q = Ret (coord e).
Proof.
  intros Hreach. pose proof (reachable_wf _ Hreach) as Hwf.
  destruct (wf_goal_id L Hwf) as [Hg _].
  destruct (reachable_states _ Hreach) as (l & Hl & Hd).
  unfold StateID2Angles. rewrite Hg. simpl.
  destruct (decide _) as [Hout|Hin].
  - exists None. split; [done|]. intros q. split; [done|].
    intros (_ & e & He & _). apply getHashEntry_id_Some in He as [? He].
    apply lookup_lt_Some in He. lia.
  - destruct (Z.eqb_spec id 0) as [->|Hne].
    + exists None. split; [done|]. intros q. split; [done|]. by intros [? _].
    + destruct (m_states L !! Z.to_nat id) as [e|] eqn:He.
      2:{ apply lookup_ge_None in He. lia. }
      exists (Some (state e)). unfold entry_at. rewrite He. split; [done|].
      assert (Henc : anglesToCoord (state e) = Ret (coord e)).
      { rewrite Hl in He. destruct (Z.to_nat id) as [|p] eqn:Hp; [lia|].
        simpl in He. rewrite Forall_lookup in Hd. by eapply Hd. }
      intros q. split.
      * intros [= <-]. split; [done|]. exists e.
        split_and!; [|done..]. apply getHashEntry_id_Some. split; [lia|done].
      * intros (_ & e' & He' & <- & _).
        apply getHashEntry_id_Some in He' as [_ He']. congruence.
Qed.

(** ** Setting the start *)

Lemma setStart_true L q L' :
  setStart L q = Ret (true, L') →
  ∃ tip d c cell L1 p,
    computePlanningFrameFK L q = Ret (Some tip)
    ∧ checkJointLimits q = true
    ∧ isStateValid q = (true, d)
    ∧ anglesToCoord q = Ret c
    ∧ pose_to_grid tip = Ret cell
    ∧ getOrCreateState L c q d cell = (L1, p)
    ∧ L' = set_m_start_entry (Some p) L1.
Proof.
  unfold setStart. intros Hr.
  destruct (decide _); [done|].
  apply outcome_bind_Ret in Hr as (fk & Hfk & Hr).
  destruct fk as [tip|]; [|done].
  destruct (checkJointLimits q) eqn:Hlim; simpl in Hr; [|done].
  destruct (isStateValid q) as [valid d] eqn:Hvalid.
  destruct valid; simpl in Hr; [|done].
  apply outcome_bind_Ret in Hr as (c & Hc & Hr).
  apply outcome_bind_Ret in Hr as (cell & Hcell & Hr).
  destruct (getOrCreateState L c q d cell) as [L1 p] eqn:Hgoc.
  injection Hr as <-.
  by exists tip, d, c, cell, L1, p.
Qed.

(** X20.  After [setStart] has accepted a configuration on a lattice that
    the interface can reach, the start ID is the ID of the entry of the
    coordinate of the configuration.  [getStartConfiguration] returns the
    configuration stored in that entry: the given one when the coordinate
    was new, the one of the first configuration seen in the cell
    otherwise, which encodes to the same coordinate, and the empty
    configuration of the goal entry when the coordinate is all zero. *)
Theorem setStart_start_queries L q L' :
  reachable L →
  setStart L q = Ret (true, L') →
  ∃ c p e,
    anglesToCoord q = Ret c
    ∧ getStartStateID L' = Ret (Z.of_nat p)
    ∧ getHashEntry_id L' (Z.of_nat p) = Some e
    ∧ coord e = c
    ∧ getStartConfiguration L' = Ret (state e)
    ∧ (getHashEntry L c = None → state e = q)
    ∧ (c ≠ replicate num_joints_ 0%Z → anglesToCoord (state e) = Ret c)
    ∧ (c = replicate num_joints_ 0%Z → p = 0%nat ∧ state e = []).
Proof.
  intros Hreach Hrun. pose proof (reachable_wf _ Hreach) as Hwf.
  assert (Hreach' : reachable L').
  { eapply rtc_r; [exact Hreach|]. by eapply step_setStart. }
  pose proof (reachable_wf _ Hreach') as Hwf'.
  destruct (reachable_states _ Hreach') as (l & Hl & Hd).
  destruct (setStart_true _ _ _ Hrun)
    as (tip & d & c & cell & L1 & p & Hfk & Hlim & Hvalid & Hc & Hcell
        & Hgoc & ->).
  destruct (anglesToCoord_length _ _ Hc) as [Hclen _].
  destruct (getOrCreateState_wf _ _ _ _ _ _ _ Hwf Hclen Hgoc)
    as (Hwf1 & Hext & Hget1 & (e & He & Hce & Hid) & _).
  destruct (getOrCreateState_lookup _ _ _ _ _ _ _ Hgoc) as [_ Hnew].
  exists c, p, e. simpl in *.
  assert (Hp0 : c = replicate num_joints_ 0%Z → p = 0%nat).
  { intros ->. destruct (wf_goal_coord _ Hwf1) as (e0 & He0 & Hce0).
    eapply (wf_coord_inj L1 p 0%nat e e0); eauto. congruence. }
  split_and!; try done.
  - unfold getStartStateID, entry_at. simpl. rewrite He. simpl.
    by rewrite Hid.
  - apply getHashEntry_id_Some. split; [lia|]. by rewrite Nat2Z.id.
  - unfold getStartConfiguration. simpl. by rewrite He.
  - intros Hnone. rewrite (Hnew Hnone) in He.
    destruct (getOrCreateState_cases _ _ _ _ _ _ _ Hgoc)
      as [[Hsome _]|(_ & -> & _)]; [congruence|].
    rewrite lookup_app_r in He by lia.
    rewrite Nat.sub_diag in He. by injection He as <-.
  - intros Hnz. destruct p as [|p'].
    + destruct (wf_goal_coord _ Hwf1) as (e0 & He0 & Hce0). congruence.
    + rewrite Hl in He. simpl in He. rewrite Forall_lookup in Hd.
      rewrite <- Hce. by eapply Hd.
  - intros Hz. split; [by apply Hp0|]. rewrite (Hp0 Hz) in He.
    rewrite Hl in He. by injection He as <-.
Qed.

(** X21.  A configuration whose cell has a state is not stored.  When
    [setStart] has accepted a configuration, a second call with a
    configuration of the same coordinate that passes the checks is
    accepted and leaves the lattice as the first call left it: no state
    is created, and the start entry and the configuration stored in it
    stay as they were. *)
Theorem setStart_same_cell L q L' q' tip' :
  reachable L →
  setStart L q = Ret (true, L') →
  anglesToCoord q' = anglesToCoord q →
  computePlanningFrameFK L' q' = Ret (Some tip') →
  checkJointLimits q' = true →
  (isStateValid q').1 = true →
  setStart L' q' = Ret (true, L').
Proof.
  intros Hreach Hrun Hsame Hfk' Hlim' Hvalid'.
  pose proof (reachable_wf _ Hreach) as Hwf.
  destruct (setStart_true _ _ _ Hrun)
    as (tip & d & c & cell & L1 & p & Hfk & Hlim & Hvalid & Hc & Hcell
        & Hgoc & ->).
  destruct (anglesToCoord_length _ _ Hc) as [Hclen _].
  destruct (getOrCreateState_wf _ _ _ _ _ _ _ Hwf Hclen Hgoc)
    as (Hwf1 & Hext & Hget1 & _).
  rewrite Hc in Hsame.
  destruct (anglesToCoord_length _ _ Hsame) as [_ Hq'].
  destruct (computePlanningFrameFK_length _ _ _ Hfk') as [_ Htip'].
  unfold setStart.
  destruct (decide _) as [Hshort|_]; [lia|].
  rewrite Hfk'. simpl. rewrite Hlim'. simpl.
  destruct (isStateValid q') as [valid d'] eqn:Hv. simpl in Hvalid'.
  subst valid. simpl. rewrite Hsame. simpl.
  destruct tip' as [|vx [|vy [|vz tip']]]; try done.
  unfold pose_to_grid. simpl.
  unfold getOrCreateState.
  replace (getHashEntry (set_m_start_entry (Some p) L1) c) with (Some p)
    by done.
  done.
Qed.

(** ** Successors *)

Lemma getOrCreateState_id L c s d cell L1 p succ :
  wf L → length c = num_joints_ →
  getOrCreateState L c s d cell = (L1, p) →
  entry_at L1 p = Ret succ →
  stateID succ = Z.of_nat p ∧ (p < length (m_states L1))%nat
  ∧ coord succ = c.
Proof.
  intros Hwf Hc Hgoc Hsucc.
  destruct (getOrCreateState_wf _ _ _ _ _ _ _ Hwf Hc Hgoc)
    as (_ & _ & _ & (e & He & Hce & Hid) & _).
  apply entry_at_Ret in Hsucc. assert (succ = e) as -> by congruence.
  split_and!; [done| |done]. by eapply lookup_lt_Some.
Qed.

Lemma GetSuccs_actions_shape pe ps actions :
  ∀ L succs costs L' succs' costs',
  wf L →
  GetSuccs_actions pe ps actions L succs costs = Ret (L', succs', costs') →
  ∃ nids ncosts,
    succs' = succs ++ nids ∧ costs' = costs ++ ncosts
    ∧ length ncosts = length nids
    ∧ Forall (λ c, c = cost_multiplier_) ncosts
    ∧ Forall (λ s, (0 ≤ s < Z.of_nat (length (m_states L')))%Z) nids.
Proof.
  induction actions as [|action rest IH];
    intros L succs costs L' succs' costs' Hwf Hrun.
  - simpl in Hrun. injection Hrun as <- <- <-.
    exists [], []. by rewrite !app_nil_r.
  - simpl in Hrun.
    apply outcome_bind_Ret in Hrun as ([valid d] & Hchk & Hrun).
    destruct valid; [|by eapply IH].
    apply outcome_bind_Ret in Hrun as (back & Hback & Hrun).
    apply outcome_bind_Ret in Hrun as (c & Hc & Hrun).
    apply outcome_bind_Ret in Hrun as (fk & Hfk & Hrun).
    destruct fk as [tgt|]; [|by eapply IH].
    apply outcome_bind_Ret in Hrun as (endeff & Hcell & Hrun).
    destruct (getOrCreateState L c back d endeff) as [L1 p] eqn:Hgoc.
    apply outcome_bind_Ret in Hrun as (ig & Hig & Hrun).
    apply outcome_bind_Ret in Hrun as (g & Hg & Hrun).
    apply outcome_bind_Ret in Hrun as (succ & Hsucc & Hrun).
    destruct (anglesToCoord_length _ _ Hc) as [Hclen _].
    destruct (getOrCreateState_wf _ _ _ _ _ _ _ Hwf Hclen Hgoc)
      as (Hwf1 & _).
    destruct (getOrCreateState_id _ _ _ _ _ _ _ _ Hwf Hclen Hgoc Hsucc)
      as (Hid & Hp & _).
    destruct (wf_goal_id _ Hwf1) as [Hg0 _].
    assert (g = 0%Z) as -> by congruence.
    destruct (GetSuccs_actions_states _ _ _ _ _ _ _ _ _ Hrun) as (l & Hl).
    destruct (IH _ _ _ _ _ _ Hwf1 Hrun)
      as (nids & ncosts & -> & -> & Hlen & Hcosts & Hids).
    eexists (_ :: nids), (_ :: ncosts).
    rewrite <- !app_assoc. split_and!; try done.
    + simpl. by rewrite Hlen.
    + by constructor.
    + constructor; [|done]. rewrite Hl, length_app.
      destruct ig; lia.
Qed.

Lemma GetLazySuccs_actions_shape se actions :
  ∀ L ids costs flags L' ids' costs' flags',
  wf L →
  GetLazySuccs_actions se actions L ids costs flags
    = Ret (L', ids', costs', flags') →
  ∃ nids ncosts nflags,
    ids' = ids ++ nids ∧ costs' = costs ++ ncosts ∧ flags' = flags ++ nflags
    ∧ length ncosts = length nids ∧ length nflags = length nids
    ∧ Forall (λ c, c = cost_multiplier_) ncosts
    ∧ Forall (λ f, f = false) nflags
    ∧ Forall (λ s, (0 ≤ s < Z.of_nat (length (m_states L')))%Z) nids.
Proof.
  induction actions as [|action rest IH];
    intros L ids costs flags L' ids' costs' flags' Hwf Hrun.
  - simpl in Hrun. injection Hrun as <- <- <- <-.
    exists [], [], []. by rewrite !app_nil_r.
  - simpl in Hrun.
    apply outcome_bind_Ret in Hrun as (back & Hback & Hrun).
    apply outcome_bind_Ret in Hrun as (c & Hc & Hrun).
    apply outcome_bind_Ret in Hrun as (fk & Hfk & Hrun).
    destruct fk as [tgt|]; [|by eapply IH].
    apply outcome_bind_Ret in Hrun as (endeff & Hcell & Hrun).
    apply outcome_bind_Ret in Hrun as (ig & Hig & Hrun).
    destruct (getOrCreateState L c back 0.0 endeff) as [L1 p] eqn:Hgoc.
    apply outcome_bind_Ret in Hrun as (g & Hg & Hrun).
    apply outcome_bind_Ret in Hrun as (succ & Hsucc & Hrun).
    destruct (anglesToCoord_length _ _ Hc) as [Hclen _].
    destruct (getOrCreateState_wf _ _ _ _ _ _ _ Hwf Hclen Hgoc)
      as (Hwf1 & _).
    destruct (getOrCreateState_id _ _ _ _ _ _ _ _ Hwf Hclen Hgoc Hsucc)
      as (Hid & Hp & _).
    destruct (wf_goal_id _ Hwf1) as [Hg0 _].
    assert (g = 0%Z) as -> by congruence.
    destruct (GetLazySuccs_actions_states _ _ _ _ _ _ _ _ _ _ Hrun)
      as (l & Hl & _).
    destruct (IH _ _ _ _ _ _ _ _ Hwf1 Hrun)
      as (nids & ncosts & nflags & -> & -> & -> & Hlen & Hlenf & Hcosts
          & Hflags & Hids).
    eexists (_ :: nids), (_ :: ncosts), (_ :: nflags).
    rewrite <- !app_assoc. split_and!; try done.
    + simpl. by rewrite Hlen.
    + simpl. by rewrite Hlenf.
    + by constructor.
    + by constructor.
    + constructor; [|done]. rewrite Hl, length_app.
      destruct ig; lia.
Qed.

Lemma valid_id_entry L s :
  wf L → (0 ≤ s < Z.of_nat (length (m_states L)))%Z →
  ∃ e, getHashEntry_id L s = Some e ∧ stateID e = s.
Proof.
  intros Hwf Hs.
  destruct (m_states L !! Z.to_nat s) as [e|] eqn:He.
  2:{ apply lookup_ge_None in He. lia. }
  exists e. split; [apply getHashEntry_id_Some; split; [lia|done]|].
  destruct (wf_states L Hwf _ _ He) as (-> & _). lia.
Qed.

(** X22.  What [GetSuccs] returns on a lattice that the interface can
    reach: as many costs as successors, every cost the cost multiplier,
    every successor the ID of an entry of the table after the call; the
    goal and the start are as before, and the entries of the table before
    the call are kept. *)
Theorem GetSuccs_shape L id L' succs costs :
  reachable L →
  GetSuccs L id = Ret (L', succs, costs) →
  length costs = length succs
  ∧ (∀ c, c ∈ costs → c = cost_multiplier_)
  ∧ (∀ s, s ∈ succs → ∃ e, getHashEntry_id L' s = Some e ∧ stateID e = s)
  ∧ getGoalConstraints L' = getGoalConstraints L
  ∧ m_start_entry L' = m_start_entry L
  ∧ ∃ l, m_states L' = m_states L ++ l.
Proof.
  intros Hreach Hrun. pose proof (reachable_wf _ Hreach) as Hwf.
  destruct (GetSuccs_wf _ _ _ _ _ Hwf Hrun) as (Hwf' & Hg & _ & Hl & _).
  assert (Hshape : length costs = length succs
    ∧ Forall (λ c, c = cost_multiplier_) costs
    ∧ Forall (λ s, (0 ≤ s < Z.of_nat (length (m_states L')))%Z) succs
    ∧ m_start_entry L' = m_start_entry L).
  { unfold GetSuccs in Hrun.
    destruct (decide _); [|done].
    destruct actionSpace as [apply|]; [|by injection Hrun as <- <- <-].
    apply outcome_bind_Ret in Hrun as (g & Hgid & Hrun).
    destruct (id =? g)%Z; [by injection Hrun as <- <- <-|].
    apply outcome_bind_Ret in Hrun as (parent & Hparent & Hrun).
    destruct (decide _); [|done].
    destruct (apply (state parent)) as [actions|];
      [|by injection Hrun as <- <- <-].
    apply outcome_bind_Ret in Hrun as ([[L1 s1] c1] & Hloop & Hrun).
    injection Hrun as <- <- <-.
    destruct (GetSuccs_actions_shape _ _ _ _ _ _ _ _ _ Hwf Hloop)
      as (nids & ncosts & -> & -> & Hlen & Hcosts & Hids).
    destruct (GetSuccs_actions_spec _ _ _ _ _ _ _ _ _ Hwf Hloop)
      as (_ & _ & Hstart & _).
    by split_and!. }
  destruct Hshape as (Hlen & Hcosts & Hids & Hstart).
  rewrite Forall_forall in Hcosts. rewrite Forall_forall in Hids.
  split_and!; try done.
  intros s Hs. apply valid_id_entry; auto.
Qed.

(** X23.  What [GetLazySuccs] returns on a lattice that the interface
    can reach: as many costs and flags as successors, every cost the cost
    multiplier, every flag [false], every successor the ID of an entry of
    the table after the call; the goal and the start are as before, and
    the entries of the table before the call are kept. *)
Theorem GetLazySuccs_shape L id L' succs costs flags :
  reachable L →
  GetLazySuccs L id = Ret (L', succs, costs, flags) →
  length costs = length succs ∧ length flags = length succs
  ∧ (∀ c, c ∈ costs → c = cost_multiplier_)
  ∧ (∀ f, f ∈ flags → f = false)
  ∧ (∀ s, s ∈ succs → ∃ e, getHashEntry_id L' s = Some e ∧ stateID e = s)
  ∧ getGoalConstraints L' = getGoalConstraints L
  ∧ m_start_entry L' = m_start_entry L
  ∧ ∃ l, m_states L' = m_states L ++ l.
Proof.
  intros Hreach Hrun. pose proof (reachable_wf _ Hreach) as Hwf.
  destruct (GetLazySuccs_wf _ _ _ _ _ _ Hwf Hrun) as (Hwf' & Hg & _ & Hl & _).
  assert (Hshape : length costs = length succs ∧ length flags = length succs
    ∧ Forall (λ c, c = cost_multiplier_) costs
    ∧ Forall (λ f, f = false) flags
    ∧ Forall (λ s, (0 ≤ s < Z.of_nat (length (m_states L')))%Z) succs
    ∧ m_start_entry L' = m_start_entry L).
  { unfold GetLazySuccs in Hrun.
    destruct (decide _); [|done].
    destruct actionSpace as [apply|]; [|by injection Hrun as <- <- <- <-].
    apply outcome_bind_Ret in Hrun as (g & Hgid & Hrun).
    destruct (id =? g)%Z; [by injection Hrun as <- <- <- <-|].
    apply outcome_bind_Ret in Hrun as (parent & Hparent & Hrun).
    destruct (decide _); [|done].
    destruct (apply (state parent)) as [actions|];
      [|by injection Hrun as <- <- <- <-].
    apply outcome_bind_Ret in Hrun as ([[[L1 s1] c1] f1] & Hloop & Hrun).
    injection Hrun as <- <- <- <-.
    destruct (GetLazySuccs_actions_shape _ _ _ _ _ _ _ _ _ _ Hwf Hloop)
      as (nids & ncosts & nflags & -> & -> & -> & Hlen & Hlenf & Hcosts
          & Hflags & Hids).
    destruct (GetLazySuccs_actions_spec _ _ _ _ _ _ _ _ _ _ Hwf Hloop)
      as (_ & _ & Hstart & _).
    by split_and!. }
  destruct Hshape as (Hlen & Hlenf & Hcosts & Hflags & Hids & Hstart).
  rewrite Forall_forall in Hcosts. rewrite Forall_forall in Hflags.
  rewrite Forall_forall in Hids.
  split_and!; try done.
  intros s Hs. apply valid_id_entry; auto.
Qed.

Lemma GetSuccs_actions_again pe ps actions :
  ∀ L succs costs L' succs' costs' M,
  wf L →
  GetSuccs_actions pe ps actions L succs costs = Ret (L', succs', costs') →
  wf M → m_goal M = m_goal L →
  (∀ c p, getHashEntry L' c = Some p → getHashEntry M c = Some p) →
  ∃ nids ncosts,
    succs' = succs ++ nids ∧ costs' = costs ++ ncosts
    ∧ ∀ s0 c0, GetSuccs_actions pe ps actions M s0 c0
               = Ret (M, s0 ++ nids, c0 ++ ncosts).
Proof.
  induction actions as [|action rest IH];
    intros L succs costs L' succs' costs' M Hwf Hrun HwfM HgM Htable.
  - simpl in Hrun. injection Hrun as <- <- <-.
    exists [], []. rewrite !app_nil_r. split_and!; try done.
    intros s0 c0. by rewrite !app_nil_r.
  - simpl in Hrun.
    apply outcome_bind_Ret in Hrun as ([valid d] & Hchk & Hrun).
    destruct valid.
    2:{ destruct (IH _ _ _ _ _ _ M Hwf Hrun HwfM HgM Htable)
          as (nids & ncosts & -> & -> & Hagain).
        exists nids, ncosts. split_and!; try done.
        intros s0 c0. simpl. rewrite Hchk. simpl. apply Hagain. }
    apply outcome_bind_Ret in Hrun as (back & Hback & Hrun).
    apply outcome_bind_Ret in Hrun as (c & Hc & Hrun).
    apply outcome_bind_Ret in Hrun as (fk & Hfk & Hrun).
    destruct fk as [tgt|].
    2:{ destruct (IH _ _ _ _ _ _ M Hwf Hrun HwfM HgM Htable)
          as (nids & ncosts & -> & -> & Hagain).
        exists nids, ncosts. split_and!; try done.
        intros s0 c0. simpl. rewrite Hchk. simpl. rewrite Hback. simpl.
        rewrite Hc. simpl.
        rewrite (computePlanningFrameFK_goal L M back HgM), Hfk. simpl.
        apply Hagain. }
    apply outcome_bind_Ret in Hrun as (endeff & Hcell & Hrun).
    destruct (getOrCreateState L c back d endeff) as [L1 p] eqn:Hgoc.
    apply outcome_bind_Ret in Hrun as (ig & Hig & Hrun).
    apply outcome_bind_Ret in Hrun as (g & Hg & Hrun).
    apply outcome_bind_Ret in Hrun as (succ & Hsucc & Hrun).
    destruct (anglesToCoord_length _ _ Hc) as [Hclen _].
    destruct (getOrCreateState_wf _ _ _ _ _ _ _ Hwf Hclen Hgoc)
      as (Hwf1 & (Hg1 & _) & Hget1 & _).
    destruct (getOrCreateState_id _ _ _ _ _ _ _ _ Hwf Hclen Hgoc Hsucc)
      as (Hid & _ & _).
    destruct (wf_goal_id _ Hwf1) as [Hg0 _].
    assert (g = 0%Z) as -> by congruence.
    destruct (GetSuccs_actions_spec _ _ _ _ _ _ _ _ _ Hwf1 Hrun)
      as (_ & Hext & _).
    assert (HgM1 : m_goal M = m_goal L1) by congruence.
    destruct (IH _ _ _ _ _ _ M Hwf1 Hrun HwfM HgM1 Htable)
      as (nids & ncosts & -> & -> & Hagain).
    pose proof (Htable _ _ (extends_getHashEntry _ _ _ _ Hext Hget1)) as HgetM.
    assert (HsuccM : ∃ e, entry_at M p = Ret e ∧ stateID e = Z.of_nat p).
    { unfold getHashEntry in HgetM.
      destruct (m_state_to_id M !! c) as [[p0 id0]|] eqn:HcM; [|done].
      simpl in HgetM. injection HgetM as ->.
      destruct (wf_table M HwfM _ _ _ HcM) as (e & He & _).
      destruct (wf_states M HwfM _ _ He) as (HidM & _).
      exists e. split; [by apply entry_at_Ret | done]. }
    destruct HsuccM as (e & HeM & HidM).
    eexists (_ :: nids), (_ :: ncosts).
    rewrite <- !app_assoc. split_and!; try done.
    intros s0 c0. simpl. rewrite Hchk. simpl. rewrite Hback. simpl.
    rewrite Hc. simpl.
    rewrite (computePlanningFrameFK_goal L M back HgM), Hfk. simpl.
    rewrite Hcell. simpl.
    unfold getOrCreateState. rewrite HgetM.
    rewrite (isGoal_goal L1 M back tgt HgM1), Hig. simpl.
    destruct (wf_goal_id _ HwfM) as [HgM0 _]. rewrite HgM0. simpl.
    rewrite HeM. simpl. rewrite HidM, <- Hid.
    rewrite Hagain. by rewrite <- !app_assoc.
Qed.

(** X24.  Expanding a state a second time changes nothing but the log of
    the expanded states: on the lattice that a call of [GetSuccs] leaves,
    the same call returns the same successors and the same costs, and it
    creates no state. *)
Theorem GetSuccs_again L id L' succs costs :
  reachable L →
  GetSuccs L id = Ret (L', succs, costs) →
  ∃ L'', GetSuccs L' id = Ret (L'', succs, costs)
         ∧ m_states L'' = m_states L'
         ∧ m_state_to_id L'' = m_state_to_id L'
         ∧ getGoalConstraints L'' = getGoalConstraints L'
         ∧ m_start_entry L'' = m_start_entry L'.
Proof.
  intros Hreach Hrun. pose proof (reachable_wf _ Hreach) as Hwf.
  destruct (GetSuccs_wf _ _ _ _ _ Hwf Hrun) as (Hwf' & Hext).
  unfold GetSuccs in Hrun.
  destruct (decide _) as [Hrange|]; [|done].
  destruct actionSpace as [apply|] eqn:Hspace.
  2:{ injection Hrun as <- <- <-. exists L. unfold GetSuccs.
      rewrite Hspace. by destruct (decide _). }
  apply outcome_bind_Ret in Hrun as (g & Hgid & Hrun).
  destruct (wf_goal_id _ Hwf) as [Hg0 _].
  assert (g = 0%Z) as -> by congruence.
  destruct (id =? 0)%Z eqn:Hid0.
  { injection Hrun as <- <- <-. exists L. unfold GetSuccs.
    rewrite Hspace, Hg0. simpl. rewrite Hid0. by destruct (decide _). }
  apply outcome_bind_Ret in Hrun as (parent & Hparent & Hrun).
  destruct (decide _) as [Hcoord|]; [|done].
  destruct (apply (state parent)) as [actions|] eqn:Happly.
  2:{ injection Hrun as <- <- <-. exists L. unfold GetSuccs.
      rewrite Hspace, Hg0. simpl. rewrite Hid0, Hparent. simpl.
      rewrite Happly.
      destruct (decide _); [|done]. by destruct (decide _). }
  apply outcome_bind_Ret in Hrun as ([[L1 s1] c1] & Hloop & Hrun).
  injection Hrun as <- <- <-.
  set (M := set_m_expanded_states (m_expanded_states L1 ++ [id]) L1) in *.
  destruct (GetSuccs_actions_spec _ _ _ _ _ _ _ _ _ Hwf Hloop)
    as (Hwf1 & Hext1 & _).
  assert (HgM : m_goal M = m_goal L) by apply Hext1.
  destruct (GetSuccs_actions_again _ _ _ _ _ _ _ _ _ M Hwf Hloop Hwf' HgM)
    as (nids & ncosts & Hs & Hc & Hagain); [done|].
  simpl in Hs, Hc. subst s1 c1.
  eexists. split.
  - unfold GetSuccs. rewrite Hspace.
    destruct (wf_goal_id _ Hwf') as [HgM0 _]. rewrite HgM0. simpl.
    rewrite Hid0.
    assert (HparentM : state_by_id M id = Ret parent).
    { unfold state_by_id in *. destruct (decide (0 ≤ id)%Z); [|done].
      apply entry_at_Ret. apply entry_at_Ret in Hparent.
      by eapply (extends_lookup L L1). }
    rewrite HparentM. simpl. rewrite Happly.
    destruct (decide _) as [_|Hout].
    2:{ destruct Hext1 as (_ & _ & (l & Hl) & _). exfalso. apply Hout.
        simpl. rewrite Hl, length_app. lia. }
    destruct (decide _); [|done].
    rewrite (Hagain [] []). simpl. done.
  - by split_and!.
Qed.

Lemma checkAction_defined ps action :
  action ≠ [] → ∃ r, checkAction ps action = Ret r.
Proof.
  intros Hne. unfold checkAction.
  destruct (negb (forallb checkJointLimits action)); [by eexists|].
  destruct action as [|first rest]; [done|].
  destruct (isStateToStateValid ps first) as [valid d].
  destruct (negb valid); by eexists.
Qed.

Lemma action_back_nonempty action back :
  action_back action = Ret back → action ≠ [].
Proof. intros Hback ->. done. Qed.

(** What a run of the loop of [GetLazySuccs] has evaluated for each
    action. *)
Lemma GetLazySuccs_actions_ran se actions :
  ∀ L ids costs flags L' ids' costs' flags',
  wf L →
  GetLazySuccs_actions se actions L ids costs flags
    = Ret (L', ids', costs', flags') →
  ∀ a, a ∈ actions →
    ∃ back c fk,
      action_back a = Ret back ∧ anglesToCoord back = Ret c
      ∧ computePlanningFrameFK L back = Ret fk
      ∧ ∀ tip, fk = Some tip →
          (∃ b, isGoal L back tip = Ret b)
          ∧ ∃ p, getHashEntry L' c = Some p.
Proof.
  induction actions as [|action rest IH];
    intros L ids costs flags L' ids' costs' flags' Hwf Hrun a Ha.
  - by apply elem_of_nil in Ha.
  - simpl in Hrun.
    apply outcome_bind_Ret in Hrun as (back & Hback & Hrun).
    apply outcome_bind_Ret in Hrun as (c & Hc & Hrun).
    apply outcome_bind_Ret in Hrun as (fk & Hfk & Hrun).
    destruct fk as [tgt|].
    + apply outcome_bind_Ret in Hrun as (endeff & Hcell & Hrun).
      apply outcome_bind_Ret in Hrun as (ig & Hig & Hrun).
      destruct (getOrCreateState L c back 0.0 endeff) as [L1 p] eqn:Hgoc.
      apply outcome_bind_Ret in Hrun as (g & Hg & Hrun).
      apply outcome_bind_Ret in Hrun as (succ & Hsucc & Hrun).
      destruct (anglesToCoord_length _ _ Hc) as [Hclen _].
      destruct (getOrCreateState_wf _ _ _ _ _ _ _ Hwf Hclen Hgoc)
        as (Hwf1 & (Hg1 & _) & Hget1 & _).
      destruct (GetLazySuccs_actions_spec _ _ _ _ _ _ _ _ _ _ Hwf1 Hrun)
        as (_ & Hext & _).
      apply elem_of_cons in Ha as [->|Ha].
      * exists back, c, (Some tgt). split_and!; try done.
        intros tip [= <-]. split; [by exists ig|].
        exists p. by eapply extends_getHashEntry.
      * destruct (IH _ _ _ _ _ _ _ _ Hwf1 Hrun a Ha)
          as (back' & c' & fk' & Hb' & Hc' & Hfk' & Hrest).
        exists back', c', fk'. split_and!; try done.
        -- by rewrite <- (computePlanningFrameFK_goal L L1 back' Hg1).
        -- intros tip Htip. destruct (Hrest tip Htip) as [(b & Hb) Hp].
           split; [|done]. exists b.
           by rewrite <- (isGoal_goal L L1 back' tip Hg1).
    + apply elem_of_cons in Ha as [->|Ha].
      * exists back, c, None. by split_and!.
      * by eapply IH.
Qed.

Lemma GetTrueCost_actions_defined L pe ps ce cc ge actions :
  (∀ a, a ∈ actions →
     ∃ back c fk,
       action_back a = Ret back ∧ anglesToCoord back = Ret c
       ∧ computePlanningFrameFK L back = Ret fk
       ∧ ∀ tip, fk = Some tip →
           (∃ b, isGoal L back tip = Ret b)
           ∧ ∃ p, getHashEntry L c = Some p) →
  ∀ best, ∃ v, GetTrueCost_actions L pe ps ce cc ge actions best = Ret v.
Proof.
  induction actions as [|action rest IH]; intros Hran best.
  - by eexists.
  - assert (Hrest : ∀ best', ∃ v,
      GetTrueCost_actions L pe ps ce cc ge rest best' = Ret v).
    { apply IH. intros a Ha. apply Hran. by apply list_elem_of_further. }
    destruct (Hran action) as (back & c & fk & Hback & Hc & Hfk & Htip);
      [apply list_elem_of_here|].
    simpl. rewrite Hback. simpl. rewrite Hc. simpl. rewrite Hfk. simpl.
    destruct fk as [tip|]; [|by apply Hrest].
    destruct (Htip tip eq_refl) as [(b & Hb) (p & Hp)].
    destruct (checkAction_defined ps action
                (action_back_nonempty _ _ Hback)) as ([valid d] & Hchk).
    destruct ge.
    + rewrite Hb. simpl. destruct b; [|by apply Hrest].
      rewrite Hchk. simpl. destruct valid; [|by apply Hrest].
      rewrite Hp. simpl. by apply Hrest.
    + simpl. destruct (bool_decide (c = cc)); [|by apply Hrest].
      rewrite Hchk. simpl. destruct valid; [|by apply Hrest].
      rewrite Hb. simpl. by apply Hrest.
Qed.

(** X25.  The lazy expansion and the evaluation of its edges fit
    together.  For every successor that [GetLazySuccs] has reported for a
    state, on a lattice that the interface can reach, [GetTrueCost]
    answers on the lattice that the expansion leaves, with the cost
    multiplier or with -1. *)
Theorem GetLazySuccs_then_GetTrueCost L id L' succs costs flags s :
  reachable L →
  (cost_multiplier_ < INT_MAX)%Z →
  GetLazySuccs L id = Ret (L', succs, costs, flags) →
  s ∈ succs →
  ∃ v, GetTrueCost L' id s = Ret v
       ∧ (v = cost_multiplier_ ∨ v = (-1)%Z).
Proof.
  intros Hreach Hcm Hrun Hs. pose proof (reachable_wf _ Hreach) as Hwf.
  destruct (GetLazySuccs_wf _ _ _ _ _ _ Hwf Hrun) as (Hwf' & Hext).
  unfold GetLazySuccs in Hrun.
  destruct (decide _) as [Hrange|]; [|done].
  destruct actionSpace as [apply|] eqn:Hspace.
  2:{ injection Hrun as <- <- <- <-. by apply elem_of_nil in Hs. }
  apply outcome_bind_Ret in Hrun as (g & Hgid & Hrun).
  destruct (id =? g)%Z.
  { injection Hrun as <- <- <- <-. by apply elem_of_nil in Hs. }
  apply outcome_bind_Ret in Hrun as (parent & Hparent & Hrun).
  destruct (decide _) as [Hcoord|]; [|done].
  destruct (apply (state parent)) as [actions|] eqn:Happly.
  2:{ injection Hrun as <- <- <- <-. by apply elem_of_nil in Hs. }
  apply outcome_bind_Ret in Hrun as ([[[L1 s1] c1] f1] & Hloop & Hrun).
  injection Hrun as <- <- <- <-.
  set (M := set_m_expanded_states (m_expanded_states L1 ++ [id]) L1) in *.
  destruct (GetLazySuccs_actions_spec _ _ _ _ _ _ _ _ _ _ Hwf Hloop)
    as (Hwf1 & Hext1 & _).
  assert (HgM : m_goal M = m_goal L) by apply Hext1.
  assert (HsM : m_states M = m_states L1) by done.
  assert (HtM : ∀ c, getHashEntry M c = getHashEntry L1 c) by done.
  clearbody M.
  destruct (GetLazySuccs_actions_shape _ _ _ _ _ _ _ _ _ _ Hwf Hloop)
    as (nids & ncosts & nflags & Hids & _ & _ & _ & _ & _ & _ & Hvalid).
  simpl in Hids. subst s1.
  rewrite Forall_forall in Hvalid. specialize (Hvalid s Hs).
  rewrite <- HsM in Hvalid.
  pose proof (GetLazySuccs_actions_ran _ _ _ _ _ _ _ _ _ _ Hwf Hloop) as Hran.
  assert (HparentM : state_by_id M id = Ret parent).
  { unfold state_by_id in *. destruct (decide (0 ≤ id)%Z); [|done].
    apply entry_at_Ret. apply entry_at_Ret in Hparent. rewrite HsM.
    by eapply (extends_lookup L L1). }
  destruct (m_states M !! Z.to_nat s) as [child|] eqn:Hchild.
  2:{ apply lookup_ge_None in Hchild. lia. }
  assert (HchildM : state_by_id M s = Ret child).
  { unfold state_by_id. destruct (decide (0 ≤ s)%Z); [|lia].
    by apply entry_at_Ret. }
  destruct (wf_states M Hwf' _ _ Hchild) as (_ & Hclen & _).
  set (ge := bool_decide (Some (Z.to_nat s) = m_goal_entry M)).
  destruct (GetTrueCost_actions_defined M (Z.to_nat id) (state parent)
              (Z.to_nat s) (coord child) ge actions) with (best := INT_MAX)
    as (best & Hbest).
  { intros a Ha.
    destruct (Hran a Ha) as (back & c & fk & Hb & Hc & Hfk & Hrest).
    exists back, c, fk. split_and!; try done.
    - by rewrite (computePlanningFrameFK_goal L M back HgM).
    - intros tip Htip. destruct (Hrest tip Htip) as [(b & Hig) Hp].
      split; [|by rewrite HtM].
      exists b. by rewrite (isGoal_goal L M back tip HgM). }
  assert (Hrun : GetTrueCost M id s
                 = Ret (if (best =? INT_MAX)%Z then (-1)%Z else best)).
  { unfold GetTrueCost.
    destruct (decide _) as [_|Hout].
    2:{ destruct Hext1 as (_ & _ & (l & Hl) & _). exfalso. apply Hout.
        rewrite HsM, Hl in *. rewrite length_app in *. lia. }
    rewrite HparentM. simpl. rewrite HchildM. simpl.
    destruct (decide _) as [_|Hout].
    2:{ exfalso. apply Hout. split; [done|]. by rewrite Hclen. }
    rewrite Hspace, Happly. fold ge. rewrite Hbest. simpl.
    by destruct (best =? INT_MAX)%Z. }
  eexists. split; [exact Hrun|].
  destruct (GetTrueCost_actions_spec _ _ _ _ _ _ _ _ _ Hbest)
    as [[_ ->]|[_ ->]].
  - right. by rewrite Z.eqb_refl.
  - left. rewrite Z.min_r by lia.
    destruct (Z.eqb_spec cost_multiplier_ INT_MAX); [lia|done].
Qed.

(** ** Extracting a path *)

Lemma StateID2Angles_wf L id :
  wf L →
  StateID2Angles L id
  = Ret (if decide (0 < id)%Z then state <$> m_states L !! Z.to_nat id
         else None).
Proof.
  intros Hwf. destruct (wf_goal_id L Hwf) as [Hg _].
  unfold StateID2Angles. rewrite Hg. simpl.
  destruct (decide (id < 0 ∨ _)%Z) as [Hout|Hin].
  - destruct (decide (0 < id)%Z); [|done].
    rewrite (proj2 (lookup_ge_None _ _)); [done | lia].
  - destruct (Z.eqb_spec id 0) as [->|Hne]; [done|].
    destruct (decide (0 < id)%Z); [|lia].
    unfold entry_at.
    destruct (m_states L !! Z.to_nat id) as [e|] eqn:He; [done|].
    apply lookup_ge_None in He. lia.
Qed.

(** X26.  [extractPath] on a path of a single ID, on a lattice that the
    interface can reach: it answers and never writes the output path,
    also when it returns [true].  It returns [true] exactly when the ID,
    or the start ID in place of the ID of the goal entry, is the ID of an
    entry other than the goal entry. *)
Theorem extractPath_single L id path0 :
  reachable L →
  ∃ b, extractPath L [id] path0 = Ret (b, path0)
    ∧ (b = true ↔
         (id ≠ 0%Z ∧ ∃ e, getHashEntry_id L id = Some e)
         ∨ (id = 0%Z ∧ ∃ p, m_start_entry L = Some p ∧ p ≠ 0%nat)).
Proof.
  intros Hreach. pose proof (reachable_wf _ Hreach) as Hwf.
  destruct (wf_goal_id L Hwf) as [_ Hg].
  unfold extractPath. rewrite Hg. cbn -[StateID2Angles].
  destruct (Z.eqb_spec id 0) as [->|Hne].
  - unfold getStartStateID.
    destruct (m_start_entry L) as [p|] eqn:Hstart.
    + pose proof (wf_start L Hwf p Hstart) as Hp.
      destruct (m_states L !! p) as [e|] eqn:He.
      2:{ apply lookup_ge_None in He. lia. }
      destruct (wf_states L Hwf _ _ He) as (Hid & _).
      unfold entry_at. rewrite He. cbn -[StateID2Angles].
      rewrite StateID2Angles_wf by done. cbn -[StateID2Angles]. rewrite Hid.
      destruct (decide (0 < Z.of_nat p)%Z) as [Hpos|Hzero].
      * rewrite Nat2Z.id, He. cbn -[StateID2Angles]. exists true. split; [done|].
        split; [|done]. intros _. right. split; [done|].
        exists p. split; [done|lia].
      * exists false. split; [done|]. split; [done|].
        intros [[? _]|(_ & p' & [= <-] & Hp')]; [done|lia].
    + cbn -[StateID2Angles]. rewrite StateID2Angles_wf by done.
      destruct (decide (0 < -1)%Z); [lia|].
      exists false. split; [done|]. split; [done|].
      by intros [[? _]|(_ & p' & ? & _)].
  - cbn -[StateID2Angles]. rewrite StateID2Angles_wf by done.
    destruct (decide (0 < id)%Z) as [Hpos|Hneg].
    + destruct (m_states L !! Z.to_nat id) as [e|] eqn:He; cbn -[StateID2Angles].
      * exists true. split; [done|]. split; [|done]. intros _. left.
        split; [done|]. exists e. apply getHashEntry_id_Some.
        split; [lia|done].
      * exists false. split; [done|]. split; [done|].
        intros [(_ & e & He')|[? _]]; [|done].
        apply getHashEntry_id_Some in He' as [_ He']. congruence.
    + exists false. split; [done|]. split; [done|].
      intros [(_ & e & He')|[? _]]; [|done].
      apply getHashEntry_id_Some in He' as [? He'].
      lia.
Qed.

Lemma extractPath_rest_goal_free L apply ids :
  wf L →
  ∀ prev_id opath,
  (0 < prev_id)%Z →
  Forall (λ id, (0 < id < Z.of_nat (length (m_states L)))%Z) ids →
  ∃ new,
    extractPath_rest L apply prev_id ids opath = Ret (Some (opath ++ new))
    ∧ Forall2 (λ id q, ∃ e, getHashEntry_id L id = Some e ∧ state e = q)
        ids new.
Proof.
  intros Hwf. destruct (wf_goal_id L Hwf) as [_ Hg].
  induction ids as [|curr rest IH]; intros prev_id opath Hprev Hids.
  - exists []. rewrite app_nil_r. split; [done|constructor].
  - apply Forall_cons in Hids as [Hcurr Hrest].
    destruct (m_states L !! Z.to_nat curr) as [e|] eqn:He.
    2:{ apply lookup_ge_None in He. lia. }
    destruct (IH curr (opath ++ [state e])) as (new & Hrun & Hnew);
      [lia|done|].
    exists (state e :: new). split.
    + cbn -[StateID2Angles]. rewrite Hg. cbn -[StateID2Angles].
      destruct (Z.eqb_spec prev_id 0); [lia|].
      destruct (Z.eqb_spec curr 0); [lia|].
      rewrite StateID2Angles_wf by done.
      destruct (decide (0 < curr)%Z); [|lia].
      rewrite He. simpl. rewrite Hrun. by rewrite <- app_assoc.
    + constructor; [|done]. exists e. split; [|done].
      apply getHashEntry_id_Some. split; [lia|done].
Qed.

(** X27.  [extractPath] on a path of two or more IDs of entries other
    than the goal entry, on a lattice that the interface can reach and
    with an action space: it returns [true], and the path it writes is the
    list of the configurations stored in the entries, in the order of the
    IDs. *)
Theorem extractPath_goal_free L idpath path0 :
  reachable L →
  actionSpace ≠ None →
  (2 ≤ length idpath)%nat →
  Forall (λ id, (0 < id < Z.of_nat (length (m_states L)))%Z) idpath →
  ∃ path,
    extractPath L idpath path0 = Ret (true, path)
    ∧ Forall2 (λ id q, ∃ e, getHashEntry_id L id = Some e ∧ state e = q)
        idpath path.
Proof.
  intros Hreach Hspace Hlen Hids. pose proof (reachable_wf _ Hreach) as Hwf.
  destruct (wf_goal_id L Hwf) as [_ Hg].
  destruct idpath as [|id0 [|id1 rest]]; [simpl in Hlen; lia..|].
  apply Forall_cons in Hids as [Hid0 Hrest].
  destruct (m_states L !! Z.to_nat id0) as [e|] eqn:He.
  2:{ apply lookup_ge_None in He. lia. }
  destruct actionSpace as [apply|] eqn:Happly; [|done].
  destruct (extractPath_rest_goal_free L apply (id1 :: rest) Hwf id0
              [state e]) as (new & Hrun & Hnew); [lia|done|].
  exists (state e :: new). split.
  - unfold extractPath. rewrite Hg. cbn -[StateID2Angles extractPath_rest].
    destruct (Z.eqb_spec id0 0); [lia|].
    rewrite StateID2Angles_wf by done.
    destruct (decide (0 < id0)%Z); [|lia].
    rewrite He. cbn -[extractPath_rest]. rewrite Happly.
    by rewrite Hrun.
  - constructor; [|done]. exists e. split; [|done].
    apply getHashEntry_id_Some. split; [lia|done].
Qed.

Lemma extractPath_rest_shape L apply ids :
  wf L →
  ∀ prev_id opath path,
  extractPath_rest L apply prev_id ids opath = Ret (Some path) →
  ∃ new,
    path = opath ++ new ∧ length new = length ids
    ∧ (ids ≠ [] → prev_id ≠ 0%Z)
    ∧ (∀ j, ids !! j = Some 0%Z → S j = length ids)
    ∧ (∀ j id, ids !! j = Some id → id ≠ 0%Z →
         ∃ e, getHashEntry_id L id = Some e ∧ new !! j = Some (state e)).
Proof.
  intros Hwf. destruct (wf_goal_id L Hwf) as [_ Hg].
  induction ids as [|curr rest IH]; intros prev_id opath path Hrun.
  - simpl in Hrun. injection Hrun as <-. exists [].
    rewrite app_nil_r. by split_and!.
  - cbn -[StateID2Angles] in Hrun. rewrite Hg in Hrun.
    cbn -[StateID2Angles] in Hrun.
    destruct (Z.eqb_spec prev_id 0) as [|Hprev]; [done|].
    assert (Hstep : ∃ q, extractPath_rest L apply curr rest (opath ++ [q])
                         = Ret (Some path)
                         ∧ (curr ≠ 0%Z →
                            ∃ e, getHashEntry_id L curr = Some e
                                 ∧ q = state e)).
    { destruct (Z.eqb_spec curr 0) as [->|Hcurr].
      - apply outcome_bind_Ret in Hrun as (prev & Hprev_entry & Hrun).
        destruct (apply (state prev)) as [actions|]; [|done].
        apply outcome_bind_Ret in Hrun as (best & Hbest & Hrun).
        destruct best as [p|]; [|done].
        apply outcome_bind_Ret in Hrun as (e & He & Hrun).
        by exists (state e).
      - rewrite StateID2Angles_wf in Hrun by done.
        destruct (decide (0 < curr)%Z) as [Hpos|]; [|done].
        destruct (m_states L !! Z.to_nat curr) as [e|] eqn:He; [|done].
        simpl in Hrun. exists (state e). split; [done|].
        intros _. exists e. split; [|done].
        apply getHashEntry_id_Some. split; [lia|done]. }
    destruct Hstep as (q & Hrest & Hq).
    destruct (IH _ _ _ Hrest) as (new & -> & Hlen & Hne & Hgoal & Hother).
    exists (q :: new). rewrite <- app_assoc. split_and!; try done.
    + simpl. by rewrite Hlen.
    + intros [|j] Hj; simpl in *.
      * injection Hj as ->. destruct rest as [|r rest']; [done|].
        by destruct Hne.
      * by rewrite (Hgoal j Hj).
    + intros [|j] id Hj Hid; simpl in *.
      * injection Hj as ->. destruct (Hq Hid) as (e & He & ->). by exists e.
      * by eapply Hother.
Qed.

(** X28.  The shape of a path that [extractPath] accepts, for a path of
    two or more IDs on a lattice that the interface can reach: the path
    written has one configuration for each ID, the ID of the goal entry
    occurs at the last position only, and the configuration at the
    position of any other ID is the one stored in the entry of that ID. *)
Theorem extractPath_shape L idpath path0 path :
  reachable L →
  (2 ≤ length idpath)%nat →
  extractPath L idpath path0 = Ret (true, path) →
  length path = length idpath
  ∧ (∀ i, idpath !! i = Some 0%Z → S i = length idpath)
  ∧ (∀ i id, idpath !! i = Some id → id ≠ 0%Z →
       ∃ e, getHashEntry_id L id = Some e ∧ path !! i = Some (state e)).
Proof.
  intros Hreach Hlen Hrun. pose proof (reachable_wf _ Hreach) as Hwf.
  destruct (wf_goal_id L Hwf) as [_ Hg].
  destruct idpath as [|id0 [|id1 rest]]; [simpl in Hlen; lia..|].
  unfold extractPath in Hrun. rewrite Hg in Hrun.
  cbn -[StateID2Angles extractPath_rest] in Hrun.
  destruct (Z.eqb_spec id0 0) as [|Hid0]; [done|].
  rewrite StateID2Angles_wf in Hrun by done.
  destruct (decide (0 < id0)%Z) as [Hpos|]; [|done].
  destruct (m_states L !! Z.to_nat id0) as [e|] eqn:He; [|done].
  cbn -[extractPath_rest] in Hrun.
  destruct actionSpace as [apply|]; [|done].
  apply outcome_bind_Ret in Hrun as (r & Hrest & Hrun).
  destruct r as [opath|]; [|done]. injection Hrun as <-.
  destruct (extractPath_rest_shape L apply _ Hwf _ _ _ Hrest)
    as (new & -> & Hnew & _ & Hgoal & Hother).
  split_and!.
  - simpl in *. by rewrite Hnew.
  - intros [|i] Hi; simpl in Hi; [congruence|].
    rewrite (Hgoal i Hi). done.
  - intros [|i] id Hi Hid; simpl in Hi.
    + injection Hi as <-. exists e. split; [|done].
      apply getHashEntry_id_Some. split; [lia|done].
    + by apply (Hother i).
Qed.

(** ** The cost of an action *)


Lemma getActionCost_joints_defined sad from_config to_config joints :
  ∀ m0,
  (∃ m, getActionCost_joints sad from_config to_config joints m0 = Ret m)
  ↔ ∀ i, i ∈ joints → i ≠ 4%nat →
      (i < length from_config)%nat ∧ (i < length to_config)%nat.
Proof.
  induction joints as [|i rest IH]; intros m0.
  - split; [|by eexists]. intros _ i Hi. by apply elem_of_nil in Hi.
  - simpl. destruct (decide (i = 4%nat)) as [->|Hi].
    + rewrite IH. split.
      * intros Hall j Hj Hj4. apply elem_of_cons in Hj as [->|Hj]; [done|].
        by apply Hall.
      * intros Hall j Hj Hj4. apply Hall; [|done].
        by apply list_elem_of_further.
    + unfold at_.
      destruct (from_config !! i) as [f|] eqn:Hf.
      2:{ split; [by intros [? ?]|]. intros Hall.
          destruct (Hall i) as [Hlt _]; [apply list_elem_of_here|done|].
          apply lookup_ge_None in Hf. lia. }
      destruct (to_config !! i) as [t|] eqn:Ht.
      2:{ split; [by intros [? ?]|]. intros Hall.
          destruct (Hall i) as [_ Hlt]; [apply list_elem_of_here|done|].
          apply lookup_ge_None in Ht. lia. }
      simpl. rewrite IH. split.
      * intros Hall j Hj Hj4. apply elem_of_cons in Hj as [->|Hj].
        -- split; by eapply lookup_lt_Some.
        -- by apply Hall.
      * intros Hall j Hj Hj4. apply Hall; [|done].
        by apply list_elem_of_further.
Qed.

(** X29.  When [getActionCost] answers, for an offset of a motion
    primitive that is not zero.  For two configurations of different sizes
    it returns -1.  For two configurations of the same size it reads the
    joints 0 to 5 of both, whatever the number of joints: it answers
    exactly when they have six joints or more. *)
Theorem getActionCost_defined offset sad from_config to_config d :
  offset ≠ 0 →
  (length from_config ≠ length to_config →
   getActionCost offset sad from_config to_config d = Ret (-1)%Z)
  ∧ (length from_config = length to_config →
     (∃ c, getActionCost offset sad from_config to_config d = Ret c)
     ↔ (6 ≤ length from_config)%nat).
Proof.
  intros _. unfold getActionCost. split; intros Hlen.
  - by destruct (decide _).
  - destruct (decide _) as [|_]; [done|].
    pose proof (getActionCost_joints_defined sad from_config to_config
                  (seq 0 6) 0) as Hdef.
    split.
    + intros [c Hc]. apply outcome_bind_Ret in Hc as (m & Hm & _).
      destruct (proj1 Hdef (ex_intro _ m Hm) 5%nat) as [Hlt _]; [|done|lia].
      apply elem_of_seq. lia.
    + intros H6. destruct (proj2 Hdef) as [m Hm].
      { intros i Hi _. apply elem_of_seq in Hi. lia. }
      rewrite Hm. by eexists.
Qed.


(** ** The true cost of an edge, for every edge *)

Lemma within_xyz_tolerance_defined g tip :
  (3 ≤ length (tgt_off_pose g))%nat → (3 ≤ length tip)%nat →
  ∃ b, within_xyz_tolerance g tip = Ret b.
Proof.
  intros Hg Htip. unfold within_xyz_tolerance.
  destruct tip as [|p0 [|p1 [|p2 tip]]]; simpl in Htip; try lia.
  destruct (tgt_off_pose g) as [|t0 [|t1 [|t2 tgt]]]; simpl in Hg; try lia.
  simpl. destruct (xyz_tolerance g) as [[tx ty] tz]. by eexists.
Qed.

Lemma rotation_error_defined g tip :
  (6 ≤ length (tgt_off_pose g))%nat → (6 ≤ length tip)%nat →
  ∃ theta, rotation_error g tip = Ret theta.
Proof.
  intros Hg Htip. unfold rotation_error.
  destruct tip as [|p0 [|p1 [|p2 [|p3 [|p4 [|p5 tip]]]]]];
    simpl in Htip; try lia.
  destruct (tgt_off_pose g) as [|t0 [|t1 [|t2 [|t3 [|t4 [|t5 tgt]]]]]];
    simpl in Hg; try lia.
  by eexists.
Qed.

Lemma isGoal_defined L back tip :
  goal_test_ready (m_goal L) →
  length back = num_joints_ → length tip = 6%nat →
  ∃ b, isGoal L back tip = Ret b.
Proof.
  unfold goal_test_ready, isGoal. intros Hready Hback Htip.
  destruct (type (m_goal L)).
  - apply within_xyz_tolerance_defined; lia.
  - destruct (within_xyz_tolerance_defined (m_goal L) tip) as (near & ->);
      [lia..|].
    cbn -[rotation_error]. destruct near; [|by eexists].
    destruct (rotation_error_defined (m_goal L) tip) as (theta & ->);
      [lia..|].
    by eexists.
  - destruct Hready as [Hangles Htols].
    destruct (isGoal_joints_spec (angles (m_goal L)) back
                (angle_tolerances (m_goal L))) as (b & Hb & _); [lia..|].
    by exists b.
  - by eexists.
Qed.

Lemma GetTrueCost_actions_returns L pe ps ce cc ge actions :
  goal_test_ready (m_goal L) →
  (∀ a, a ∈ actions →
     ∃ back, action_back a = Ret back ∧ length back = num_joints_) →
  (ge = true →
   ∀ a, a ∈ actions → qualifies L ps true cc a →
     ∃ back c p, action_back a = Ret back ∧ anglesToCoord back = Ret c
                 ∧ getHashEntry L c = Some p) →
  ∀ best, ∃ v, GetTrueCost_actions L pe ps ce cc ge actions best = Ret v.
Proof.
  intros Hready. induction actions as [|action rest IH];
    intros Hshape Hstates best.
  - by eexists.
  - assert (Hrest : ∀ best', ∃ v,
      GetTrueCost_actions L pe ps ce cc ge rest best' = Ret v).
    { apply IH.
      - intros a Ha. apply Hshape. by apply list_elem_of_further.
      - intros Hge a Ha. apply (Hstates Hge). by apply list_elem_of_further. }
    destruct (Hshape action) as (back & Hback & Hlen);
      [apply list_elem_of_here|].
    assert (Hc : anglesToCoord back = Ret (imap anglesToCoord_joint back)).
    { unfold anglesToCoord. by destruct (decide _). }
    destruct (computePlanningFrameFK_defined L back Hlen) as (fk & Hfk).
    simpl. rewrite Hback. simpl. rewrite Hc. simpl. rewrite Hfk. simpl.
    destruct fk as [tip|]; [|by apply Hrest].
    destruct (computePlanningFrameFK_length _ _ _ Hfk) as [_ Htip].
    destruct (isGoal_defined L back tip Hready Hlen Htip) as (b & Hb).
    destruct (checkAction_defined ps action
                (action_back_nonempty _ _ Hback)) as ([valid d] & Hchk).
    destruct ge.
    + rewrite Hb. simpl. destruct b; [|by apply Hrest].
      rewrite Hchk. simpl. destruct valid; [|by apply Hrest].
      destruct (Hstates eq_refl action) as (back' & c & p & Hback' & Hc' & Hp).
      { apply list_elem_of_here. }
      { by exists back, tip, d. }
      assert (back' = back) as -> by congruence.
      assert (c = imap anglesToCoord_joint back) as -> by congruence.
      rewrite Hp. simpl. by apply Hrest.
    + simpl. destruct (bool_decide _); [|by apply Hrest].
      rewrite Hchk. simpl. destruct valid; [|by apply Hrest].
      rewrite Hb. simpl. by apply Hrest.
Qed.

(** C2 (amended).  On a lattice that the interface can reach, for the IDs
    of two states of the table, [GetTrueCost] returns the least edge cost
    over the actions enumerated from the configuration of the parent whose
    last waypoint has a planning frame pose, that reach the child (the
    last waypoint meets the goal when the child is the reserved goal
    entry, and has the coordinate of the child otherwise) and that pass
    [checkAction]; it returns [-1] when there is no such action, which
    covers an action space that is absent or fails.

    The hypotheses are what the function asserts or indexes: the last
    waypoint of every action is a configuration of [num_joints_] joints
    (the assertions of [anglesToCoord] and [computePlanningFrameFK]), and
    the stored goal has what [isGoal] reads.  Two cases are left out: an
    edge to the goal entry with an action that meets the goal and passes
    [checkAction] whose destination has no state in the table, where
    [assert(succ_entry)] fails, and a cost multiplier that is not below
    [INT_MAX], the initial value of the running minimum. *)
Theorem GetTrueCost_least_cost L parentID childID parent child :
  reachable L →
  (cost_multiplier_ < INT_MAX)%Z →
  state_by_id L parentID = Ret parent →
  state_by_id L childID = Ret child →
  goal_test_ready (m_goal L) →
  (∀ a, a ∈ enumerated_actions (state parent) →
     ∃ back, action_back a = Ret back ∧ length back = num_joints_) →
  (Some (Z.to_nat childID) = m_goal_entry L →
   ∀ a, a ∈ enumerated_actions (state parent) →
     qualifies L (state parent) true (coord child) a →
     ∃ back c p, action_back a = Ret back ∧ anglesToCoord back = Ret c
                 ∧ getHashEntry L c = Some p) →
  ∃ v, GetTrueCost L parentID childID = Ret v
       ∧ least_cost_or_minus_one
           (qualifies L (state parent)
              (bool_decide (Some (Z.to_nat childID) = m_goal_entry L))
              (coord child))
           (enumerated_actions (state parent))
           (λ _, cost (Z.to_nat parentID) (Z.to_nat childID)
                   (bool_decide (Some (Z.to_nat childID) = m_goal_entry L)))
           v.
Proof.
  intros Hreach Hcm Hparent Hchild Hready Hshape Hstates.
  pose proof (reachable_wf _ Hreach) as Hwf.
  assert (Hreturns : ∃ v, GetTrueCost L parentID childID = Ret v).
  { unfold state_by_id in Hparent, Hchild.
    destruct (decide (0 ≤ parentID)%Z) as [Hp0|]; [|done].
    destruct (decide (0 ≤ childID)%Z) as [Hc0|]; [|done].
    apply entry_at_Ret in Hparent as Hpe. apply entry_at_Ret in Hchild as Hce.
    destruct (wf_states L Hwf _ _ Hpe) as (_ & Hplen & _).
    destruct (wf_states L Hwf _ _ Hce) as (_ & Hclen & _).
    apply lookup_lt_Some in Hpe. apply lookup_lt_Some in Hce.
    unfold GetTrueCost.
    destruct (decide _) as [_|Hout]; [|exfalso; apply Hout; lia].
    unfold state_by_id.
    destruct (decide (0 ≤ parentID)%Z); [|done].
    destruct (decide (0 ≤ childID)%Z); [|done].
    rewrite Hparent. simpl. rewrite Hchild. simpl.
    destruct (decide _) as [_|Hout]; [|exfalso; apply Hout; lia].
    unfold enumerated_actions in Hshape, Hstates.
    destruct actionSpace as [apply|]; [|by eexists].
    destruct (apply (state parent)) as [actions|]; [|by eexists].
    simpl in Hshape, Hstates.
    destruct (GetTrueCost_actions_returns L (Z.to_nat parentID)
                (state parent) (Z.to_nat childID) (coord child)
                (bool_decide (Some (Z.to_nat childID) = m_goal_entry L))
                actions Hready Hshape) with (best := INT_MAX) as (best & ->).
    { intros Hge. apply Hstates. by apply bool_decide_eq_true in Hge. }
    simpl. destruct (best =? INT_MAX)%Z; by eexists. }
  destruct Hreturns as (v & Hv). exists v. split; [done|].
  destruct (GetTrueCost_spec L parentID childID v Hcm Hv)
    as (parent' & child' & Hparent' & Hchild' & Hleast).
  assert (parent' = parent) as -> by congruence.
  assert (child' = child) as -> by congruence.
  done.
Qed.

End Properties.

(** * The lattice with one joint *)

Module ExampleFacts.
Import Example.
#[local] Existing Instance collaborators.

#[local] Arguments tipoff_translation : simpl never.
#[local] Arguments double_to_int : simpl never.
#[local] Arguments normalize_angle : simpl never.
#[local] Arguments quat_of_rpy : simpl never.
#[local] Arguments quat_dot : simpl never.
#[local] Arguments isGoal : simpl never.
#[local] Arguments computePlanningFrameFK : simpl never.

Lemma double_to_int_1 : double_to_int 1 = 1%Z.
Proof. apply double_to_int_eq; simpl; lra. Qed.

Lemma setGoal_pose_goal :
  setGoal ManipLattice_new pose_goal = Ret (true, with_pose_goal).
Proof.
  unfold setGoal, setGoalPosition. simpl.
  rewrite double_to_int_1. simpl.
  unfold with_pose_goal, stored_pose_goal, set_m_goal, set_m_states. simpl.
  repeat f_equal; ring.
Qed.

Lemma with_pose_goal_reachable : reachable with_pose_goal.
Proof.
  eapply rtc_l; [|apply rtc_refl].
  eapply step_setGoal. apply setGoal_pose_goal.
Qed.

(** C5 (as the code has it).  Under the pose goal with the yaw [π] and
    the rotation tolerance [0.05], [isGoal] accepts a tip at the goal
    position whose yaw is [-π/2]: the dot product of the two quaternions
    is [-1/√2], the code takes [acos] of it without the absolute value
    and normalises [3π/2] to [-π/2], which is below the tolerance.  The
    rotation error of the specification is [π/2], far above it. *)
Theorem isGoal_accepts_quarter_turn :
  reachable with_pose_goal
  ∧ isGoal with_pose_goal [0] quarter_turn_pose = Ret true
  ∧ rotation_error_spec (m_goal with_pose_goal) quarter_turn_pose
    = Ret (PI / 2)
  ∧ (rpy_tolerance (m_goal with_pose_goal)).1.1 < PI / 2.
Proof.
  pose proof PI_RGT_0 as Hpi. pose proof PI_4 as Hpi4.
  split_and!.
  - apply with_pose_goal_reachable.
  - unfold isGoal, within_xyz_tolerance, rotation_error. simpl.
    replace (0 - 0) with 0 by lra. rewrite Rabs_R0.
    unfold Rleb. destruct (Rle_dec 0 (1 / 10)) as [_|Hn]; [|lra]. simpl.
    rewrite quat_dot_quarter_turn, acos_opp_inv_sqrt2.
    rewrite normalize_angle_upper by lra.
    unfold Rltb.
    destruct (Rlt_dec (2.0 * (3 * PI / 4) - 2 * PI) 0.05) as [_|Hn]; [done|].
    lra.
  - unfold rotation_error_spec. simpl.
    rewrite quat_dot_quarter_turn, Rabs_Ropp, Rabs_pos_eq.
    + rewrite acos_inv_sqrt2, normalize_angle_lower by lra. f_equal. lra.
    + left. apply Rinv_0_lt_compat, sqrt_lt_R0. lra.
  - simpl. pose proof PI2_1 as Hpi2. lra.
Qed.

Lemma anglesToCoord_joint_one (x : R) (z : Z) :
  (0 ≤ z)%Z → IZR z <= x + 3 / 2 < IZR z + 1 → anglesToCoord_joint 0 x = z.
Proof.
  intros Hz Hx. unfold anglesToCoord_joint. simpl.
  rewrite (double_to_int_eq _ z); [done | by apply IZR_le | lra].
Qed.

Lemma anglesToCoord_one (x : R) (z : Z) :
  (0 ≤ z)%Z → IZR z <= x + 3 / 2 < IZR z + 1 → anglesToCoord [x] = Ret [z].
Proof.
  intros Hz Hx. unfold anglesToCoord. simpl.
  by rewrite (anglesToCoord_joint_one x z).
Qed.

Lemma FK_one L (x : R) :
  xyz_offset (m_goal L) = (0, 0, 0) → x < 5 / 4 →
  computePlanningFrameFK L [x] = Ret (Some [x; 0; 0; 0; 0; 0]).
Proof.
  intros Hoff Hx. unfold computePlanningFrameFK. simpl.
  destruct (Rlt_dec x (5 / 4)) as [_|Hn]; [|lra].
  by rewrite Hoff, tipoff_translation_zero.
Qed.

Lemma FK_one_fails L (x : R) :
  5 / 4 <= x → computePlanningFrameFK L [x] = Ret None.
Proof.
  intros Hx. unfold computePlanningFrameFK. simpl.
  destruct (Rlt_dec x (5 / 4)) as [Hn|_]; [lra|done].
Qed.

Lemma actions_near (x : R) :
  x < 1 / 2 → enumerated_actions [x] = [[[1]]].
Proof.
  intros Hx. unfold enumerated_actions. simpl.
  destruct (Rlt_dec x (1 / 2)) as [_|Hn]; [done|lra].
Qed.

Lemma actions_middle (x : R) :
  1 / 2 <= x < 1 → enumerated_actions [x] = [[[-1]]].
Proof.
  intros Hx. unfold enumerated_actions. simpl.
  destruct (Rlt_dec x (1 / 2)) as [Hn|_]; [lra|].
  destruct (Rlt_dec x 1) as [_|Hn]; [done|lra].
Qed.

Lemma actions_far (x : R) :
  1 <= x → enumerated_actions [x] = [[[13 / 10]]].
Proof.
  intros Hx. unfold enumerated_actions. simpl.
  destruct (Rlt_dec x (1 / 2)) as [Hn|_]; [lra|].
  destruct (Rlt_dec x 1) as [Hn|_]; [lra|done].
Qed.

Lemma setStart_new_0 : setStart ManipLattice_new [0] = Ret (true, start_only).
Proof.
  unfold setStart. simpl.
  rewrite FK_one by (done || lra). simpl.
  rewrite (anglesToCoord_joint_one 0 1) by (simpl; lia || lra).
  reflexivity.
Qed.

Lemma setStart_new_65 :
  setStart ManipLattice_new [6 / 5] = Ret (true, one_state).
Proof.
  unfold setStart. simpl.
  rewrite FK_one by (done || lra). simpl.
  rewrite (anglesToCoord_joint_one (6 / 5) 2) by (simpl; lia || lra).
  reflexivity.
Qed.

Lemma setStart_one_0 : setStart one_state [0] = Ret (true, two_states).
Proof.
  unfold setStart. simpl.
  rewrite FK_one by (done || lra). simpl.
  rewrite (anglesToCoord_joint_one 0 1) by (simpl; lia || lra).
  reflexivity.
Qed.

Lemma double_to_int_0 : double_to_int 0 = 0%Z.
Proof. apply double_to_int_eq; simpl; lra. Qed.

Lemma setGoal_position_goal :
  setGoal two_states position_goal = Ret (true, with_goal).
Proof.
  unfold setGoal, setGoalPosition. simpl.
  rewrite double_to_int_0. simpl.
  unfold with_goal, stored_goal, set_m_goal, set_m_states. simpl.
  repeat f_equal; ring.
Qed.

Lemma start_only_reachable : reachable start_only.
Proof.
  eapply rtc_l; [|apply rtc_refl].
  eapply step_setStart. apply setStart_new_0.
Qed.

Lemma with_goal_reachable : reachable with_goal.
Proof.
  eapply rtc_l; [eapply step_setStart; apply setStart_new_65|].
  eapply rtc_l; [eapply step_setStart; apply setStart_one_0|].
  eapply rtc_l; [eapply step_setGoal; apply setGoal_position_goal|].
  apply rtc_refl.
Qed.

Lemma isGoal_stored_goal L :
  m_goal L = stored_goal → isGoal L [1] [1; 0; 0; 0; 0; 0] = Ret true.
Proof.
  intros Hg. unfold isGoal, within_xyz_tolerance. rewrite Hg. simpl.
  replace (1 - 1) with 0 by lra. replace (0 - 0) with 0 by lra.
  rewrite Rabs_R0. unfold Rleb.
  destruct (Rle_dec 0 (1 / 10)) as [_|Hn]; [done|lra].
Qed.

Lemma near_goal :
  Rleb (Rabs (1 - 1)) (1 / 10) && Rleb (Rabs (0 - 0)) (1 / 10)
  && Rleb (Rabs (0 - 0)) (1 / 10) = true.
Proof.
  replace (1 - 1) with 0 by lra. replace (0 - 0) with 0 by lra.
  rewrite Rabs_R0. unfold Rleb.
  destruct (Rle_dec 0 (1 / 10)) as [_|Hn]; [done|lra].
Qed.

Lemma with_goal_lookup s d cell :
  getOrCreateState with_goal [2%Z] s d cell = (with_goal, 1%nat).
Proof. reflexivity. Qed.

Lemma GetSuccs_with_goal :
  GetSuccs with_goal 2
  = Ret (set_m_expanded_states [2%Z] with_goal, [0%Z], [1000%Z]).
Proof.
  unfold GetSuccs. simpl.
  destruct (Rlt_dec 0 (1 / 2)) as [_|Hn]; [|lra]. simpl.
  rewrite (anglesToCoord_joint_one 1 2) by (simpl; lia || lra). simpl.
  rewrite FK_one by (done || lra). simpl.
  rewrite with_goal_lookup.
  rewrite isGoal_stored_goal by done. reflexivity.
Qed.

Lemma GetLazySuccs_start_only :
  GetLazySuccs start_only 1
  = Ret (lazily_expanded, [2%Z], [1000%Z], [false]).
Proof.
  unfold GetLazySuccs. simpl.
  destruct (Rlt_dec 0 (1 / 2)) as [_|Hn]; [|lra]. simpl.
  rewrite (anglesToCoord_joint_one 1 2) by (simpl; lia || lra). simpl.
  rewrite FK_one by (done || lra). simpl.
  reflexivity.
Qed.

Lemma GetTrueCost_goal_edge : GetTrueCost with_goal 2 0 = Ret 1000%Z.
Proof.
  unfold GetTrueCost. simpl.
  destruct (Rlt_dec 0 (1 / 2)) as [_|Hn]; [|lra]. simpl.
  rewrite (anglesToCoord_joint_one 1 2) by (simpl; lia || lra). simpl.
  rewrite FK_one by (done || lra). simpl.
  rewrite near_goal. reflexivity.
Qed.

Lemma GetTrueCost_self_edge : GetTrueCost with_goal 1 1 = Ret (-1)%Z.
Proof.
  unfold GetTrueCost. simpl.
  destruct (Rlt_dec (6 / 5) (1 / 2)) as [Hn|_]; [lra|].
  destruct (Rlt_dec (6 / 5) 1) as [Hn|_]; [lra|]. simpl.
  rewrite FK_one_fails by lra. reflexivity.
Qed.

Lemma extractPath_with_goal :
  extractPath with_goal [2; 0]%Z [] = Ret (true, [[0]; [6 / 5]]).
Proof.
  unfold extractPath. simpl.
  destruct (Rlt_dec 0 (1 / 2)) as [_|Hn]; [|lra]. simpl.
  rewrite FK_one by (done || lra). simpl.
  rewrite ?near_goal. simpl.
  rewrite (anglesToCoord_joint_one 1 2) by (simpl; lia || lra).
  reflexivity.
Qed.

(** ** The theorems at this lattice *)

Lemma GetSuccs_edges_witness :
  reachable with_goal
  ∧ GetSuccs with_goal 2
    = Ret (set_m_expanded_states [2%Z] with_goal, [0%Z], [1000%Z])
  ∧ (length [1000%Z] = length [0%Z]
     ∧ ∀ k s, [0%Z] !! k = Some s →
         ∃ parent apply actions,
           state_by_id with_goal 2 = Ret parent
           ∧ actionSpace = Some apply
           ∧ apply (state parent) = Some actions
           ∧ succ_edge with_goal (set_m_expanded_states [2%Z] with_goal)
               (state parent) actions s).
Proof.
  split; [apply with_goal_reachable|].
  split; [apply GetSuccs_with_goal|].
  apply (GetSuccs_edges with_goal 2 _ _ _
           with_goal_reachable GetSuccs_with_goal).
Defined.

Lemma GetTrueCost_spec_witness :
  (cost_multiplier_ < INT_MAX)%Z
  ∧ GetTrueCost with_goal 2 0 = Ret 1000%Z
  ∧ ∃ parent child,
      state_by_id with_goal 2 = Ret parent
      ∧ state_by_id with_goal 0 = Ret child
      ∧ least_cost_or_minus_one
          (qualifies with_goal (state parent)
             (bool_decide (Some (Z.to_nat 0) = m_goal_entry with_goal))
             (coord child))
          (enumerated_actions (state parent))
          (λ _, cost (Z.to_nat 2) (Z.to_nat 0)
                  (bool_decide (Some (Z.to_nat 0) = m_goal_entry with_goal)))
          1000%Z.
Proof.
  assert (Hcm : (cost_multiplier_ < INT_MAX)%Z) by reflexivity.
  split; [exact Hcm|].
  split; [apply GetTrueCost_goal_edge|].
  apply (GetTrueCost_spec with_goal 2 0 1000 Hcm GetTrueCost_goal_edge).
Defined.

Lemma extractPath_goal_entry_witness :
  (cost_multiplier_ < INT_MAX)%Z
  ∧ (2 ≤ length [2; 0]%Z)%nat
  ∧ getGoalStateID with_goal = Ret 0%Z
  ∧ extractPath with_goal [2; 0]%Z [] = Ret (true, [[0]; [6 / 5]])
  ∧ ((true = true →
      ∀ i, [2; 0]%Z !! S i = Some 0%Z →
        ∃ prev_id e,
          [2; 0]%Z !! i = Some prev_id ∧ prev_id ≠ 0%Z
          ∧ goal_successor with_goal prev_id e
          ∧ [[0]; [6 / 5]] !! S i = Some (state e))
     ∧ ((∃ i prev_id prev,
           [2; 0]%Z !! S i = Some 0%Z ∧ [2; 0]%Z !! i = Some prev_id
           ∧ state_by_id with_goal prev_id = Ret prev
           ∧ ∀ a, a ∈ enumerated_actions (state prev) →
                  ¬ qualifies with_goal (state prev) true [] a) →
        true = false)).
Proof.
  assert (Hcm : (cost_multiplier_ < INT_MAX)%Z) by reflexivity.
  assert (Hgoal : getGoalStateID with_goal = Ret 0%Z) by reflexivity.
  split; [exact Hcm|].
  split; [simpl; lia|].
  split; [exact Hgoal|].
  split; [apply extractPath_with_goal|].
  apply (extractPath_goal_entry with_goal [2; 0]%Z [] 0 true [[0]; [6 / 5]]
           Hcm (le_n 2) Hgoal extractPath_with_goal).
Defined.

Lemma setGoal_joint_state_refused_witness :
  type joint_goal = JOINT_STATE_GOAL
  ∧ computePlanningFrameFK ManipLattice_new (angles joint_goal)
    = Ret (Some [0; 0; 0; 0; 0; 0])
  ∧ setGoal ManipLattice_new joint_goal = Ret (false, ManipLattice_new).
Proof.
  assert (Hfk : computePlanningFrameFK ManipLattice_new (angles joint_goal)
                = Ret (Some [0; 0; 0; 0; 0; 0])).
  { apply FK_one; [reflexivity | lra]. }
  split; [reflexivity|].
  split; [exact Hfk|].
  apply (setGoal_joint_state_refused ManipLattice_new joint_goal
           [0; 0; 0; 0; 0; 0] eq_refl Hfk).
Defined.

Lemma setStart_spec_witness :
  (length [0] ≤ num_joints_)%nat
  ∧ (setStart_refuses [0]
     → setStart ManipLattice_new [0] = Ret (false, ManipLattice_new))
  ∧ (¬ setStart_refuses [0] → setStart_accepts ManipLattice_new [0]).
Proof.
  split; [simpl; lia|].
  apply (setStart_spec ManipLattice_new [0]). simpl. lia.
Defined.

Lemma goal_entry_in_table_witness :
  reachable ManipLattice_new
  ∧ ∃ p, m_goal_entry ManipLattice_new = Some p
         ∧ getHashEntry ManipLattice_new (replicate num_joints_ 0%Z) = Some p.
Proof.
  split; [apply rtc_refl|].
  apply (goal_entry_in_table ManipLattice_new). apply rtc_refl.
Defined.

Lemma GetSuccs_goal_absorbing_witness :
  reachable with_goal
  ∧ ∃ goal_id, getGoalStateID with_goal = Ret goal_id
               ∧ GetSuccs with_goal goal_id = Ret (with_goal, [], []).
Proof.
  split; [apply with_goal_reachable|].
  apply (GetSuccs_goal_absorbing with_goal with_goal_reachable).
Defined.

Lemma GetLazySuccs_created_dist_witness :
  GetLazySuccs start_only 1 = Ret (lazily_expanded, [2%Z], [1000%Z], [false])
  ∧ (length (m_states start_only) ≤ 2)%nat
  ∧ m_states lazily_expanded !! 2%nat = Some (entry 2 2 1 0.0)
  ∧ (dist (entry 2 2 1 0.0) = 0
     ∧ ∀ L2, rtc step lazily_expanded L2 →
         ∃ e2, m_states L2 !! 2%nat = Some e2 ∧ dist e2 = 0).
Proof.
  split; [apply GetLazySuccs_start_only|].
  split; [simpl; lia|].
  split; [reflexivity|].
  apply (GetLazySuccs_created_dist start_only 1 lazily_expanded
           [2%Z] [1000%Z] [false] GetLazySuccs_start_only 2%nat
           (entry 2 2 1 0.0)); [simpl; lia | reflexivity].
Defined.

(** ** Where the sentences of the specification fail *)

(** [GetTrueCost] on the edge from the state of [6/5] to itself: the one
    action ends at [13/10], in the bin of the state, and passes
    [checkAction], but the forward kinematics fails there and the code
    skips the action. *)
Lemma GetTrueCost_not_as_specified : ¬ GetTrueCost_as_specified with_goal 1 1.
Proof.
  intros Hspec.
  destruct (Hspec (entry 1 2 (6 / 5) (1 / 2)) (entry 1 2 (6 / 5) (1 / 2))
              eq_refl eq_refl) as (v & Hv & Hleast).
  rewrite GetTrueCost_self_edge in Hv. injection Hv as <-.
  destruct Hleast as [(a & _ & _ & Hcost & _)|[Hnone _]].
  - unfold cost in Hcost. simpl in Hcost. discriminate Hcost.
  - apply (Hnone [[13 / 10]]).
    + simpl. rewrite actions_far by lra. apply list_elem_of_here.
    + exists [13 / 10], (1 / 4). split_and!.
      * reflexivity.
      * simpl. apply anglesToCoord_one; simpl; lia || lra.
      * reflexivity.
Qed.

(** [extractPath] on the path from the start to the goal: the action of
    the start ends at [1], and the configuration emitted for the goal is
    [6/5], the configuration that created the state of that bin. *)
Lemma extractPath_goal_not_as_specified :
  ¬ extractPath_goal_as_specified with_goal [2; 0]%Z.
Proof.
  intros Hspec.
  destruct (Hspec [] [[0]; [6 / 5]] 0%Z 0%nat 2%Z (entry 2 1 0 (1 / 2))
              extractPath_with_goal eq_refl eq_refl eq_refl eq_refl)
    as (action & back & Hin & _ & Hback & Hpath).
  simpl in Hin. rewrite actions_near in Hin by lra.
  apply list_elem_of_singleton in Hin as ->.
  simpl in Hback, Hpath. injection Hback as <-.
  injection Hpath as Heq. lra.
Qed.

(** A start at the lower limit of the joint has the all-zero coordinate:
    [setStart] finds the reserved goal entry in the table and makes it the
    start state. *)
Lemma setStart_aliases_goal_entry :
  setStart ManipLattice_new [-1]
  = Ret (true, set_m_start_entry (Some 0%nat) ManipLattice_new)
  ∧ m_goal_entry ManipLattice_new = Some 0%nat.
Proof.
  split; [|reflexivity].
  unfold setStart. simpl.
  rewrite FK_one by (done || lra). simpl.
  rewrite (anglesToCoord_joint_one (-1) 0) by (simpl; lia || lra).
  reflexivity.
Qed.


(** ** A destination at the all-zero coordinate *)

Lemma setStart_new_34 :
  setStart ManipLattice_new [3 / 4]
  = Ret (true, set_m_goal initial_goal near_limit).
Proof.
  unfold setStart. simpl.
  rewrite FK_one by (done || lra). simpl.
  rewrite (anglesToCoord_joint_one (3 / 4) 2) by (simpl; lia || lra).
  reflexivity.
Qed.

Lemma setGoal_near_limit :
  setGoal (set_m_goal initial_goal near_limit) position_goal
  = Ret (true, near_limit).
Proof.
  unfold setGoal, setGoalPosition. simpl.
  rewrite double_to_int_0. simpl.
  unfold near_limit, stored_goal, set_m_goal, set_m_states. simpl.
  repeat f_equal; ring.
Qed.

Lemma near_limit_reachable : reachable near_limit.
Proof.
  eapply rtc_l; [eapply step_setStart; apply setStart_new_34|].
  eapply rtc_l; [eapply step_setGoal; apply setGoal_near_limit|].
  apply rtc_refl.
Qed.

Lemma far_from_goal :
  Rleb (Rabs (-1 - 1)) (1 / 10) && Rleb (Rabs (0 - 0)) (1 / 10)
  && Rleb (Rabs (0 - 0)) (1 / 10) = false.
Proof.
  rewrite (Rabs_left (-1 - 1)) by lra. unfold Rleb.
  destruct (Rle_dec (- (-1 - 1)) (1 / 10)) as [Hn|_]; [lra|done].
Qed.

Lemma isGoal_near_limit :
  isGoal near_limit [-1] [-1; 0; 0; 0; 0; 0] = Ret false.
Proof.
  unfold isGoal, within_xyz_tolerance. simpl. by rewrite far_from_goal.
Qed.

Lemma near_limit_lookup s d cell :
  getOrCreateState near_limit [0%Z] s d cell = (near_limit, 0%nat).
Proof. reflexivity. Qed.

(** C1 (as the code has it).  In the lattice [near_limit] the one action
    of the start passes [checkAction] and ends at the lower limit of the
    joint, which does not meet the goal.  The coordinate of the
    destination is the all-zero one, [getOrCreateState] finds the
    reserved goal entry under it, and [GetSuccs] reports the successor
    with the ID of the goal entry. *)
Theorem GetSuccs_reports_goal_for_zero_coordinate :
  reachable near_limit
  ∧ enumerated_actions [3 / 4] = [[[-1]]]
  ∧ checkAction [3 / 4] [[-1]] = Ret (true, 1 / 4)
  ∧ anglesToCoord [-1] = Ret [0%Z]
  ∧ computePlanningFrameFK near_limit [-1] = Ret (Some [-1; 0; 0; 0; 0; 0])
  ∧ isGoal near_limit [-1] [-1; 0; 0; 0; 0; 0] = Ret false
  ∧ getGoalStateID near_limit = Ret 0%Z
  ∧ GetSuccs near_limit 1
    = Ret (set_m_expanded_states [1%Z] near_limit, [0%Z], [1000%Z]).
Proof.
  split_and!.
  - apply near_limit_reachable.
  - apply actions_middle. lra.
  - reflexivity.
  - apply anglesToCoord_one; simpl; lia || lra.
  - apply FK_one; [reflexivity | lra].
  - apply isGoal_near_limit.
  - reflexivity.
  - unfold GetSuccs. simpl.
    destruct (Rlt_dec (3 / 4) (1 / 2)) as [Hn|_]; [lra|].
    destruct (Rlt_dec (3 / 4) 1) as [_|Hn]; [|lra]. simpl.
    rewrite (anglesToCoord_joint_one (-1) 0) by (simpl; lia || lra). simpl.
    rewrite FK_one by (done || lra). simpl.
    rewrite near_limit_lookup.
    rewrite ?isGoal_near_limit, ?far_from_goal. reflexivity.
Qed.

(** ** The further theorems at these lattices *)

Lemma new_reachable : reachable ManipLattice_new.
Proof. apply rtc_refl. Qed.

Lemma two_states_reachable : reachable two_states.
Proof.
  eapply rtc_l; [eapply step_setStart; apply setStart_new_65|].
  eapply rtc_l; [eapply step_setStart; apply setStart_one_0|].
  apply rtc_refl.
Qed.

Lemma states_append_only_witness :
  reachable ManipLattice_new
  ∧ rtc step ManipLattice_new start_only
  ∧ ((∃ l, m_states start_only = m_states ManipLattice_new ++ l)
     ∧ (∀ p e, m_states ManipLattice_new !! p = Some e →
               getHashEntry_id start_only (stateID e) = Some e)
     ∧ (∀ c p, getHashEntry ManipLattice_new c = Some p →
               getHashEntry start_only c = Some p)).
Proof.
  split; [apply new_reachable|].
  split; [apply start_only_reachable|].
  apply (states_append_only ManipLattice_new start_only
           new_reachable start_only_reachable).
Defined.

Lemma entries_hold_their_coordinate_witness :
  reachable start_only
  ∧ m_states start_only !! 1%nat = Some (entry 1 1 0 (1 / 2))
  ∧ 1%nat ≠ 0%nat
  ∧ (anglesToCoord (state (entry 1 1 0 (1 / 2)))
     = Ret (coord (entry 1 1 0 (1 / 2)))
     ∧ coord (entry 1 1 0 (1 / 2)) ≠ replicate num_joints_ 0%Z).
Proof.
  assert (Hp : m_states start_only !! 1%nat = Some (entry 1 1 0 (1 / 2)))
    by reflexivity.
  assert (Hne : 1%nat ≠ 0%nat) by lia.
  split; [apply start_only_reachable|].
  split; [exact Hp|].
  split; [exact Hne|].
  apply (entries_hold_their_coordinate start_only 1 _
           start_only_reachable Hp Hne).
Defined.

Lemma goal_entry_constant_witness :
  reachable start_only
  ∧ (m_goal_entry start_only = Some 0%nat
     ∧ getHashEntry_id start_only 0 =
         Some {| stateID := 0; coord := replicate num_joints_ 0%Z;
                 state := []; dist := 0; xyz := (0%Z, 0%Z, 0%Z) |}).
Proof.
  split; [apply start_only_reachable|].
  apply (goal_entry_constant start_only start_only_reachable).
Defined.

Lemma table_lookups_agree_witness :
  reachable start_only
  ∧ (getHashEntry start_only [1%Z] = Some 1%nat
     ↔ ∃ e, getHashEntry_id start_only (Z.of_nat 1) = Some e
            ∧ coord e = [1%Z] ∧ stateID e = Z.of_nat 1).
Proof.
  split; [apply start_only_reachable|].
  apply (table_lookups_agree start_only [1%Z] 1 start_only_reachable).
Defined.

Lemma checkAction_accepts_iff_witness :
  [[1]] ≠ ([] : Action)
  ∧ ∃ b d, checkAction [0] [[1]] = Ret (b, d)
      ∧ (b = true ↔
           Forall (λ w, checkJointLimits w = true) [[1]]
           ∧ Forall segment_valid (action_segments [0] [[1]]))
      ∧ (b = true →
         ∃ seg, list.last (action_segments [0] [[1]]) = Some seg
                ∧ d = (isStateToStateValid seg.1 seg.2).2).
Proof.
  assert (Hne : [[1]] ≠ ([] : Action)) by discriminate.
  split; [exact Hne|].
  apply (checkAction_accepts_iff [0] [[1]] Hne).
Defined.


Lemma isGoal_at_target_witness :
  type (m_goal with_goal) = XYZ_GOAL
  ∧ tgt_off_pose (m_goal with_goal) = [1; 0; 0; 0; 0; 0]
  ∧ 0 <= (xyz_tolerance (m_goal with_goal)).1.1
  ∧ 0 <= (xyz_tolerance (m_goal with_goal)).1.2
  ∧ 0 <= (xyz_tolerance (m_goal with_goal)).2
  ∧ isGoal with_goal [1] [1; 0; 0; 0; 0; 1] = Ret true.
Proof.
  assert (Htype : type (m_goal with_goal) = XYZ_GOAL) by reflexivity.
  assert (Htgt : tgt_off_pose (m_goal with_goal) = [1; 0; 0; 0; 0; 0])
    by reflexivity.
  assert (Hx : 0 <= (xyz_tolerance (m_goal with_goal)).1.1) by (simpl; lra).
  assert (Hy : 0 <= (xyz_tolerance (m_goal with_goal)).1.2) by (simpl; lra).
  assert (Hz : 0 <= (xyz_tolerance (m_goal with_goal)).2) by (simpl; lra).
  split; [exact Htype|].
  split; [exact Htgt|]. split; [exact Hx|]. split; [exact Hy|].
  split; [exact Hz|].
  apply (isGoal_at_target with_goal [1] 1 0 0 [0; 0; 1] [0; 0; 0]
           Htype Htgt Hx Hy Hz).
Defined.

Lemma setGoalPosition_accepts_iff_witness :
  reachable ManipLattice_new
  ∧ ∃ b L',
      setGoalPosition ManipLattice_new [[1; 0; 0; 0; 0; 0; 0]] [[0; 0; 0]] []
      = Ret (b, L')
      ∧ (b = true ↔ goal_format_ok [[1; 0; 0; 0; 0; 0; 0]] [[0; 0; 0]] [])
      ∧ (b = false → L' = ManipLattice_new)
      ∧ m_states L' = m_states ManipLattice_new
      ∧ m_state_to_id L' = m_state_to_id ManipLattice_new
      ∧ m_start_entry L' = m_start_entry ManipLattice_new
      ∧ m_goal_entry L' = m_goal_entry ManipLattice_new.
Proof.
  split; [apply new_reachable|].
  apply (setGoalPosition_accepts_iff ManipLattice_new
           [[1; 0; 0; 0; 0; 0; 0]] [[0; 0; 0]] [] new_reachable).
Defined.

Lemma two_goals_format_ok :
  goal_format_ok
    ([1; 0; 0; 0; 0; 0; 0] :: [[2; 0; 0; 0; 0; 0; 1]])
    ([0; 0; 0] :: [[1; 1; 1]])
    ([1 / 10; 1 / 10; 1 / 10; 1 / 10; 1 / 10; 1 / 10]
       :: [[1; 1; 1; 1; 1; 1]]).
Proof. unfold goal_format_ok. split_and!; try done; by repeat constructor. Qed.

Lemma setGoalPosition_first_only_witness :
  reachable ManipLattice_new
  ∧ goal_format_ok
      ([1; 0; 0; 0; 0; 0; 0] :: [[2; 0; 0; 0; 0; 0; 1]])
      ([0; 0; 0] :: [[1; 1; 1]])
      ([1 / 10; 1 / 10; 1 / 10; 1 / 10; 1 / 10; 1 / 10]
         :: [[1; 1; 1; 1; 1; 1]])
  ∧ setGoalPosition ManipLattice_new
      ([1; 0; 0; 0; 0; 0; 0] :: [[2; 0; 0; 0; 0; 0; 1]])
      ([0; 0; 0] :: [[1; 1; 1]])
      ([1 / 10; 1 / 10; 1 / 10; 1 / 10; 1 / 10; 1 / 10]
         :: [[1; 1; 1; 1; 1; 1]])
    = setGoalPosition ManipLattice_new [[1; 0; 0; 0; 0; 0; 0]] [[0; 0; 0]]
        [[1 / 10; 1 / 10; 1 / 10; 1 / 10; 1 / 10; 1 / 10]].
Proof.
  split; [apply new_reachable|].
  split; [apply two_goals_format_ok|].
  apply (setGoalPosition_first_only ManipLattice_new _ _ _ _ _ _
           new_reachable two_goals_format_ok).
Defined.

Lemma setGoalConfiguration_never_accepts_witness :
  length [0] = num_joints_
  ∧ setGoalConfiguration ManipLattice_new [0] [1 / 100]
    = Ret (false, ManipLattice_new).
Proof.
  assert (Hlen : length [0] = num_joints_) by reflexivity.
  split; [exact Hlen|].
  apply (setGoalConfiguration_never_accepts ManipLattice_new [0] [1 / 100]
           Hlen).
Defined.

Lemma goal_angles_never_set_witness :
  reachable with_goal
  ∧ (getGoalConfiguration with_goal = angles initial_goal
     ∧ angle_tolerances (getGoalConstraints with_goal)
       = angle_tolerances initial_goal).
Proof.
  split; [apply with_goal_reachable|].
  apply (goal_angles_never_set with_goal with_goal_reachable).
Defined.

Lemma setGoal_pose_goal_stored_witness :
  reachable ManipLattice_new
  ∧ (type pose_goal = XYZ_GOAL ∨ type pose_goal = XYZ_RPY_GOAL)
  ∧ pose pose_goal = [0; 0; 0; 0; 0; PI; 1]
  ∧ tgt_off_pose pose_goal = [0; 0; 0]
  ∧ ∃ L', setGoal ManipLattice_new pose_goal = Ret (true, L')
      ∧ type (getGoalConstraints L') = goal_type_of_int (double_to_int 1)
      ∧ getGoal L' = pose pose_goal
      ∧ xyz_offset (getGoalConstraints L') = (0, 0, 0)
      ∧ xyz_tolerance (getGoalConstraints L') = xyz_tolerance pose_goal
      ∧ rpy_tolerance (getGoalConstraints L') = rpy_tolerance pose_goal
      ∧ getTargetOffsetPose L' [0; 0; 0; 0; 0; PI]
        = Ret (tgt_off_pose (getGoalConstraints L'))
      ∧ m_states L' = m_states ManipLattice_new
      ∧ m_start_entry L' = m_start_entry ManipLattice_new.
Proof.
  assert (Htype : type pose_goal = XYZ_GOAL ∨ type pose_goal = XYZ_RPY_GOAL)
    by (right; reflexivity).
  assert (Hpose : pose pose_goal = [0; 0; 0; 0; 0; PI; 1]) by reflexivity.
  assert (Hoff : tgt_off_pose pose_goal = [0; 0; 0]) by reflexivity.
  split; [apply new_reachable|]. split; [exact Htype|].
  split; [exact Hpose|]. split; [exact Hoff|].
  apply (setGoal_pose_goal_stored ManipLattice_new pose_goal
           0 0 0 0 0 PI 1 0 0 0 new_reachable Htype Hpose Hoff).
Defined.

Lemma setGoalPosition_position_goal :
  setGoalPosition two_states ([1; 0; 0; 0; 0; 0; 0] :: [])
    ([0; 0; 0] :: [])
    ([1 / 10; 1 / 10; 1 / 10; 1 / 10; 1 / 10; 1 / 10] :: [])
  = Ret (true, with_goal).
Proof. exact setGoal_position_goal. Qed.

Lemma FK_iface_one :
  (λ q : RobotState,
     match q with
     | x :: _ => if Rlt_dec x (5 / 4) then Some (x, 0, 0, 0, 0, 0) else None
     | [] => None
     end) [1] = Some (1, 0, 0, 0, 0, 0).
Proof. simpl. destruct (Rlt_dec 1 (5 / 4)); [done|lra]. Qed.

Lemma goal_pose_is_goal_witness :
  reachable two_states
  ∧ setGoalPosition two_states ([1; 0; 0; 0; 0; 0; 0] :: [])
      ([0; 0; 0] :: [])
      ([1 / 10; 1 / 10; 1 / 10; 1 / 10; 1 / 10; 1 / 10] :: [])
    = Ret (true, with_goal)
  ∧ 0 <= 1 / 10
  ∧ goal_type_of_int (double_to_int 0) = XYZ_GOAL
  ∧ length [1] = num_joints_
  ∧ ∃ tip, computePlanningFrameFK with_goal [1] = Ret (Some tip)
           ∧ isGoal with_goal [1] tip = Ret true.
Proof.
  assert (Htol : 0 <= 1 / 10) by lra.
  assert (Htype : goal_type_of_int (double_to_int 0) = XYZ_GOAL)
    by (rewrite double_to_int_0; reflexivity).
  assert (Hlen : length [1] = num_joints_) by reflexivity.
  split; [apply two_states_reachable|].
  split; [apply setGoalPosition_position_goal|].
  split; [exact Htol|]. split; [exact Htype|]. split; [exact Hlen|].
  apply (goal_pose_is_goal two_states with_goal _ [1] 1 0 0 0 0 0 0 []
           0 0 0 [] (1 / 10) (1 / 10) (1 / 10) (1 / 10) (1 / 10) (1 / 10) []
           two_states_reachable setGoalPosition_position_goal
           Htol Htol Htol Htype Hlen eq_refl FK_iface_one).
Defined.

Lemma StateID2Angles_spec_witness :
  reachable start_only
  ∧ ∃ r, StateID2Angles start_only 1 = Ret r
      ∧ ∀ q, r = Some q ↔
          1%Z ≠ 0%Z
          ∧ ∃ e, getHashEntry_id start_only 1 = Some e ∧ state e = q
                 ∧ anglesToCoord q = Ret (coord e).
Proof.
  split; [apply start_only_reachable|].
  apply (StateID2Angles_spec start_only 1 start_only_reachable).
Defined.

Lemma setStart_start_queries_witness :
  reachable ManipLattice_new
  ∧ setStart ManipLattice_new [0] = Ret (true, start_only)
  ∧ ∃ c p e,
      anglesToCoord [0] = Ret c
      ∧ getStartStateID start_only = Ret (Z.of_nat p)
      ∧ getHashEntry_id start_only (Z.of_nat p) = Some e
      ∧ coord e = c
      ∧ getStartConfiguration start_only = Ret (state e)
      ∧ (getHashEntry ManipLattice_new c = None → state e = [0])
      ∧ (c ≠ replicate num_joints_ 0%Z → anglesToCoord (state e) = Ret c)
      ∧ (c = replicate num_joints_ 0%Z → p = 0%nat ∧ state e = []).
Proof.
  split; [apply new_reachable|].
  split; [apply setStart_new_0|].
  apply (setStart_start_queries ManipLattice_new [0] start_only
           new_reachable setStart_new_0).
Defined.

Lemma same_cell_as_start : anglesToCoord [1 / 4] = anglesToCoord [0].
Proof.
  rewrite (anglesToCoord_one (1 / 4) 1), (anglesToCoord_one 0 1);
    [done | lia | simpl; lra | lia | simpl; lra].
Qed.

Lemma FK_start_only_quarter :
  computePlanningFrameFK start_only [1 / 4]
  = Ret (Some [1 / 4; 0; 0; 0; 0; 0]).
Proof. apply FK_one; [done | lra]. Qed.

Lemma setStart_same_cell_witness :
  reachable ManipLattice_new
  ∧ setStart ManipLattice_new [0] = Ret (true, start_only)
  ∧ anglesToCoord [1 / 4] = anglesToCoord [0]
  ∧ computePlanningFrameFK start_only [1 / 4]
    = Ret (Some [1 / 4; 0; 0; 0; 0; 0])
  ∧ checkJointLimits [1 / 4] = true
  ∧ (isStateValid [1 / 4]).1 = true
  ∧ setStart start_only [1 / 4] = Ret (true, start_only).
Proof.
  assert (Hlim : checkJointLimits [1 / 4] = true) by reflexivity.
  assert (Hvalid : (isStateValid [1 / 4]).1 = true) by reflexivity.
  split; [apply new_reachable|].
  split; [apply setStart_new_0|].
  split; [apply same_cell_as_start|].
  split; [apply FK_start_only_quarter|].
  split; [exact Hlim|]. split; [exact Hvalid|].
  apply (setStart_same_cell ManipLattice_new [0] start_only [1 / 4] _
           new_reachable setStart_new_0 same_cell_as_start
           FK_start_only_quarter Hlim Hvalid).
Defined.

Lemma GetSuccs_shape_witness :
  reachable with_goal
  ∧ GetSuccs with_goal 2
    = Ret (set_m_expanded_states [2%Z] with_goal, [0%Z], [1000%Z])
  ∧ (length [1000%Z] = length [0%Z]
     ∧ (∀ c, c ∈ [1000%Z] → c = cost_multiplier_)
     ∧ (∀ s, s ∈ [0%Z] →
          ∃ e, getHashEntry_id (set_m_expanded_states [2%Z] with_goal) s
               = Some e ∧ stateID e = s)
     ∧ getGoalConstraints (set_m_expanded_states [2%Z] with_goal)
       = getGoalConstraints with_goal
     ∧ m_start_entry (set_m_expanded_states [2%Z] with_goal)
       = m_start_entry with_goal
     ∧ ∃ l, m_states (set_m_expanded_states [2%Z] with_goal)
            = m_states with_goal ++ l).
Proof.
  split; [apply with_goal_reachable|].
  split; [apply GetSuccs_with_goal|].
  apply (GetSuccs_shape with_goal 2 _ _ _
           with_goal_reachable GetSuccs_with_goal).
Defined.

Lemma GetLazySuccs_shape_witness :
  reachable start_only
  ∧ GetLazySuccs start_only 1
    = Ret (lazily_expanded, [2%Z], [1000%Z], [false])
  ∧ (length [1000%Z] = length [2%Z] ∧ length [false] = length [2%Z]
     ∧ (∀ c, c ∈ [1000%Z] → c = cost_multiplier_)
     ∧ (∀ f, f ∈ [false] → f = false)
     ∧ (∀ s, s ∈ [2%Z] →
          ∃ e, getHashEntry_id lazily_expanded s = Some e ∧ stateID e = s)
     ∧ getGoalConstraints lazily_expanded = getGoalConstraints start_only
     ∧ m_start_entry lazily_expanded = m_start_entry start_only
     ∧ ∃ l, m_states lazily_expanded = m_states start_only ++ l).
Proof.
  split; [apply start_only_reachable|].
  split; [apply GetLazySuccs_start_only|].
  apply (GetLazySuccs_shape start_only 1 _ _ _ _
           start_only_reachable GetLazySuccs_start_only).
Defined.

Lemma GetSuccs_again_witness :
  reachable with_goal
  ∧ GetSuccs with_goal 2
    = Ret (set_m_expanded_states [2%Z] with_goal, [0%Z], [1000%Z])
  ∧ ∃ L'', GetSuccs (set_m_expanded_states [2%Z] with_goal) 2
           = Ret (L'', [0%Z], [1000%Z])
      ∧ m_states L'' = m_states (set_m_expanded_states [2%Z] with_goal)
      ∧ m_state_to_id L''
        = m_state_to_id (set_m_expanded_states [2%Z] with_goal)
      ∧ getGoalConstraints L''
        = getGoalConstraints (set_m_expanded_states [2%Z] with_goal)
      ∧ m_start_entry L''
        = m_start_entry (set_m_expanded_states [2%Z] with_goal).
Proof.
  split; [apply with_goal_reachable|].
  split; [apply GetSuccs_with_goal|].
  apply (GetSuccs_again with_goal 2 _ _ _
           with_goal_reachable GetSuccs_with_goal).
Defined.

Lemma GetLazySuccs_then_GetTrueCost_witness :
  reachable start_only
  ∧ (cost_multiplier_ < INT_MAX)%Z
  ∧ GetLazySuccs start_only 1
    = Ret (lazily_expanded, [2%Z], [1000%Z], [false])
  ∧ 2%Z ∈ [2%Z]
  ∧ ∃ v, GetTrueCost lazily_expanded 1 2 = Ret v
         ∧ (v = cost_multiplier_ ∨ v = (-1)%Z).
Proof.
  assert (Hcm : (cost_multiplier_ < INT_MAX)%Z) by reflexivity.
  assert (Hs : 2%Z ∈ [2%Z]) by apply list_elem_of_here.
  split; [apply start_only_reachable|]. split; [exact Hcm|].
  split; [apply GetLazySuccs_start_only|]. split; [exact Hs|].
  apply (GetLazySuccs_then_GetTrueCost start_only 1 _ _ _ _ 2
           start_only_reachable Hcm GetLazySuccs_start_only Hs).
Defined.

Lemma extractPath_single_witness :
  reachable with_goal
  ∧ ∃ b, extractPath with_goal [2%Z] [[7]] = Ret (b, [[7]])
      ∧ (b = true ↔
           (2%Z ≠ 0%Z ∧ ∃ e, getHashEntry_id with_goal 2 = Some e)
           ∨ (2%Z = 0%Z
              ∧ ∃ p, m_start_entry with_goal = Some p ∧ p ≠ 0%nat)).
Proof.
  split; [apply with_goal_reachable|].
  apply (extractPath_single with_goal 2 [[7]] with_goal_reachable).
Defined.

Lemma extractPath_goal_free_witness :
  reachable with_goal
  ∧ actionSpace ≠ None
  ∧ (2 ≤ length [2%Z; 1%Z])%nat
  ∧ Forall (λ id, (0 < id < Z.of_nat (length (m_states with_goal)))%Z)
      [2%Z; 1%Z]
  ∧ ∃ path,
      extractPath with_goal [2%Z; 1%Z] [] = Ret (true, path)
      ∧ Forall2
          (λ id q, ∃ e, getHashEntry_id with_goal id = Some e ∧ state e = q)
          [2%Z; 1%Z] path.
Proof.
  assert (Hspace : actionSpace ≠ None) by discriminate.
  assert (Hlen : (2 ≤ length [2%Z; 1%Z])%nat) by (simpl; lia).
  assert (Hids : Forall
            (λ id, (0 < id < Z.of_nat (length (m_states with_goal)))%Z)
            [2%Z; 1%Z]) by (repeat constructor; simpl; lia).
  split; [apply with_goal_reachable|]. split; [exact Hspace|].
  split; [exact Hlen|]. split; [exact Hids|].
  apply (extractPath_goal_free with_goal [2%Z; 1%Z] []
           with_goal_reachable Hspace Hlen Hids).
Defined.

Lemma extractPath_shape_witness :
  reachable with_goal
  ∧ (2 ≤ length [2%Z; 0%Z])%nat
  ∧ extractPath with_goal [2; 0]%Z [] = Ret (true, [[0]; [6 / 5]])
  ∧ (length [[0]; [6 / 5]] = length [2%Z; 0%Z]
     ∧ (∀ i, [2%Z; 0%Z] !! i = Some 0%Z → S i = length [2%Z; 0%Z])
     ∧ (∀ i id, [2%Z; 0%Z] !! i = Some id → id ≠ 0%Z →
          ∃ e, getHashEntry_id with_goal id = Some e
               ∧ [[0]; [6 / 5]] !! i = Some (state e))).
Proof.
  assert (Hlen : (2 ≤ length [2%Z; 0%Z])%nat) by (simpl; lia).
  split; [apply with_goal_reachable|]. split; [exact Hlen|].
  split; [apply extractPath_with_goal|].
  apply (extractPath_shape with_goal [2%Z; 0%Z] [] _
           with_goal_reachable Hlen extractPath_with_goal).
Defined.

Lemma getActionCost_defined_witness :
  (1 : R) ≠ 0
  ∧ ((length [0; 0; 0] ≠ length [1; 0; 0] →
      getActionCost 1 (λ a b, Rabs (a - b)) [0; 0; 0] [1; 0; 0] 0
      = Ret (-1)%Z)
     ∧ (length [0; 0; 0] = length [1; 0; 0] →
        (∃ c, getActionCost 1 (λ a b, Rabs (a - b)) [0; 0; 0] [1; 0; 0] 0
              = Ret c)
        ↔ (6 ≤ length [0; 0; 0])%nat)).
Proof.
  assert (Hoff : (1 : R) ≠ 0) by lra.
  split; [exact Hoff|].
  apply (getActionCost_defined 1 (λ a b, Rabs (a - b)) [0; 0; 0] [1; 0; 0] 0
           Hoff).
Defined.


(** ** The edges, the paths and the start, at these lattices *)

Lemma setGoal_start_only :
  setGoal start_only position_goal = Ret (true, start_with_goal).
Proof.
  unfold setGoal, setGoalPosition. simpl.
  rewrite double_to_int_0. simpl.
  unfold start_with_goal, stored_goal, set_m_goal, set_m_states. simpl.
  repeat f_equal; ring.
Qed.

Lemma start_with_goal_reachable : reachable start_with_goal.
Proof.
  eapply rtc_l; [eapply step_setStart; apply setStart_new_0|].
  eapply rtc_l; [eapply step_setGoal; apply setGoal_start_only|].
  apply rtc_refl.
Qed.

(** A case that the statement on the least cost leaves out.  In
    [start_with_goal] the one
    action of the start meets the goal and passes [checkAction], so it
    counts for the edge from the start to the goal entry, and its
    destination has no state in the table: [assert(succ_entry)] fails. *)
Lemma GetTrueCost_asserts_on_missing_state :
  reachable start_with_goal
  ∧ state_by_id start_with_goal 1 = Ret (entry 1 1 0 (1 / 2))
  ∧ state_by_id start_with_goal 0 = Ret goal_entry
  ∧ [[1]] ∈ enumerated_actions [0]
  ∧ qualifies start_with_goal [0] true [0%Z] [[1]]
  ∧ anglesToCoord [1] = Ret [2%Z]
  ∧ getHashEntry start_with_goal [2%Z] = None
  ∧ GetTrueCost start_with_goal 1 0 = Abort.
Proof.
  split_and!.
  - apply start_with_goal_reachable.
  - reflexivity.
  - reflexivity.
  - rewrite actions_near by lra. apply list_elem_of_here.
  - exists [1], [1; 0; 0; 0; 0; 0], (1 / 4). split_and!.
    + reflexivity.
    + apply FK_one; [reflexivity | lra].
    + by apply isGoal_stored_goal.
    + reflexivity.
  - apply anglesToCoord_one; simpl; lia || lra.
  - reflexivity.
  - unfold GetTrueCost. simpl.
    destruct (Rlt_dec 0 (1 / 2)) as [_|Hn]; [|lra]. simpl.
    rewrite (anglesToCoord_joint_one 1 2) by (simpl; lia || lra). simpl.
    rewrite FK_one by (done || lra). simpl.
    rewrite ?isGoal_stored_goal by done. rewrite ?near_goal. reflexivity.
Qed.

Lemma GetTrueCost_least_cost_witness :
  reachable with_goal
  ∧ (cost_multiplier_ < INT_MAX)%Z
  ∧ state_by_id with_goal 2 = Ret (entry 2 1 0 (1 / 2))
  ∧ state_by_id with_goal 0 = Ret goal_entry
  ∧ goal_test_ready (m_goal with_goal)
  ∧ (∀ a, a ∈ enumerated_actions (state (entry 2 1 0 (1 / 2))) →
       ∃ back, action_back a = Ret back ∧ length back = num_joints_)
  ∧ ∃ v, GetTrueCost with_goal 2 0 = Ret v
      ∧ least_cost_or_minus_one
          (qualifies with_goal (state (entry 2 1 0 (1 / 2)))
             (bool_decide (Some (Z.to_nat 0) = m_goal_entry with_goal))
             (coord goal_entry))
          (enumerated_actions (state (entry 2 1 0 (1 / 2))))
          (λ _, cost (Z.to_nat 2) (Z.to_nat 0)
                  (bool_decide (Some (Z.to_nat 0) = m_goal_entry with_goal)))
          v.
Proof.
  assert (Hcm : (cost_multiplier_ < INT_MAX)%Z) by reflexivity.
  assert (Hparent : state_by_id with_goal 2 = Ret (entry 2 1 0 (1 / 2)))
    by reflexivity.
  assert (Hchild : state_by_id with_goal 0 = Ret goal_entry) by reflexivity.
  assert (Hready : goal_test_ready (m_goal with_goal))
    by (unfold goal_test_ready; simpl; lia).
  assert (Hshape : ∀ a, a ∈ enumerated_actions (state (entry 2 1 0 (1 / 2))) →
                     ∃ back, action_back a = Ret back
                             ∧ length back = num_joints_).
  { intros a Ha. simpl in Ha. rewrite actions_near in Ha by lra.
    apply list_elem_of_singleton in Ha as ->. by exists [1]. }
  assert (Hstates : Some (Z.to_nat 0) = m_goal_entry with_goal →
    ∀ a, a ∈ enumerated_actions (state (entry 2 1 0 (1 / 2))) →
      qualifies with_goal (state (entry 2 1 0 (1 / 2))) true
        (coord goal_entry) a →
      ∃ back c p, action_back a = Ret back ∧ anglesToCoord back = Ret c
                  ∧ getHashEntry with_goal c = Some p).
  { intros _ a Ha _. simpl in Ha. rewrite actions_near in Ha by lra.
    apply list_elem_of_singleton in Ha as ->.
    exists [1], [2%Z], 1%nat. split_and!; [reflexivity| |reflexivity].
    apply anglesToCoord_one; simpl; lia || lra. }
  split; [apply with_goal_reachable|]. split; [exact Hcm|].
  split; [exact Hparent|]. split; [exact Hchild|]. split; [exact Hready|].
  split; [exact Hshape|].
  apply (GetTrueCost_least_cost with_goal 2 0 _ _ with_goal_reachable Hcm
           Hparent Hchild Hready Hshape Hstates).
Defined.

Lemma far_from_goal_at_65 :
  Rleb (Rabs (6 / 5 - 1)) (1 / 10) && Rleb (Rabs (0 - 0)) (1 / 10)
  && Rleb (Rabs (0 - 0)) (1 / 10) = false.
Proof.
  rewrite (Rabs_right (6 / 5 - 1)) by lra. unfold Rleb.
  destruct (Rle_dec (6 / 5 - 1) (1 / 10)) as [Hn|_]; [lra|done].
Qed.

(** C3 (as the code has it).  In the lattice [with_goal] the path from
    the state of the configuration [0] to the goal is accepted.  The one
    action of that state ends at [1], which meets the goal, and passes
    [checkAction]; the configuration that [extractPath] writes at the
    position of the goal ID is [6/5], the configuration stored in the
    state of the coordinate of [1].  It is the last waypoint of no action
    of the state and does not meet the goal, and the sentence of the
    specification fails on this path. *)
Theorem extractPath_emits_stored_configuration :
  reachable with_goal
  ∧ getGoalStateID with_goal = Ret 0%Z
  ∧ state_by_id with_goal 2 = Ret (entry 2 1 0 (1 / 2))
  ∧ enumerated_actions [0] = [[[1]]]
  ∧ computePlanningFrameFK with_goal [1] = Ret (Some [1; 0; 0; 0; 0; 0])
  ∧ isGoal with_goal [1] [1; 0; 0; 0; 0; 0] = Ret true
  ∧ checkAction [0] [[1]] = Ret (true, 1 / 4)
  ∧ extractPath with_goal [2; 0]%Z [] = Ret (true, [[0]; [6 / 5]])
  ∧ [6 / 5] ≠ [1]
  ∧ computePlanningFrameFK with_goal [6 / 5]
    = Ret (Some [6 / 5; 0; 0; 0; 0; 0])
  ∧ isGoal with_goal [6 / 5] [6 / 5; 0; 0; 0; 0; 0] = Ret false
  ∧ ¬ extractPath_goal_as_specified with_goal [2; 0]%Z.
Proof.
  split_and!.
  - apply with_goal_reachable.
  - reflexivity.
  - reflexivity.
  - apply actions_near. lra.
  - apply FK_one; [reflexivity | lra].
  - by apply isGoal_stored_goal.
  - reflexivity.
  - apply extractPath_with_goal.
  - intros [= Heq]. lra.
  - apply FK_one; [reflexivity | lra].
  - unfold isGoal, within_xyz_tolerance. simpl. by rewrite far_from_goal_at_65.
  - apply extractPath_goal_not_as_specified.
Qed.

(** C7 (as the code has it).  [setStart] on a configuration with two
    positions for the one joint of the lattice.  None of the refusals of
    the specification applies: the configuration does not have fewer
    positions than joints, the forward kinematics is present and succeeds
    on it, every position is within the limits of the joint and passes
    the check of the robot model, and the collision checker accepts it.
    The guard of [setStart] lets it pass, and the assertion of
    [computePlanningFrameFK] on the number of positions fails. *)
Theorem setStart_asserts_on_extra_position :
  ¬ (length [0; 0] < num_joints_)%nat
  ∧ (∃ fk, fk_iface = Some fk ∧ fk [0; 0] = Some (0, 0, 0, 0, 0, 0))
  ∧ (∀ i qi, [0; 0] !! i = Some qi →
       minPosLimit i <= qi <= maxPosLimit i)
  ∧ checkJointLimits [0; 0] = true
  ∧ (isStateValid [0; 0]).1 = true
  ∧ length [0; 0] ≠ num_joints_
  ∧ computePlanningFrameFK ManipLattice_new [0; 0] = Abort
  ∧ setStart ManipLattice_new [0; 0] = Abort.
Proof.
  split_and!.
  - simpl. lia.
  - eexists. split; [reflexivity|]. simpl.
    destruct (Rlt_dec 0 (5 / 4)) as [_|Hn]; [done|lra].
  - intros [|[|i]] qi Hq; simpl in *; try done; injection Hq as <-; lra.
  - reflexivity.
  - reflexivity.
  - simpl. lia.
  - reflexivity.
  - reflexivity.
Qed.

End ExampleFacts.

(** * The lattice with two joints *)

Module TwoJointsFacts.
#[local] Existing Instance TwoJoints.collaborators.

Lemma coordToAngles_anglesToCoord_witness :
  length [0; PI] = num_joints_
  ∧ (∀ i, (i < num_joints_)%nat → 0 < nth i coord_delta_ 0)
  ∧ (∀ i, (i < num_joints_)%nat → hasPosLimit i = false →
          IZR (nth i coord_vals_ 0%Z) * nth i coord_delta_ 0 = 2 * PI)
  ∧ (∀ i qi, [0; PI] !! i = Some qi → hasPosLimit i = true →
             minPosLimit i <= qi <= maxPosLimit i)
  ∧ ∃ c, anglesToCoord [0; PI] = Ret c
         ∧ length (coordToAngles c) = num_joints_
         ∧ ∀ i qi, [0; PI] !! i = Some qi →
             ∃ ai, coordToAngles c !! i = Some ai ∧ within_half_bin i qi ai.
Proof.
  pose proof PI_RGT_0 as Hpi.
  assert (Hdelta : ∀ i, (i < num_joints_)%nat → 0 < nth i coord_delta_ 0).
  { intros [|[|i]] Hi; simpl in *; lra || lia. }
  assert (Hvals : ∀ i, (i < num_joints_)%nat → hasPosLimit i = false →
                       IZR (nth i coord_vals_ 0%Z) * nth i coord_delta_ 0
                       = 2 * PI).
  { intros [|[|i]] Hi Hc; simpl in *; try done; lra || lia. }
  assert (Hlim : ∀ i qi, [0; PI] !! i = Some qi → hasPosLimit i = true →
                         minPosLimit i <= qi <= maxPosLimit i).
  { intros [|[|i]] qi Hq Hc; simpl in *; try done.
    injection Hq as <-. lra. }
  assert (Hlen : length [0; PI] = num_joints_) by reflexivity.
  split; [exact Hlen|].
  split; [exact Hdelta|].
  split; [exact Hvals|].
  split; [exact Hlim|].
  apply (coordToAngles_anglesToCoord [0; PI] Hlen Hdelta Hvals Hlim).
Defined.

Lemma resolutions_positive :
  ∀ i, (i < num_joints_)%nat → 0 < nth i coord_delta_ 0.
Proof.
  pose proof PI_RGT_0 as Hpi.
  intros [|[|i]] Hi; simpl in *; lra || lia.
Qed.

Lemma bins_cover_the_circle :
  ∀ i, (i < num_joints_)%nat → hasPosLimit i = false →
       IZR (nth i coord_vals_ 0%Z) * nth i coord_delta_ 0 = 2 * PI.
Proof.
  pose proof PI_RGT_0 as Hpi.
  intros [|[|i]] Hi Hc; simpl in *; try done; lra || lia.
Qed.


Lemma cells_in_range :
  ∀ i ci, [2%Z; 3%Z] !! i = Some ci →
    (0 ≤ ci)%Z ∧ (hasPosLimit i = false → (ci < nth i coord_vals_ 0)%Z).
Proof.
  intros [|[|i]] ci Hci; simpl in *; try done;
    injection Hci as <-; (split; [lia|]); intros _; lia.
Qed.

Lemma anglesToCoord_coordToAngles_witness :
  length [2%Z; 3%Z] = num_joints_
  ∧ anglesToCoord (coordToAngles [2%Z; 3%Z]) = Ret [2%Z; 3%Z].
Proof.
  assert (Hlen : length [2%Z; 3%Z] = num_joints_) by reflexivity.
  split; [exact Hlen|].
  apply (anglesToCoord_coordToAngles [2%Z; 3%Z] Hlen resolutions_positive
           bins_cover_the_circle cells_in_range).
Defined.


Lemma anglesToCoord_full_turns_witness :
  [0; PI] !! 1%nat = Some PI
  ∧ hasPosLimit 1 = false
  ∧ anglesToCoord (<[1%nat := PI + IZR 1 * (2 * PI)]> [0; PI])
    = anglesToCoord [0; PI].
Proof.
  assert (Hq : [0; PI] !! 1%nat = Some PI) by reflexivity.
  assert (Hc : hasPosLimit 1 = false) by reflexivity.
  split; [exact Hq|]. split; [exact Hc|].
  apply (anglesToCoord_full_turns [0; PI] 1 PI 1 Hq Hc).
Defined.

End TwoJointsFacts.

(** * The lattice whose cost multiplier is the largest [int] *)

Module SentinelFacts.
Import Example.
#[local] Existing Instance Sentinel.collaborators.

#[local] Arguments tipoff_translation : simpl never.
#[local] Arguments double_to_int : simpl never.
#[local] Arguments isGoal : simpl never.
#[local] Arguments computePlanningFrameFK : simpl never.

Lemma encode_one (x : R) (z : Z) :
  (0 ≤ z)%Z → IZR z <= x + 3 / 2 < IZR z + 1 → anglesToCoord_joint 0 x = z.
Proof.
  intros Hz Hx. unfold anglesToCoord_joint. simpl.
  rewrite (double_to_int_eq _ z); [done | by apply IZR_le | lra].
Qed.

Lemma FK_below L (x : R) :
  xyz_offset (m_goal L) = (0, 0, 0) → x < 5 / 4 →
  computePlanningFrameFK L [x] = Ret (Some [x; 0; 0; 0; 0; 0]).
Proof.
  intros Hoff Hx. unfold computePlanningFrameFK. simpl.
  destruct (Rlt_dec x (5 / 4)) as [_|Hn]; [|lra].
  by rewrite Hoff, tipoff_translation_zero.
Qed.

Lemma setStart_65 : setStart ManipLattice_new [6 / 5] = Ret (true, one_state).
Proof.
  unfold setStart. simpl.
  rewrite FK_below by (done || lra). simpl.
  rewrite (encode_one (6 / 5) 2) by (simpl; lia || lra).
  reflexivity.
Qed.

Lemma setStart_0 : setStart one_state [0] = Ret (true, two_states).
Proof.
  unfold setStart. simpl.
  rewrite FK_below by (done || lra). simpl.
  rewrite (encode_one 0 1) by (simpl; lia || lra).
  reflexivity.
Qed.

Lemma two_states_reached : reachable two_states.
Proof.
  eapply rtc_l; [eapply step_setStart; apply setStart_65|].
  eapply rtc_l; [eapply step_setStart; apply setStart_0|].
  apply rtc_refl.
Qed.

(** The other case that the statement on the least cost leaves out.  With
    [INT_MAX] for the cost multiplier, the one action of the state of [0] reaches the state
    of the coordinate of [1] and passes [checkAction]; its cost is not
    below the initial value of the running minimum, and [GetTrueCost]
    returns [-1]. *)
Lemma GetTrueCost_at_the_largest_cost :
  cost_multiplier_ = INT_MAX
  ∧ reachable two_states
  ∧ state_by_id two_states 2 = Ret (entry 2 1 0 (1 / 2))
  ∧ state_by_id two_states 1 = Ret (entry 1 2 (6 / 5) (1 / 2))
  ∧ [[1]] ∈ enumerated_actions [0]
  ∧ qualifies two_states [0] false [2%Z] [[1]]
  ∧ cost 2 1 false = INT_MAX
  ∧ GetTrueCost two_states 2 1 = Ret (-1)%Z.
Proof.
  split_and!.
  - reflexivity.
  - apply two_states_reached.
  - reflexivity.
  - reflexivity.
  - unfold enumerated_actions. simpl.
    destruct (Rlt_dec 0 (1 / 2)) as [_|Hn]; [|lra]. apply list_elem_of_here.
  - exists [1], [1; 0; 0; 0; 0; 0], (1 / 4). split_and!.
    + reflexivity.
    + apply FK_below; [reflexivity | lra].
    + unfold anglesToCoord. simpl.
      by rewrite (encode_one 1 2) by (simpl; lia || lra).
    + reflexivity.
  - reflexivity.
  - unfold GetTrueCost. simpl.
    destruct (Rlt_dec 0 (1 / 2)) as [_|Hn]; [|lra]. simpl.
    rewrite (encode_one 1 2) by (simpl; lia || lra). simpl.
    rewrite FK_below by (done || lra). simpl.
    reflexivity.
Qed.

End SentinelFacts.
